(** * qView: the action manager (src/src/actionmanager.cpp)

    A shallow embedding of [ActionManager]: the recents list and its audit,
    the debounced persistence of that list, the action and clone
    libraries, the recents menu and the dispatch of triggered actions. *)

From Stdlib Require Import ZArith Lia Ascii String List.
From stdpp Require Import base decidable option numbers list strings gmap pretty.

Open Scope Z_scope.

Set Warnings "-register-all".

(** ** Toolkit data *)

Definition QString := string.

(** Modelled from the spec: the entry type [SRecent] of the recents list is
    declared in actionmanager.h, which is not part of the sources; the spec
    describes the list as an ordered list of (display name, path) pairs
    compared by equality, and the code initialises an entry with
    [{file.fileName(), file.filePath()}] and reads [recent.fileName] and
    [recent.filePath]. *)
Record SRecent := mkSRecent { fileName : QString; filePath : QString }.

#[global] Instance SRecent_eq_dec : EqDecision SRecent.
Proof. solve_decision. Defined.

(** [recent == other] on entries: both fields equal. *)
Definition SRecent_eqb (a b : SRecent) : bool := bool_decide (a = b).

(** ** QList operations used by the recents code *)

Module QList.
Section ops.
Context {T : Type}.

(** [QList::value(i)]: the element at [i], a default value out of range. *)
Definition value (d : T) (l : list T) (i : nat) : T := default d (l !! i).

(** [QList::removeAt(i)]: no effect when [i] is out of range. *)
Definition removeAt (l : list T) (i : nat) : list T := delete i l.

(** [QList::removeLast()], called on non-empty lists only. *)
Definition removeLast (l : list T) : list T := removelast l.

Definition prepend (x : T) (l : list T) : list T := x :: l.
End ops.
End QList.

Definition emptyRecent : SRecent := mkSRecent "" "".

(** ** The audit of the recents list, on the list alone

    The loops of the audit are functions by recursion on a number of
    rounds. Each is called with as many rounds as its list is long,
    which is enough for the loop to reach its exit test. *)

Section audit_list.
(** [QFileInfo::exists(path)] on the disk the call runs against. *)
Variable fileExists : QString -> bool.

(** The duplicate check, lines 404-413: [i2] runs while
    [i2 < recentsList.length()], skipping [i2 == i]. *)
Fixpoint dedupLoop (fuel : nat) (recent : SRecent) (i i2 : nat)
    (l : list SRecent) : list SRecent :=
  match fuel with
  | O => l
  | S fuel' =>
      if bool_decide (i2 < length l)%nat then
        if bool_decide (i = i2) then dedupLoop fuel' recent i (S i2) l
        else if SRecent_eqb recent (QList.value emptyRecent l i2)
             then dedupLoop fuel' recent i (S i2) (QList.removeAt l i2)
             else dedupLoop fuel' recent i (S i2) l
      else l
  end.

(** The body of the outer loop, lines 396-413, at index [i]. *)
Definition auditStep (i : nat) (l : list SRecent) : list SRecent :=
  let recent := QList.value emptyRecent l i in
  let l1 := if fileExists (filePath recent) then l else QList.removeAt l i in
  dedupLoop (length l1) recent i 0 l1.

(** The outer loop, lines 394-414. *)
Fixpoint auditLoop (fuel : nat) (i : nat) (l : list SRecent) : list SRecent :=
  match fuel with
  | O => l
  | S fuel' =>
      if bool_decide (i < length l)%nat
      then auditLoop fuel' (S i) (auditStep i l)
      else l
  end.

(** The eviction loop, lines 416-419. As long as the bound is not
    negative, [removeLast] is only reached on a list that is not empty. *)
Fixpoint evictLoop (fuel : nat) (maxLength : Z) (l : list SRecent) : list SRecent :=
  match fuel with
  | O => l
  | S fuel' =>
      if bool_decide (Z.of_nat (length l) > maxLength)
      then evictLoop fuel' maxLength (QList.removeLast l)
      else l
  end.

(** Lines 389-419 of [auditRecentsList] as a function of the list. *)
Definition auditList (enabled : bool) (maxLength : Z) (l : list SRecent)
    : list SRecent :=
  let l0 := if enabled then l else [] in
  let l1 := auditLoop (length l0) 0 l0 in
  evictLoop (length l1) maxLength l1.
End audit_list.

(** ** Toolkit objects *)

(** Addresses of heap objects. A [QAction*] or [QMenu*] the code obtains
    only from [new] is a location; the null pointer is [None] where the
    code produces or tests it. *)
Definition loc := positive.

Inductive Platform := Linux | MacOS | Windows.

(** The build: [Q_OS_MACOS], [Q_OS_WIN] or another [Q_OS_UNIX], and
    [COCOA_LOADED]. *)
Class Build := { os : Platform; cocoaLoaded : bool }.

Inductive QIcon :=
  | NullIcon
  | ThemeIcon (name : QString) (fallback : QIcon)
  | MimeIcon (path : QString)
  | ProviderIcon (path : QString).

(** [QIcon::fromTheme(name)]. *)
Definition fromTheme (name : QString) : QIcon := ThemeIcon name NullIcon.

Inductive MenuRole :=
  | NoRole | TextHeuristicRole | ApplicationSpecificRole | AboutQtRole
  | AboutRole | PreferencesRole | QuitRole.

Inductive QVariant :=
  | VInvalid
  | VString (s : QString)
  | VStringList (l : list QString)
  | VList (l : list QVariant)
  | VUser (typeName : QString) (repr : QString).

Module Variant.
(** [QVariant::toString()]. *)
Definition toString (v : QVariant) : QString :=
  match v with
  | VString s => s
  | VStringList [s] => s
  | _ => ""
  end.

(** [QVariant::toStringList()]. *)
Definition toStringList (v : QVariant) : list QString :=
  match v with
  | VString s => [s]
  | VStringList l => l
  | VList l => toString <$> l
  | _ => []
  end.

(** [QVariant::toList()]. *)
Definition toList (v : QVariant) : list QVariant :=
  match v with
  | VList l => l
  | VStringList l => VString <$> l
  | _ => []
  end.
End Variant.

Definition QKeySequence := QString.

Record QAction := mkQAction {
  icon : QIcon;
  data : QVariant;
  text : QString;
  menuRole : MenuRole;
  enabled : bool;
  shortcuts : list QKeySequence;
  visible : bool;
  iconVisibleInMenu : option bool
}.

(** [new QAction()], [new QAction(text, parent)] and
    [new QAction(icon, text)]. *)
Definition newQAction (i : QIcon) (t : QString) : QAction :=
  mkQAction i VInvalid t TextHeuristicRole true [] true None.

Definition setIcon (v : QIcon) (a : QAction) : QAction :=
  mkQAction v (data a) (text a) (menuRole a) (enabled a) (shortcuts a) (visible a) (iconVisibleInMenu a).
Definition setData (v : QVariant) (a : QAction) : QAction :=
  mkQAction (icon a) v (text a) (menuRole a) (enabled a) (shortcuts a) (visible a) (iconVisibleInMenu a).
Definition setText (v : QString) (a : QAction) : QAction :=
  mkQAction (icon a) (data a) v (menuRole a) (enabled a) (shortcuts a) (visible a) (iconVisibleInMenu a).
Definition setMenuRole (v : MenuRole) (a : QAction) : QAction :=
  mkQAction (icon a) (data a) (text a) v (enabled a) (shortcuts a) (visible a) (iconVisibleInMenu a).
Definition setEnabled (v : bool) (a : QAction) : QAction :=
  mkQAction (icon a) (data a) (text a) (menuRole a) v (shortcuts a) (visible a) (iconVisibleInMenu a).
Definition setShortcuts (v : list QKeySequence) (a : QAction) : QAction :=
  mkQAction (icon a) (data a) (text a) (menuRole a) (enabled a) v (visible a) (iconVisibleInMenu a).
(** [QAction::setVisible]. Qt also ties [isEnabled()] to visibility: an
    action that is hidden reports itself disabled. The record keeps
    [enabled] apart from [visible], and [setVisible] is modelled on
    [visible] alone. *)
Definition setVisible (v : bool) (a : QAction) : QAction :=
  mkQAction (icon a) (data a) (text a) (menuRole a) (enabled a) (shortcuts a) v (iconVisibleInMenu a).
Definition setIconVisibleInMenu (v : bool) (a : QAction) : QAction :=
  mkQAction (icon a) (data a) (text a) (menuRole a) (enabled a) (shortcuts a) (visible a) (Some v).

(** What a menu holds, in order. *)
Inductive MenuItem :=
  | ItemAction (a : loc)
  | ItemSeparator.

(** The slots this file connects to signals. *)
Inductive Slot := SlotLoadRecentsList | SlotSaveRecentsList | SlotSettingsUpdated.

(** A [QMenu]: its [menuAction()] lives in the action heap and carries
    the title, the icon and the data of the menu. *)
Record QMenu := mkQMenu {
  menuAction : loc;
  items : list MenuItem;
  aboutToShow : list Slot
}.

Definition addItem (it : MenuItem) (m : QMenu) : QMenu :=
  mkQMenu (menuAction m) (items m ++ [it]) (aboutToShow m).
Definition connectAboutToShow (sl : Slot) (m : QMenu) : QMenu :=
  mkQMenu (menuAction m) (items m) (aboutToShow m ++ [sl]).

Record QTimer := mkQTimer {
  singleShot : bool;
  interval : Z;
  isActive : bool;
  timeout : list Slot
}.

(** [new QTimer(parent)]. *)
Definition newQTimer : QTimer := mkQTimer false 0 false [].

Definition setSingleShot (v : bool) (t : QTimer) : QTimer :=
  mkQTimer v (interval t) (isActive t) (timeout t).
Definition setInterval (v : Z) (t : QTimer) : QTimer :=
  mkQTimer (singleShot t) v (isActive t) (timeout t).
Definition connectTimeout (sl : Slot) (t : QTimer) : QTimer :=
  mkQTimer (singleShot t) (interval t) (isActive t) (timeout t ++ [sl]).

(** [QTimer::start()]: starts or restarts the timer. *)
Definition start (t : QTimer) : QTimer :=
  mkQTimer (singleShot t) (interval t) true (timeout t).

(** The signals of [ActionManager]. *)
Inductive Signal := recentsMenuUpdated.

(** [tr]: no translation is installed, the source text is the result. *)
Definition tr (s : QString) : QString := s.

(** [QString::number(i)]. *)
Definition number (i : Z) : QString := pretty i.

(** The conversions between the recents list and the list stored in the
    settings are declared in actionmanager.h, which is not part of the
    sources: they are taken as given. *)
Class RecentsCodec := {
  recentsListToVariantList : list SRecent -> list QVariant;
  variantListToRecentsList : list QVariant -> list SRecent
}.

(** ** [QMultiHash] and [QHash] *)

Module QMultiHash.
Section ops.
Context {V : Type}.

(** [values(key)]: most recently inserted first. *)
Definition values (m : gmap QString (list V)) (key : QString) : list V :=
  default [] (m !! key).

Definition insert (key : QString) (v : V) (m : gmap QString (list V))
    : gmap QString (list V) :=
  <[key := v :: values m key]> m.
End ops.
End QMultiHash.

(** ** The state: the members of [ActionManager], then what they point
    into and the collaborators the code calls *)

Record State := mkState {
  recentsList : list SRecent;
  isSaveRecentsEnabled : bool;
  recentsListMaxLength : Z;
  openWithMaxLength : Z;
  actionLibrary : gmap QString loc;
  actionCloneLibrary : gmap QString (list loc);
  menuCloneLibrary : gmap QString (list loc);
  recentsSaveTimer : QTimer;
  actions : gmap loc QAction;
  menus : gmap loc QMenu;
  settings : gmap QString QVariant;
  saverecents : bool;
  disk : gset QString;
  emitted : list Signal
}.

Definition with_recentsList (v : list SRecent) (s : State) : State :=
  mkState v (isSaveRecentsEnabled s) (recentsListMaxLength s) (openWithMaxLength s) (actionLibrary s) (actionCloneLibrary s) (menuCloneLibrary s) (recentsSaveTimer s) (actions s) (menus s) (settings s) (saverecents s) (disk s) (emitted s).
Definition with_isSaveRecentsEnabled (v : bool) (s : State) : State :=
  mkState (recentsList s) v (recentsListMaxLength s) (openWithMaxLength s) (actionLibrary s) (actionCloneLibrary s) (menuCloneLibrary s) (recentsSaveTimer s) (actions s) (menus s) (settings s) (saverecents s) (disk s) (emitted s).
Definition with_recentsListMaxLength (v : Z) (s : State) : State :=
  mkState (recentsList s) (isSaveRecentsEnabled s) v (openWithMaxLength s) (actionLibrary s) (actionCloneLibrary s) (menuCloneLibrary s) (recentsSaveTimer s) (actions s) (menus s) (settings s) (saverecents s) (disk s) (emitted s).
Definition with_openWithMaxLength (v : Z) (s : State) : State :=
  mkState (recentsList s) (isSaveRecentsEnabled s) (recentsListMaxLength s) v (actionLibrary s) (actionCloneLibrary s) (menuCloneLibrary s) (recentsSaveTimer s) (actions s) (menus s) (settings s) (saverecents s) (disk s) (emitted s).
Definition with_actionLibrary (v : gmap QString loc) (s : State) : State :=
  mkState (recentsList s) (isSaveRecentsEnabled s) (recentsListMaxLength s) (openWithMaxLength s) v (actionCloneLibrary s) (menuCloneLibrary s) (recentsSaveTimer s) (actions s) (menus s) (settings s) (saverecents s) (disk s) (emitted s).
Definition with_actionCloneLibrary (v : gmap QString (list loc)) (s : State) : State :=
  mkState (recentsList s) (isSaveRecentsEnabled s) (recentsListMaxLength s) (openWithMaxLength s) (actionLibrary s) v (menuCloneLibrary s) (recentsSaveTimer s) (actions s) (menus s) (settings s) (saverecents s) (disk s) (emitted s).
Definition with_menuCloneLibrary (v : gmap QString (list loc)) (s : State) : State :=
  mkState (recentsList s) (isSaveRecentsEnabled s) (recentsListMaxLength s) (openWithMaxLength s) (actionLibrary s) (actionCloneLibrary s) v (recentsSaveTimer s) (actions s) (menus s) (settings s) (saverecents s) (disk s) (emitted s).
Definition with_recentsSaveTimer (v : QTimer) (s : State) : State :=
  mkState (recentsList s) (isSaveRecentsEnabled s) (recentsListMaxLength s) (openWithMaxLength s) (actionLibrary s) (actionCloneLibrary s) (menuCloneLibrary s) v (actions s) (menus s) (settings s) (saverecents s) (disk s) (emitted s).
Definition with_actions (v : gmap loc QAction) (s : State) : State :=
  mkState (recentsList s) (isSaveRecentsEnabled s) (recentsListMaxLength s) (openWithMaxLength s) (actionLibrary s) (actionCloneLibrary s) (menuCloneLibrary s) (recentsSaveTimer s) v (menus s) (settings s) (saverecents s) (disk s) (emitted s).
Definition with_menus (v : gmap loc QMenu) (s : State) : State :=
  mkState (recentsList s) (isSaveRecentsEnabled s) (recentsListMaxLength s) (openWithMaxLength s) (actionLibrary s) (actionCloneLibrary s) (menuCloneLibrary s) (recentsSaveTimer s) (actions s) v (settings s) (saverecents s) (disk s) (emitted s).
Definition with_settings (v : gmap QString QVariant) (s : State) : State :=
  mkState (recentsList s) (isSaveRecentsEnabled s) (recentsListMaxLength s) (openWithMaxLength s) (actionLibrary s) (actionCloneLibrary s) (menuCloneLibrary s) (recentsSaveTimer s) (actions s) (menus s) v (saverecents s) (disk s) (emitted s).
Definition with_disk (v : gset QString) (s : State) : State :=
  mkState (recentsList s) (isSaveRecentsEnabled s) (recentsListMaxLength s) (openWithMaxLength s) (actionLibrary s) (actionCloneLibrary s) (menuCloneLibrary s) (recentsSaveTimer s) (actions s) (menus s) (settings s) (saverecents s) v (emitted s).
Definition with_emitted (v : list Signal) (s : State) : State :=
  mkState (recentsList s) (isSaveRecentsEnabled s) (recentsListMaxLength s) (openWithMaxLength s) (actionLibrary s) (actionCloneLibrary s) (menuCloneLibrary s) (recentsSaveTimer s) (actions s) (menus s) (settings s) (saverecents s) (disk s) v.

(** The key under which [QSettings] keeps the list, after
    [beginGroup("recents")]. *)
Definition recentFilesKey : QString := "recents/recentFiles".

(** [new QAction(...)]: a location the heap does not hold yet. *)
Definition newLoc (s : State) : loc := fresh (dom (actions s)).

Definition allocAction (a : QAction) (s : State) : loc * State :=
  let p := newLoc s in (p, with_actions (<[p := a]> (actions s)) s).

(** A setter called through a pointer. The libraries hold locations of
    live actions only; on a location the heap does not hold the call is
    outside the model and leaves the heap as it is. *)
Definition onAction (p : loc) (f : QAction -> QAction) (s : State) : State :=
  with_actions (alter f p (actions s)) s.

Definition emit (sg : Signal) (s : State) : State :=
  with_emitted (emitted s ++ [sg]) s.

Definition fileExists (s : State) (path : QString) : bool :=
  bool_decide (path ∈ disk s).

(** [getAction], lines 72-78. *)
Definition getAction (key : QString) (s : State) : option loc :=
  match actionLibrary s !! key with
  | Some action => Some action
  | None => None
  end.

(** [getAllClonesOfAction(key)], lines 90-93. *)
Definition getAllClonesOfAction (key : QString) (s : State) : list loc :=
  QMultiHash.values (actionCloneLibrary s) key.

(** [getAllInstancesOfAction], lines 80-88. *)
Definition getAllInstancesOfAction (key : QString) (s : State) : list loc :=
  let listOfActions := getAllClonesOfAction key s in
  match getAction key s with
  | Some mainAction => listOfActions ++ [mainAction]
  | None => listOfActions
  end.

(** [hideAllInstancesOfAction], lines 168-175. *)
Definition hideAllInstancesOfAction (key : QString) (s : State) : State :=
  foldl (fun s action => onAction action (setVisible false) s) s
        (getAllInstancesOfAction key s).

(** [cloneAction], lines 53-70. The result is [None] when the canonical
    action is read through a location the heap does not hold. *)
Definition cloneAction (key : QString) (s : State) : option (option loc * State) :=
  match getAction key s with
  | Some action =>
      a ← actions s !! action;
      let newAction :=
        setVisible (visible a)
          (setShortcuts (shortcuts a)
            (setEnabled (enabled a)
              (setMenuRole (menuRole a)
                (setText (text a)
                  (setData (data a)
                    (setIcon (icon a) (newQAction NullIcon ""))))))) in
      let '(p, s1) := allocAction newAction s in
      Some (Some p,
            with_actionCloneLibrary
              (QMultiHash.insert key p (actionCloneLibrary s1)) s1)
  | None => Some (None, s)
  end.

Section manager.
Context `{Build} `{RecentsCodec}.

(** The icon [updateRecentsMenu] gives a slot, lines 445-454. *)
Definition recentIcon (path : QString) : QIcon :=
  match os with
  | Linux => MimeIcon path
  | _ => ProviderIcon path
  end.

(** The body of the inner loop of [updateRecentsMenu], lines 437-460,
    on one action of slot [i]. *)
Definition updateRecentAction (l : list SRecent) (i : nat) (a : QAction) : QAction :=
  if bool_decide (i < length l)%nat then
    let recent := QList.value emptyRecent l i in
    setIcon (recentIcon (filePath recent))
      (setText (fileName recent) (setVisible true a))
  else
    setText (tr "Empty") (setVisible false a).

Definition recentKey (i : nat) : QString := "recent" +:+ number (Z.of_nat i).

(** One round of the outer loop of [updateRecentsMenu]. *)
Definition updateRecentSlot (s : State) (i : nat) : State :=
  foldl (fun s action => onAction action (updateRecentAction (recentsList s) i) s)
        s (QMultiHash.values (actionCloneLibrary s) (recentKey i)).

(** [updateRecentsMenu], lines 430-464. *)
Definition updateRecentsMenu (s : State) : State :=
  emit recentsMenuUpdated
    (foldl updateRecentSlot s (seq 0 (Z.to_nat (recentsListMaxLength s)))).

(** [auditRecentsList], lines 385-422. *)
Definition auditRecentsList (s : State) : State :=
  updateRecentsMenu
    (with_recentsList
       (auditList (fileExists s) (isSaveRecentsEnabled s)
                  (recentsListMaxLength s) (recentsList s)) s).

(** [saveRecentsList], lines 365-375. *)
Definition saveRecentsList (s : State) : State :=
  let s1 := auditRecentsList s in
  let variantList := recentsListToVariantList (recentsList s1) in
  with_settings (<[recentFilesKey := VList variantList]> (settings s1)) s1.

(** [loadRecentsList], lines 350-363. *)
Definition loadRecentsList (s : State) : State :=
  if isActive (recentsSaveTimer s) then s
  else
    let variantListRecents :=
      Variant.toList (default VInvalid (settings s !! recentFilesKey)) in
    auditRecentsList
      (with_recentsList (variantListToRecentsList variantListRecents) s).

(** [addFileToRecentsList], lines 378-383; [file] stands for the
    [QFileInfo] through its [fileName()] and [filePath()]. *)
Definition addFileToRecentsList (file : SRecent) (s : State) : State :=
  let s1 := with_recentsList
              (QList.prepend (mkSRecent (fileName file) (filePath file))
                             (recentsList s)) s in
  let s2 := auditRecentsList s1 in
  with_recentsSaveTimer (start (recentsSaveTimer s2)) s2.

(** [clearRecentsList], lines 424-428. *)
Definition clearRecentsList (s : State) : State :=
  saveRecentsList (with_recentsList [] s).

(** [settingsUpdated], lines 40-51. *)
Definition settingsUpdated (s : State) : State :=
  let s1 := with_isSaveRecentsEnabled (saverecents s) s in
  let recentsMenus := QMultiHash.values (menuCloneLibrary s1) "recents" in
  let s2 :=
    foldl (fun s recentsMenu =>
             match menus s !! recentsMenu with
             | Some m => onAction (menuAction m)
                           (setVisible (isSaveRecentsEnabled s)) s
             | None => s
             end) s1 recentsMenus in
  if negb (isSaveRecentsEnabled s2) then clearRecentsList s2 else s2.

(** The slot a signal of this file is connected to. *)
Definition runSlot (sl : Slot) (s : State) : State :=
  match sl with
  | SlotLoadRecentsList => loadRecentsList s
  | SlotSaveRecentsList => saveRecentsList s
  | SlotSettingsUpdated => settingsUpdated s
  end.

(** The save timer runs out: a single-shot timer stops, then the slots
    connected to [timeout] run. Nothing happens on a stopped timer. *)
Definition recentsSaveTimerFires (s : State) : State :=
  let t := recentsSaveTimer s in
  if isActive t then
    let t' := mkQTimer (singleShot t) (interval t)
                       (negb (singleShot t)) (timeout t) in
    foldl (fun s sl => runSlot sl s) (with_recentsSaveTimer t' s) (timeout t)
  else s.
End manager.

(** ** Building the recents menu *)

(** [new QMenu(title, parent)]: the menu and its [menuAction()]. *)
Definition newQMenu (title : QString) (s : State) : loc * State :=
  let '(ma, s1) := allocAction (newQAction NullIcon title) s in
  let m := fresh (dom (menus s1)) in
  (m, with_menus (<[m := mkQMenu ma [] []]> (menus s1)) s1).

Definition onMenu (m : loc) (f : QMenu -> QMenu) (s : State) : State :=
  with_menus (alter f m (menus s)) s.

(** [QWidget::addAction]: a null action is not inserted. *)
Definition addAction (m : loc) (a : option loc) (s : State) : State :=
  match a with
  | Some p => onMenu m (addItem (ItemAction p)) s
  | None => s
  end.

(** The action a recents slot starts as, lines 328-331. *)
Definition newRecentAction (i : nat) : QAction :=
  setData (VString ("recent" +:+ number (Z.of_nat i)))
    (setIconVisibleInMenu true
      (setVisible false (newQAction NullIcon (tr "Empty")))).

(** One round of the loop of [buildRecentsMenu], lines 328-334. The
    result is [None] when [first()] is taken of an empty list. *)
Definition buildRecentSlot (recentsMenu : loc) (s : State) (i : nat) : option State :=
  let '(action, s1) := allocAction (newRecentAction i) s in
  let s2 := addAction recentsMenu (Some action) s1 in
  key ← head (Variant.toStringList (data (newRecentAction i)));
  Some (with_actionCloneLibrary
          (QMultiHash.insert key action (actionCloneLibrary s2)) s2).

(** A [for] loop whose body can fail. *)
Fixpoint forEach {X : Type} (body : State -> X -> option State) (s : State)
    (l : list X) : option State :=
  match l with
  | [] => Some s
  | x :: l' => s' ← body s x; forEach body s' l'
  end.

Section menus.
Context `{Build} `{RecentsCodec}.

(** [buildRecentsMenu], lines 316-348. *)
Definition buildRecentsMenu (includeClearAction : bool) (s : State)
    : option (loc * State) :=
  let '(recentsMenu, s1) := newQMenu (tr "Open &Recent") s in
  m ← menus s1 !! recentsMenu;
  let s2 := onAction (menuAction m) (setData (VString "recents")) s1 in
  let s3 := onAction (menuAction m)
              (setIcon (fromTheme "document-open-recent")) s2 in
  let s4 := onMenu recentsMenu (connectAboutToShow SlotLoadRecentsList) s3 in
  s5 ← forEach (buildRecentSlot recentsMenu) s4
         (seq 0 (Z.to_nat (recentsListMaxLength s4)));
  s6 ← (if includeClearAction then
          let s5' := onMenu recentsMenu (addItem ItemSeparator) s5 in
          '(clone, s5'') ← cloneAction "clearrecents" s5';
          Some (addAction recentsMenu clone s5'')
        else Some s5);
  ma ← actions s6 !! menuAction m;
  let s7 := with_menuCloneLibrary
              (QMultiHash.insert (Variant.toString (data ma)) recentsMenu
                                 (menuCloneLibrary s6)) s6 in
  Some (recentsMenu, settingsUpdated (updateRecentsMenu s7)).
End menus.

(** ** The action library *)

(** [QString::contains(sub)]. *)
Definition contains (sub s : QString) : bool :=
  match String.index 0 sub s with Some _ => true | None => false end.

Section library.
Context `{Build}.

Definition onWindows (t : QString) (a : QAction) : QAction :=
  match os with Windows => setText (tr t) a | _ => a end.
Definition onMacOS (t : QString) (a : QAction) : QAction :=
  match os with MacOS => setText (tr t) a | _ => a end.
Definition onLinux (t : QString) (a : QAction) : QAction :=
  match os with Linux => setText (tr t) a | _ => a end.

Definition themed (name t : QString) : QAction := newQAction (fromTheme name) (tr t).
Definition disable (what : QString) (a : QAction) : QAction := setData (VString what) a.

(** The actions of [initializeActionLibrary], lines 656-833, each as it
    is when it is inserted under its key. *)
Definition libraryActions : list (QString * QAction) :=
  [ ("quit", onWindows "Exit" (themed "application-exit" "&Quit"));
    ("newwindow", themed "window-new" "New Window");
    ("open", themed "document-open" "&Open...");
    ("openurl",
      newQAction (ThemeIcon "document-open-remote" (fromTheme "folder-remote"))
                 (tr "Open &URL..."));
    ("closewindow", themed "window-close" "Close Window");
    ("closeallwindows", themed "window-close" "Close All");
    ("opencontainingfolder",
      disable "disable"
        (onMacOS "Show in &Finder"
          (onWindows "Show in E&xplorer"
            (themed "document-open" "Open Containing &Folder"))));
    ("showfileinfo", disable "disable" (themed "document-properties" "Show File &Info"));
    ("delete",
      disable "disable" (onWindows "&Delete" (themed "edit-delete" "&Move to Trash")));
    ("undo",
      disable "undodisable"
        (onWindows "&Undo Delete" (themed "edit-undo" "&Restore from Trash")));
    ("copy", disable "disable" (themed "edit-copy" "&Copy"));
    ("paste", themed "edit-paste" "&Paste");
    ("rename",
      disable "disable"
        (newQAction (ThemeIcon "edit-rename" (fromTheme "document-properties"))
                    (tr "R&ename...")));
    ("zoomin", disable "disable" (themed "zoom-in" "Zoom &In"));
    ("zoomout", disable "disable" (themed "zoom-out" "Zoom &Out"));
    ("resetzoom", disable "disable" (themed "zoom-fit-best" "Reset &Zoom"));
    ("originalsize", disable "disable" (themed "zoom-original" "Ori&ginal Size"));
    ("rotateright", disable "disable" (themed "object-rotate-right" "Rotate &Right"));
    ("rotateleft", disable "disable" (themed "object-rotate-left" "Rotate &Left"));
    ("mirror", disable "disable" (themed "object-flip-horizontal" "&Mirror"));
    ("flip", disable "disable" (themed "object-flip-vertical" "&Flip"));
    ("fullscreen", setMenuRole NoRole (themed "view-fullscreen" "Enter F&ull Screen"));
    ("firstfile", disable "folderdisable" (themed "go-first" "&First File"));
    ("previousfile", disable "folderdisable" (themed "go-previous" "Previous Fi&le"));
    ("nextfile", disable "folderdisable" (themed "go-next" "&Next File"));
    ("lastfile", disable "folderdisable" (themed "go-last" "Las&t File"));
    ("saveframeas", disable "gifdisable" (themed "document-save-as" "Save Frame &As..."));
    ("pause", disable "gifdisable" (themed "media-playback-pause" "Pa&use"));
    ("nextframe", disable "gifdisable" (themed "media-skip-forward" "&Next Frame"));
    ("decreasespeed", disable "gifdisable" (themed "media-seek-backward" "&Decrease Speed"));
    ("resetspeed", disable "gifdisable" (themed "media-playback-start" "&Reset Speed"));
    ("increasespeed", disable "gifdisable" (themed "media-skip-forward" "&Increase Speed"));
    ("slideshow", disable "disable" (themed "media-playback-start" "Start S&lideshow"));
    ("options",
      onMacOS "Preference&s..."
        (onLinux "Preference&s"
          (newQAction (ThemeIcon "configure" (fromTheme "preferences-other"))
                      (tr "Option&s"))));
    ("about", onMacOS "&About qView" (themed "help-about" "&About"));
    ("welcome",
      newQAction (ThemeIcon "help-faq" (fromTheme "help-about")) (tr "&Welcome"));
    ("clearrecents", themed "edit-delete" "Clear &Menu");
    ("openwithother",
      onMacOS "Other..."
        (onWindows "Choose another app"
          (newQAction NullIcon (tr "Other Application...")))) ].

(** The body of the closing loop, lines 839-845, on the action of [key]. *)
Definition keyAction (key : QString) (value : QAction) : QAction :=
  let data := key :: Variant.toStringList (data value) in
  let value := setData (VStringList data) value in
  if contains "disable" (List.last data "") then setEnabled false value else value.

(** [initializeActionLibrary], lines 654-847. *)
Definition initializeActionLibrary (s : State) : State :=
  let s1 :=
    foldl (fun s '(key, a) =>
             let '(p, s') := allocAction a s in
             with_actionLibrary (<[key := p]> (actionLibrary s')) s')
          s libraryActions in
  foldl (fun s key =>
           match actionLibrary s !! key with
           | Some value => onAction value (keyAction key) s
           | None => s
           end)
        s1 (elements (dom (actionLibrary s1))).
End library.

Section construction.
Context `{Build} `{RecentsCodec}.

(** The constructor, lines 10-31, on the object before construction:
    its containers are empty, [isSaveRecentsEnabled] holds whatever
    [s0] holds. The window menu of a [COCOA_LOADED] build is left out. *)
Definition ActionManager (s0 : State) : State :=
  let s := with_recentsList []
             (with_actionLibrary ∅
               (with_actionCloneLibrary ∅
                 (with_menuCloneLibrary ∅ s0))) in
  let s := with_recentsListMaxLength 10 s in
  let s := with_openWithMaxLength 10 s in
  let s := initializeActionLibrary s in
  let s := with_recentsSaveTimer newQTimer s in
  let s := with_recentsSaveTimer (setSingleShot true (recentsSaveTimer s)) s in
  let s := with_recentsSaveTimer (setInterval 500 (recentsSaveTimer s)) s in
  let s := with_recentsSaveTimer
             (connectTimeout SlotSaveRecentsList (recentsSaveTimer s)) s in
  loadRecentsList s.
End construction.

(** ** Dispatch of triggered actions *)

(** A [MainWindow] and a top-level [QWindow], by identity. *)
Definition MainWindow := nat.
Definition QWindow := nat.

(** The methods of [MainWindow] the dispatch calls. *)
Inductive WindowMethod :=
  | close | openRecent (i : Z) | openWith (openWithItem : QVariant) | pickUrl
  | openContainingFolder | showFileInfo | askDeleteFile | undoDelete
  | copy | paste | rename | zoomIn | zoomOut | resetZoom | originalSize
  | rotateRight | rotateLeft | mirror | flip | toggleFullScreen
  | firstFile | previousFile | nextFile | lastFile | saveFrameAs | pause
  | nextFrame | decreaseSpeed | resetSpeed | increaseSpeed | toggleSlideshow.

(** What the dispatch calls, in the order of the calls. *)
Inductive Call :=
  | getMainWindowCall (shouldBeEmpty : bool)
  | quit
  | newWindow
  | pickFile (w : option MainWindow)
  | openOptionsDialog (w : option MainWindow)
  | openAboutDialog (w : option MainWindow)
  | openWelcomeDialog (w : option MainWindow)
  | clearRecentsListCall
  | cocoaCloseActiveWindow
  | closeActiveWindow
  | cocoaCloseWindow (w : QWindow)
  | closeWindow (w : QWindow)
  | showOpenWithDialog (w : MainWindow)
  | onWindow (w : MainWindow) (m : WindowMethod).

(** The application the dispatch runs in: [qvApp->getMainWindow] and
    [QApplication::topLevelWindows]. *)
Class Application := {
  getMainWindow : bool -> option MainWindow;
  topLevelWindows : list QWindow
}.

(** [QString::startsWith]. *)
Definition startsWith (s p : QString) : bool := String.prefix p s.

(** [QChar::digitValue()] on the characters a key is made of. *)
Definition digitValue (c : ascii) : Z :=
  let n := Z.of_nat (nat_of_ascii c) in
  if bool_decide (48 <= n <= 57) then n - 48 else -1.

(** [key.at(key.length()-1)]. *)
Definition finalChar (key : QString) : option ascii :=
  String.get (String.length key - 1) key.

Section dispatch.
Context `{Build} `{Application}.

(** The calls that work with a null window, lines 542-580. *)
Definition windowlessPart (key : QString) (relevantWindow : option MainWindow)
    : list Call :=
  let quitCalls :=
    match relevantWindow with
    | Some w => [onWindow w close; quit]
    | None => [quit]
    end in
  if String.eqb key "quit" then quitCalls
  else if String.eqb key "newwindow" then [newWindow]
  else if String.eqb key "open" then [pickFile relevantWindow]
  else if String.eqb key "quit" then quitCalls
  else if String.eqb key "newwindow" then [newWindow]
  else if String.eqb key "open" then [pickFile relevantWindow]
  else if String.eqb key "closewindow" then
    if cocoaLoaded then [cocoaCloseActiveWindow; closeActiveWindow]
    else [closeActiveWindow]
  else if String.eqb key "closeallwindows" then
    topLevelWindows ≫= (fun window =>
      if cocoaLoaded then [cocoaCloseWindow window; closeWindow window]
      else [closeWindow window])
  else if String.eqb key "options" then [openOptionsDialog relevantWindow]
  else if String.eqb key "about" then [openAboutDialog relevantWindow]
  else if String.eqb key "welcome" then [openWelcomeDialog relevantWindow]
  else if String.eqb key "clearrecents" then [clearRecentsListCall]
  else [].

(** The calls that need a window, lines 587-651. The result is [None]
    where the code reads past the end of a string or a list. *)
Definition windowPart (triggeredAction : QAction) (key : QString)
    (w : MainWindow) : option (list Call) :=
  let method m := Some [onWindow w m] in
  if startsWith key "recent" then
    c ← finalChar key; method (openRecent (digitValue c))
  else if String.eqb key "openwithother" then Some [showOpenWithDialog w]
  else if startsWith key "openwith" then
    openWithItem ← Variant.toList (data triggeredAction) !! 1%nat;
    method (openWith openWithItem)
  else if String.eqb key "openurl" then method pickUrl
  else if String.eqb key "opencontainingfolder" then method openContainingFolder
  else if String.eqb key "showfileinfo" then method showFileInfo
  else if String.eqb key "delete" then method askDeleteFile
  else if String.eqb key "undo" then method undoDelete
  else if String.eqb key "copy" then method copy
  else if String.eqb key "paste" then method paste
  else if String.eqb key "rename" then method rename
  else if String.eqb key "zoomin" then method zoomIn
  else if String.eqb key "zoomout" then method zoomOut
  else if String.eqb key "resetzoom" then method resetZoom
  else if String.eqb key "originalsize" then method originalSize
  else if String.eqb key "rotateright" then method rotateRight
  else if String.eqb key "rotateleft" then method rotateLeft
  else if String.eqb key "mirror" then method mirror
  else if String.eqb key "flip" then method flip
  else if String.eqb key "fullscreen" then method toggleFullScreen
  else if String.eqb key "firstfile" then method firstFile
  else if String.eqb key "previousfile" then method previousFile
  else if String.eqb key "nextfile" then method nextFile
  else if String.eqb key "lastfile" then method lastFile
  else if String.eqb key "saveframeas" then method saveFrameAs
  else if String.eqb key "pause" then method pause
  else if String.eqb key "nextframe" then method nextFrame
  else if String.eqb key "decreasespeed" then method decreaseSpeed
  else if String.eqb key "resetspeed" then method resetSpeed
  else if String.eqb key "increasespeed" then method increaseSpeed
  else if String.eqb key "slideshow" then method toggleSlideshow
  else Some [].

(** [actionTriggered] with a window, lines 537-652. The result
    is [None] when [first()] is taken of an empty data list. *)
Definition actionTriggeredIn (triggeredAction : QAction)
    (relevantWindow : option MainWindow) : option (list Call) :=
  key ← head (Variant.toStringList (data triggeredAction));
  let calls := windowlessPart key relevantWindow in
  match relevantWindow with
  | None => Some calls
  | Some w => (calls ++.) <$> windowPart triggeredAction key w
  end.

(** The keys dispatched without a window, lines 514-517. *)
Definition windowlessActions : list QString :=
  ["newwindow"; "quit"; "clearrecents"; "open"]
  ++ match os with MacOS => ["about"; "welcome"; "options"] | _ => [] end.

(** [actionTriggered] of the action alone, lines 509-535. *)
Definition actionTriggered (triggeredAction : QAction) : option (list Call) :=
  key ← head (Variant.toStringList (data triggeredAction));
  if existsb (fun actionName => String.eqb key actionName) windowlessActions
  then actionTriggeredIn triggeredAction None
  else
    let shouldBeEmpty :=
      if startsWith key "recent" || String.eqb key "openurl" then true else false in
    match getMainWindow shouldBeEmpty with
    | Some window =>
        (getMainWindowCall shouldBeEmpty ::.)
          <$> actionTriggeredIn triggeredAction (Some window)
    | None => Some [getMainWindowCall shouldBeEmpty]
    end.
End dispatch.

(** ** Notions the statements use *)

(** [s'] differs from [s] in the action heap only. *)
Definition onlyActions (s s' : State) : Prop := s' = with_actions (actions s') s.

(** [s'] has the libraries of [s] and every action of [s]. *)
Definition keepsLibraries (s s' : State) : Prop :=
  actionCloneLibrary s' = actionCloneLibrary s
  /\ actionLibrary s' = actionLibrary s
  /\ dom (actions s) ⊆ dom (actions s').

(** Every action of the action library is a live action. *)
Definition libraryLive (s : State) : Prop :=
  forall (key : QString) (p : loc),
    actionLibrary s !! key = Some p -> is_Some (actions s !! p).

(** Every registered clone is a live action. *)
Definition clonesLive (s : State) : Prop :=
  forall (key : QString) (p : loc),
    p ∈ getAllClonesOfAction key s -> is_Some (actions s !! p).

(** No action is registered under two recents slots. *)
Definition slotsSeparate (s : State) : Prop :=
  forall (i j : nat) (p : loc),
    p ∈ getAllClonesOfAction (recentKey i) s ->
    p ∈ getAllClonesOfAction (recentKey j) s ->
    i = j.

(** The clone library is in order: clones are live and slots separate. *)
Definition clonesInOrder (s : State) : Prop := clonesLive s /\ slotsSeparate s.

(** [f] applied through each pointer of [l], in order. *)
Definition alterAll (f : QAction -> QAction) (l : list loc)
    (h : gmap loc QAction) : gmap loc QAction :=
  foldl (fun h p => alter f p h) h l.

(** The save timer as the constructor sets it up. *)
Definition saveTimerSetUp (s : State) : Prop :=
  singleShot (recentsSaveTimer s) = true
  /\ interval (recentsSaveTimer s) = 500
  /\ timeout (recentsSaveTimer s) = [SlotSaveRecentsList].

(** The keys that select one method of the window, with the method. *)
Definition windowMethods : list (QString * WindowMethod) :=
  [ ("openurl", pickUrl); ("opencontainingfolder", openContainingFolder);
    ("showfileinfo", showFileInfo); ("delete", askDeleteFile);
    ("undo", undoDelete); ("copy", copy); ("paste", paste);
    ("rename", rename); ("zoomin", zoomIn); ("zoomout", zoomOut);
    ("resetzoom", resetZoom); ("originalsize", originalSize);
    ("rotateright", rotateRight); ("rotateleft", rotateLeft);
    ("mirror", mirror); ("flip", flip); ("fullscreen", toggleFullScreen);
    ("firstfile", firstFile); ("previousfile", previousFile);
    ("nextfile", nextFile); ("lastfile", lastFile);
    ("saveframeas", saveFrameAs); ("pause", pause);
    ("nextframe", nextFrame); ("decreasespeed", decreaseSpeed);
    ("resetspeed", resetSpeed); ("increasespeed", increaseSpeed);
    ("slideshow", toggleSlideshow) ].

(** ** Worked instances *)

Definition linuxBuild : Build := {| os := Linux; cocoaLoaded := false |}.

(** A codec that stores an entry as the string list of its name and
    its path. *)
Definition pairCodec : RecentsCodec := {|
  recentsListToVariantList l :=
    (fun r => VStringList [fileName r; filePath r]) <$> l;
  variantListToRecentsList l :=
    (fun v => mkSRecent (default "" (Variant.toStringList v !! 0%nat))
                        (default "" (Variant.toStringList v !! 1%nat))) <$> l
|}.

(** An object before construction, in a world with an empty disk and
    empty settings in which the saverecents setting is on. *)
Definition blank : State :=
  mkState [] true 0 0 ∅ ∅ ∅ newQTimer ∅ ∅ ∅ true ∅ [].

Definition picture (name : QString) : SRecent := mkSRecent name ("/home/" +:+ name).

(** Two remembered pictures, both gone from the disk. *)
Definition twoMissing : State :=
  with_recentsList [picture "x.png"; picture "y.png"]
    (with_recentsListMaxLength 10 blank).

(** One existing picture remembered five times. *)
Definition fiveCopies : State :=
  with_recentsList (replicate 5 (picture "a.png"))
    (with_disk {[ "/home/a.png" ]} (with_recentsListMaxLength 10 blank)).

(** Settings that hold a list with repeated entries and one picture that
    is gone, read by a manager whose save timer is idle. *)
Definition storedWithRepeats : State :=
  with_settings
    {[ recentFilesKey :=
         VList (@recentsListToVariantList pairCodec
                  [picture "b.png"; picture "a.png"; picture "x.png";
                   picture "a.png"; picture "a.png"]) ]}
    (with_disk {[ "/home/a.png"; "/home/b.png" ]}
       (with_recentsListMaxLength 10 blank)).

(** Twelve existing pictures, all different. *)
Definition twelvePictures : State :=
  let names := (fun i : nat => pretty i +:+ ".png") <$> seq 0 12 in
  with_recentsList (picture <$> names)
    (with_disk (list_to_set ((fun n => "/home/" +:+ n) <$> names))
       (with_recentsListMaxLength 10 blank)).

(** An application with one main window that holds an image, a second
    one that is made when an empty window is asked for, and these two as
    its top-level windows. *)
Definition twoWindows : Application := {|
  getMainWindow shouldBeEmpty := Some (if shouldBeEmpty then 2%nat else 1%nat);
  topLevelWindows := [1%nat; 2%nat]
|}.

(** A manager with its recents menu built, one picture on the disk. *)
Definition withRecentsMenu : State :=
  match @buildRecentsMenu linuxBuild pairCodec true
          (@ActionManager linuxBuild pairCodec
             (with_disk {[ "/home/a.png" ]} blank)) with
  | Some (_, s) => s
  | None => blank
  end.

(** The operations are unfolded where a proof asks for it. *)
#[global] Arguments initializeActionLibrary : simpl never.
#[global] Arguments updateRecentsMenu : simpl never.
#[global] Arguments auditRecentsList : simpl never.
#[global] Arguments saveRecentsList : simpl never.
#[global] Arguments loadRecentsList : simpl never.
#[global] Arguments addFileToRecentsList : simpl never.
#[global] Arguments clearRecentsList : simpl never.
#[global] Arguments settingsUpdated : simpl never.
#[global] Arguments ActionManager : simpl never.
#[global] Arguments auditList : simpl never.

(** ** The view, tools and help menus

    Each builder makes a menu, sets the data and the icon of its menu
    action, adds a clone of a library action or a separator statement by
    statement, and registers the menu in [menuCloneLibrary] under the
    data of its menu action. The [parent] widget is not part of the
    state, as in [buildRecentsMenu]. *)

(** [menu->addAction(cloneAction(key))]. *)
Definition addClone (menu : loc) (key : QString) (s : State) : option State :=
  '(clone, s1) ← cloneAction key s;
  Some (addAction menu clone s1).

(** [menu->addSeparator()]. *)
Definition addSeparator (menu : loc) (s : State) : State :=
  onMenu menu (addItem ItemSeparator) s.

(** [buildViewMenu], lines 256-278. *)
Definition buildViewMenu (addIcon : bool) (s : State) : option (loc * State) :=
  let '(viewMenu, s) := newQMenu (tr "&View") s in
  m ← menus s !! viewMenu;
  let s := onAction (menuAction m) (setData (VString "view")) s in
  let s := if addIcon
           then onAction (menuAction m) (setIcon (fromTheme "zoom-fit-best")) s
           else s in
  s ← addClone viewMenu "zoomin" s;
  s ← addClone viewMenu "zoomout" s;
  s ← addClone viewMenu "resetzoom" s;
  s ← addClone viewMenu "originalsize" s;
  let s := addSeparator viewMenu s in
  s ← addClone viewMenu "rotateright" s;
  s ← addClone viewMenu "rotateleft" s;
  let s := addSeparator viewMenu s in
  s ← addClone viewMenu "mirror" s;
  s ← addClone viewMenu "flip" s;
  let s := addSeparator viewMenu s in
  s ← addClone viewMenu "fullscreen" s;
  ma ← actions s !! menuAction m;
  Some (viewMenu,
        with_menuCloneLibrary
          (QMultiHash.insert (Variant.toString (data ma)) viewMenu
                             (menuCloneLibrary s)) s).

(** [buildToolsMenu], lines 280-300. *)
Definition buildToolsMenu (addIcon : bool) (s : State) : option (loc * State) :=
  let '(toolsMenu, s) := newQMenu (tr "&Tools") s in
  m ← menus s !! toolsMenu;
  let s := onAction (menuAction m) (setData (VString "tools")) s in
  let s := if addIcon
           then onAction (menuAction m)
                  (setIcon (ThemeIcon "configure" (fromTheme "preferences-other"))) s
           else s in
  s ← addClone toolsMenu "saveframeas" s;
  s ← addClone toolsMenu "pause" s;
  s ← addClone toolsMenu "nextframe" s;
  let s := addSeparator toolsMenu s in
  s ← addClone toolsMenu "decreasespeed" s;
  s ← addClone toolsMenu "resetspeed" s;
  s ← addClone toolsMenu "increasespeed" s;
  let s := addSeparator toolsMenu s in
  s ← addClone toolsMenu "slideshow" s;
  s ← addClone toolsMenu "options" s;
  ma ← actions s !! menuAction m;
  Some (toolsMenu,
        with_menuCloneLibrary
          (QMultiHash.insert (Variant.toString (data ma)) toolsMenu
                             (menuCloneLibrary s)) s).

(** [buildHelpMenu], lines 302-314. *)
Definition buildHelpMenu (addIcon : bool) (s : State) : option (loc * State) :=
  let '(helpMenu, s) := newQMenu (tr "&Help") s in
  m ← menus s !! helpMenu;
  let s := onAction (menuAction m) (setData (VString "help")) s in
  let s := if addIcon
           then onAction (menuAction m) (setIcon (fromTheme "help-about")) s
           else s in
  s ← addClone helpMenu "about" s;
  s ← addClone helpMenu "welcome" s;
  ma ← actions s !! menuAction m;
  Some (helpMenu,
        with_menuCloneLibrary
          (QMultiHash.insert (Variant.toString (data ma)) helpMenu
                             (menuCloneLibrary s)) s).

(** ** Further notions the statements use *)

(** Every entry of the list is the entry of an existing file. *)
Definition allExist (s : State) (l : list SRecent) : Prop :=
  Forall (fun recent => fileExists s (filePath recent) = true) l.

(** A codec that reads back what it wrote. *)
Definition codecRoundTrip `{RecentsCodec} : Prop :=
  forall l, variantListToRecentsList (recentsListToVariantList l) = l.

(** The clone [cloneAction] makes of [a], lines 57-64. *)
Definition cloneOf (a : QAction) : QAction :=
  setVisible (visible a)
    (setShortcuts (shortcuts a)
      (setEnabled (enabled a)
        (setMenuRole (menuRole a)
          (setText (text a)
            (setData (data a)
              (setIcon (icon a) (newQAction NullIcon ""))))))).

(** The calls made on a main window. *)
Definition isWindowCall (c : Call) : bool :=
  match c with
  | onWindow _ _ | showOpenWithDialog _ => true
  | _ => false
  end.

(** The keys the dispatch compares the key of an action with. *)
Definition dispatchedKeys : list QString :=
  ["quit"; "newwindow"; "open"; "closewindow"; "closeallwindows"; "options";
   "about"; "welcome"; "clearrecents"; "openwithother"]
  ++ windowMethods.*1.

(** [a'] is the command [a] is: the same data, and so the same key, the
    same shortcuts, menu role and icon-in-menu setting. *)
Definition sameCommand (a a' : QAction) : Prop :=
  data a' = data a /\ shortcuts a' = shortcuts a
  /\ menuRole a' = menuRole a /\ iconVisibleInMenu a' = iconVisibleInMenu a.

(** Every action of [s] is in [s'] the command it was. *)
Definition keepsCommands (s s' : State) : Prop :=
  forall p a, actions s !! p = Some a ->
    exists a', actions s' !! p = Some a' /\ sameCommand a a'.

(** [s'] has the action library of [s] and every action of [s], as it
    was. *)
Definition heapGrows (s s' : State) : Prop :=
  actionLibrary s' = actionLibrary s
  /\ forall q a, actions s !! q = Some a -> actions s' !! q = Some a.

(** The statements of a menu builder as a list: a key stands for
    [addAction(cloneAction(key))], [None] for [addSeparator()]. *)
Definition addEntry (menu : loc) (s : State) (entry : option QString)
    : option State :=
  match entry with
  | Some key => addClone menu key s
  | None => Some (addSeparator menu s)
  end.

(** The common shape of [buildViewMenu], [buildToolsMenu] and
    [buildHelpMenu]; [menuIcon] is [None] where [addIcon] is false. *)
Definition buildMenuFrom (title key : QString) (menuIcon : option QIcon)
    (entries : list (option QString)) (s : State) : option (loc * State) :=
  let '(menu, s) := newQMenu title s in
  m ← menus s !! menu;
  let s := onAction (menuAction m) (setData (VString key)) s in
  let s := match menuIcon with
           | Some i => onAction (menuAction m) (setIcon i) s
           | None => s
           end in
  s ← forEach (addEntry menu) s entries;
  ma ← actions s !! menuAction m;
  Some (menu,
        with_menuCloneLibrary
          (QMultiHash.insert (Variant.toString (data ma)) menu
                             (menuCloneLibrary s)) s).

Definition viewEntries : list (option QString) :=
  [Some "zoomin"; Some "zoomout"; Some "resetzoom"; Some "originalsize"; None;
   Some "rotateright"; Some "rotateleft"; None;
   Some "mirror"; Some "flip"; None;
   Some "fullscreen"].

Definition toolsEntries : list (option QString) :=
  [Some "saveframeas"; Some "pause"; Some "nextframe"; None;
   Some "decreasespeed"; Some "resetspeed"; Some "increasespeed"; None;
   Some "slideshow"; Some "options"].

Definition helpEntries : list (option QString) := [Some "about"; Some "welcome"].

(** The actions among the items of a menu. *)
Definition itemActions (its : list MenuItem) : list loc :=
  omap (fun it => match it with ItemAction c => Some c | ItemSeparator => None end)
       its.

(** What an entry of a builder leaves in the menu: a separator, or an
    action that is new in [s'], registered as a clone of the key of the
    entry, and a copy of the library action of that key. *)
Definition entryBuilt (s s' : State) (entry : option QString) (item : MenuItem)
    : Prop :=
  match entry, item with
  | None, ItemSeparator => True
  | Some key, ItemAction clone =>
      actions s !! clone = None
      /\ clone ∈ getAllClonesOfAction key s'
      /\ exists p a, actionLibrary s !! key = Some p
                     /\ actions s !! p = Some a
                     /\ actions s' !! clone = Some (cloneOf a)
  | _, _ => False
  end.

(** The outcome of a menu builder on [s]: a new menu [menu] in [s'],
    registered first under [key] and under no other key, whose action
    carries the title, the key and the icon, and whose items are what
    [entries] build; the library, the actions and the menus of [s] are
    kept. *)
Definition menuBuilt (title key : QString) (menuIcon : QIcon)
    (entries : list (option QString)) (s : State) (menu : loc) (s' : State)
    : Prop :=
  menus s !! menu = None
  /\ QMultiHash.values (menuCloneLibrary s') key
     = menu :: QMultiHash.values (menuCloneLibrary s) key
  /\ (forall other, other <> key ->
        QMultiHash.values (menuCloneLibrary s') other
        = QMultiHash.values (menuCloneLibrary s) other)
  /\ actionLibrary s' = actionLibrary s
  /\ (forall q a, actions s !! q = Some a -> actions s' !! q = Some a)
  /\ (forall other m, menus s !! other = Some m -> menus s' !! other = Some m)
  /\ exists m,
       menus s' !! menu = Some m
       /\ actions s !! menuAction m = None
       /\ actions s' !! menuAction m
          = Some (setIcon menuIcon (setData (VString key) (newQAction NullIcon title)))
       /\ Forall2 (entryBuilt s s') entries (items m)
       /\ NoDup (itemActions (items m)).

(** What closing every top-level window calls, window by window in the
    order of the list: on a [COCOA_LOADED] build the Cocoa close of the
    window, then its [close()]. *)
Definition closeEach (cocoa : bool) (windows : list QWindow) : list Call :=
  foldr (fun window rest =>
           (if cocoa then [cocoaCloseWindow window] else [])
           ++ closeWindow window :: rest)
        [] windows.

(** ** The loops run to their exit test: the fuel is never what stops them *)

Section audit_list_facts.
Variable fileExists : QString -> bool.

Lemma dedupLoop_length fuel recent i i2 l :
  (length (dedupLoop fuel recent i i2 l) <= length l)%nat.
Proof.
  revert i2 l. induction fuel as [|fuel IH]; intros i2 l; simpl; [lia|].
  case_bool_decide; [|lia].
  case_bool_decide; [apply IH|].
  destruct (SRecent_eqb _ _); [|apply IH].
  etrans; [apply IH|]. unfold QList.removeAt. rewrite length_delete; [lia|].
  by apply lookup_lt_is_Some.
Qed.

Lemma dedupLoop_sublist fuel recent i i2 l :
  dedupLoop fuel recent i i2 l `sublist_of` l.
Proof.
  revert i2 l. induction fuel as [|fuel IH]; intros i2 l; simpl; [done|].
  case_bool_decide; [|done].
  case_bool_decide; [apply IH|].
  destruct (SRecent_eqb _ _); [|apply IH].
  etrans; [apply IH|]. apply sublist_delete.
Qed.

Lemma dedupLoop_fuel f1 f2 recent i i2 l :
  (length l - i2 <= f1)%nat -> (length l - i2 <= f2)%nat ->
  dedupLoop f1 recent i i2 l = dedupLoop f2 recent i i2 l.
Proof.
  revert f2 i2 l. induction f1 as [|f1 IH]; intros f2 i2 l H1 H2.
  - destruct f2; simpl; [done|]. case_bool_decide; [lia|done].
  - destruct f2 as [|f2]; simpl.
    + case_bool_decide; [lia|done].
    + case_bool_decide; [|done].
      case_bool_decide; [apply IH; lia|].
      destruct (SRecent_eqb _ _); [|apply IH; lia].
      assert (length (QList.removeAt l i2) = pred (length l)) as Hl.
      { unfold QList.removeAt. rewrite length_delete; [lia|].
        by apply lookup_lt_is_Some. }
      apply IH; lia.
Qed.

(** At the exit of the duplicate check [i2] has reached the length. *)
Lemma auditStep_length i l :
  (length (auditStep fileExists i l) <= length l)%nat.
Proof.
  unfold auditStep. etrans; [apply dedupLoop_length|].
  destruct (fileExists _); [done|].
  apply sublist_length, sublist_delete.
Qed.

Lemma auditStep_sublist i l : auditStep fileExists i l `sublist_of` l.
Proof.
  unfold auditStep. etrans; [apply dedupLoop_sublist|].
  destruct (fileExists _); [done|]. apply sublist_delete.
Qed.

Lemma auditLoop_fuel f1 f2 i l :
  (length l - i <= f1)%nat -> (length l - i <= f2)%nat ->
  auditLoop fileExists f1 i l = auditLoop fileExists f2 i l.
Proof.
  revert f2 i l. induction f1 as [|f1 IH]; intros f2 i l H1 H2.
  - destruct f2; simpl; [done|]. case_bool_decide; [lia|done].
  - destruct f2 as [|f2]; simpl.
    + case_bool_decide; [lia|done].
    + case_bool_decide; [|done].
      pose proof (auditStep_length i l). apply IH; lia.
Qed.

Lemma auditLoop_sublist fuel i l : auditLoop fileExists fuel i l `sublist_of` l.
Proof.
  revert i l. induction fuel as [|fuel IH]; intros i l; simpl; [done|].
  case_bool_decide; [|done].
  etrans; [apply IH|]. apply auditStep_sublist.
Qed.

(** The eviction loop keeps the first [maxLength] entries. *)
Lemma evictLoop_take fuel maxLength l :
  0 <= maxLength -> (length l <= fuel)%nat ->
  evictLoop fuel maxLength l = take (Z.to_nat maxLength) l.
Proof.
  intros Hmax. revert l. induction fuel as [|fuel IH]; intros l Hl; simpl.
  - destruct l; [by rewrite take_nil|simpl in Hl; lia].
  - case_bool_decide as Hgt.
    + unfold QList.removeLast. rewrite removelast_firstn_len.
      rewrite IH; [|rewrite length_take; lia].
      replace (firstn (pred (length l)) l) with (take (pred (length l)) l) by done.
      rewrite take_take. f_equal. lia.
    + rewrite take_ge; [done|lia].
Qed.

Lemma auditList_sublist enabled maxLength l :
  0 <= maxLength -> auditList fileExists enabled maxLength l `sublist_of` l.
Proof.
  intros Hmax. unfold auditList. rewrite evictLoop_take; [|done|done].
  etrans; [apply sublist_take|]. etrans; [apply auditLoop_sublist|].
  destruct enabled; [done|apply sublist_nil_l].
Qed.
End audit_list_facts.

(** ** What an operation leaves alone *)

Lemma onlyActions_refl s : onlyActions s s.
Proof. by destruct s. Qed.

Lemma onlyActions_trans s1 s2 s3 :
  onlyActions s1 s2 -> onlyActions s2 s3 -> onlyActions s1 s3.
Proof. unfold onlyActions. intros -> ->. by destruct s1. Qed.

Lemma onlyActions_onAction p f s : onlyActions s (onAction p f s).
Proof. by destruct s. Qed.

Lemma onlyActions_foldl {X} (step : State -> X -> State) l s :
  (forall s x, onlyActions s (step s x)) -> onlyActions s (foldl step s l).
Proof.
  intros Hstep. revert s. induction l as [|x l IH]; intros s; simpl.
  - apply onlyActions_refl.
  - eapply onlyActions_trans; [apply Hstep|apply IH].
Qed.

Section manager_facts.
Context `{Build} `{RecentsCodec}.

Lemma updateRecentSlot_onlyActions s i : onlyActions s (updateRecentSlot s i).
Proof.
  unfold updateRecentSlot. apply onlyActions_foldl.
  intros. apply onlyActions_onAction.
Qed.

(** [updateRecentsMenu] changes the action heap and emits its signal. *)
Lemma updateRecentsMenu_frame s :
  updateRecentsMenu s =
    with_emitted (emitted s ++ [recentsMenuUpdated])
      (with_actions (actions (updateRecentsMenu s)) s).
Proof.
  unfold updateRecentsMenu.
  pose proof (onlyActions_foldl updateRecentSlot
                (seq 0 (Z.to_nat (recentsListMaxLength s))) s
                updateRecentSlot_onlyActions) as Hs.
  unfold onlyActions in Hs. rewrite Hs at 1. by destruct s.
Qed.

Lemma auditRecentsList_frame s :
  auditRecentsList s =
    with_emitted (emitted s ++ [recentsMenuUpdated])
      (with_actions (actions (auditRecentsList s))
        (with_recentsList
           (auditList (fileExists s) (isSaveRecentsEnabled s)
                      (recentsListMaxLength s) (recentsList s)) s)).
Proof. unfold auditRecentsList. by rewrite updateRecentsMenu_frame at 1. Qed.

Lemma auditRecentsList_list s :
  recentsList (auditRecentsList s) =
    auditList (fileExists s) (isSaveRecentsEnabled s)
              (recentsListMaxLength s) (recentsList s).
Proof. by rewrite auditRecentsList_frame. Qed.
End manager_facts.

Lemma foldl_inv {X} (P : State -> Prop) (step : State -> X -> State) l s :
  P s -> (forall s x, P s -> P (step s x)) -> P (foldl step s l).
Proof.
  intros Hs Hstep. revert s Hs. induction l as [|x l IH]; intros s Hs; simpl; auto.
Qed.

Lemma auditList_nil fileExists enabled maxLength :
  auditList fileExists enabled maxLength [] = [].
Proof. by destruct enabled. Qed.


Section recents_facts.
Context `{Build} `{RecentsCodec}.

Lemma saveRecentsList_frame s :
  saveRecentsList s =
    with_settings
      (<[recentFilesKey :=
           VList (recentsListToVariantList (recentsList (auditRecentsList s)))]>
         (settings s))
      (auditRecentsList s).
Proof. unfold saveRecentsList. by rewrite auditRecentsList_frame at 2. Qed.

Lemma settingsUpdated_menus_onlyActions s l :
  onlyActions s
    (foldl (fun s recentsMenu =>
              match menus s !! recentsMenu with
              | Some m => onAction (menuAction m)
                            (setVisible (isSaveRecentsEnabled s)) s
              | None => s
              end) s l).
Proof.
  apply onlyActions_foldl. intros s' x.
  destruct (menus s' !! x); [apply onlyActions_onAction|apply onlyActions_refl].
Qed.

Lemma initializeActionLibrary_maxLength s :
  recentsListMaxLength (initializeActionLibrary s) = recentsListMaxLength s.
Proof.
  unfold initializeActionLibrary.
  apply (foldl_inv (fun s' => recentsListMaxLength s' = recentsListMaxLength s)).
  - apply (foldl_inv (fun s' => recentsListMaxLength s' = recentsListMaxLength s));
      [done|]. by intros s' [key a] Hs'.
  - intros s' key Hs'. by destruct (actionLibrary s' !! key).
Qed.

Lemma loadRecentsList_maxLength s :
  recentsListMaxLength (loadRecentsList s) = recentsListMaxLength s.
Proof.
  unfold loadRecentsList. destruct (isActive _); [done|].
  by rewrite auditRecentsList_frame.
Qed.

Lemma loadRecentsList_timer s :
  recentsSaveTimer (loadRecentsList s) = recentsSaveTimer s.
Proof.
  unfold loadRecentsList. destruct (isActive _); [done|].
  by rewrite auditRecentsList_frame.
Qed.

Lemma ActionManager_maxLength s0 : recentsListMaxLength (ActionManager s0) = 10.
Proof.
  unfold ActionManager. cbv zeta.
  match goal with
  | |- context [initializeActionLibrary ?X] =>
      pose proof (initializeActionLibrary_maxLength X) as Hinit;
      generalize dependent (initializeActionLibrary X)
  end.
  intros s Hinit. rewrite loadRecentsList_maxLength. exact Hinit.
Qed.

Lemma ActionManager_timer s0 :
  recentsSaveTimer (ActionManager s0) = mkQTimer true 500 false [SlotSaveRecentsList].
Proof.
  unfold ActionManager. cbv zeta.
  match goal with
  | |- context [initializeActionLibrary ?X] =>
      generalize (initializeActionLibrary X)
  end.
  intros s. by rewrite loadRecentsList_timer.
Qed.
End recents_facts.

(** ** The recents list *)

(** C1: the audit does not leave only existing files. With two remembered
    pictures that are both gone from the disk, the check at index 0
    removes the first, the second moves to index 0 and is never looked
    at: it stays in the list after [auditRecentsList]. *)
Theorem audit_keeps_missing_file `{Build} :
  let s := auditRecentsList twoMissing in
  recentsList s = [picture "y.png"]
  /\ fileExists s (filePath (picture "y.png")) = false.
Proof.
  cbv zeta. rewrite auditRecentsList_frame. split; by vm_compute.
Qed.

(** C2: the audit does not leave the list free of duplicates. With one
    existing picture remembered five times, two equal entries are left
    at the positions 0 and 1 after [auditRecentsList]. *)
Theorem audit_keeps_duplicate `{Build} :
  let s := auditRecentsList fiveCopies in
  recentsList s = [picture "a.png"; picture "a.png"]
  /\ fileExists s (filePath (picture "a.png")) = true.
Proof.
  cbv zeta. rewrite auditRecentsList_frame. split; by vm_compute.
Qed.

(** C3: after [auditRecentsList] the recents list is the first
    [recentsListMaxLength] entries of what the existence and duplicate
    checks left, so it is at most that long and what is dropped is
    dropped from the tail; the constructor sets the bound to 10 and the
    audit leaves it as it is. *)
Theorem auditRecentsList_bounded `{Build} `{RecentsCodec} (s0 s : State) :
  recentsListMaxLength (ActionManager s0) = 10
  /\ (0 <= recentsListMaxLength s ->
      let l0 := if isSaveRecentsEnabled s then recentsList s else [] in
      let checked := auditLoop (fileExists s) (length l0) 0 l0 in
      recentsList (auditRecentsList s)
        = take (Z.to_nat (recentsListMaxLength s)) checked
      /\ Z.of_nat (length (recentsList (auditRecentsList s)))
           <= recentsListMaxLength s
      /\ recentsListMaxLength (auditRecentsList s) = recentsListMaxLength s).
Proof.
  split; [apply ActionManager_maxLength|]. intros Hmax l0 checked.
  rewrite auditRecentsList_list. unfold auditList. fold l0. fold checked.
  rewrite evictLoop_take by done. split_and!.
  - done.
  - rewrite length_take. lia.
  - by rewrite auditRecentsList_frame.
Qed.

Lemma auditRecentsList_bounded_witness :
  0 <= recentsListMaxLength twelvePictures
  /\ length (recentsList twelvePictures) = 12%nat
  /\ recentsList (@auditRecentsList linuxBuild twelvePictures)
     = take 10 (recentsList twelvePictures).
Proof.
  split; [by vm_compute|]. split; [done|].
  destruct (@auditRecentsList_bounded linuxBuild pairCodec blank twelvePictures)
    as [_ Hb].
  destruct (Hb ltac:(by vm_compute)) as [-> _]. by vm_compute.
Defined.

(** C4: [addFileToRecentsList] does not always leave the file at the
    front. A manager reads a stored list with repeated entries and is
    left with b, a, a; opening the existing picture a then leaves b
    alone in the list: the duplicate check at index 2 removes the entry
    at index 0 and then the entry it is looking at. *)
Theorem addFile_drops_the_file :
  let s := @loadRecentsList linuxBuild pairCodec storedWithRepeats in
  let a := picture "a.png" in
  recentsList s = [picture "b.png"; a; a]
  /\ fileExists s (filePath a) = true
  /\ isSaveRecentsEnabled s = true
  /\ recentsList (@addFileToRecentsList linuxBuild a s) = [picture "b.png"].
Proof. by vm_compute. Qed.

(** ** Persistence of the recents list *)

Section persistence_facts.
Context `{Build} `{RecentsCodec}.

Lemma addFileToRecentsList_frame file s :
  addFileToRecentsList file s =
    with_recentsSaveTimer (start (recentsSaveTimer s))
      (auditRecentsList
         (with_recentsList
            (mkSRecent (fileName file) (filePath file) :: recentsList s) s)).
Proof.
  unfold addFileToRecentsList. cbv zeta. f_equal.
  by rewrite auditRecentsList_frame.
Qed.

Lemma saveRecentsList_list s :
  recentsList (saveRecentsList s) = recentsList (auditRecentsList s).
Proof. by rewrite saveRecentsList_frame. Qed.

Lemma saveRecentsList_timer s :
  recentsSaveTimer (saveRecentsList s) = recentsSaveTimer s.
Proof. rewrite saveRecentsList_frame. by rewrite auditRecentsList_frame. Qed.

Lemma saveRecentsList_settings s :
  settings (saveRecentsList s) =
    <[recentFilesKey :=
        VList (recentsListToVariantList (recentsList (saveRecentsList s)))]>
      (settings s).
Proof.
  rewrite saveRecentsList_list. rewrite saveRecentsList_frame at 1.
  by rewrite auditRecentsList_frame at 2.
Qed.

Lemma ActionManager_saveTimerSetUp s0 : saveTimerSetUp (ActionManager s0).
Proof. unfold saveTimerSetUp. by rewrite ActionManager_timer. Qed.
End persistence_facts.

(** C5: [addFileToRecentsList] leaves the settings as they are and
    starts the save timer, which the constructor made single-shot with an
    interval of 500 ms and connected to [saveRecentsList]; when the timer
    runs out it stops and [saveRecentsList] writes the list, as audited
    then, under the recentFiles key. *)
Theorem addFileToRecentsList_defers_save `{Build} `{RecentsCodec}
    (s0 s : State) (file : SRecent) :
  saveTimerSetUp (ActionManager s0)
  /\ (saveTimerSetUp s ->
      let s' := addFileToRecentsList file s in
      let s'' := recentsSaveTimerFires s' in
      settings s' = settings s
      /\ recentsSaveTimer s' = start (recentsSaveTimer s)
      /\ saveTimerSetUp s'
      /\ s'' = saveRecentsList
                 (with_recentsSaveTimer
                    (mkQTimer true 500 false [SlotSaveRecentsList]) s')
      /\ settings s'' !! recentFilesKey
         = Some (VList (recentsListToVariantList (recentsList s'')))
      /\ isActive (recentsSaveTimer s'') = false).
Proof.
  split; [apply ActionManager_saveTimerSetUp|].
  intros (Hsingle & Hinterval & Hslots) s' s''.
  assert (recentsSaveTimer s' = start (recentsSaveTimer s)) as Htimer.
  { unfold s'. by rewrite addFileToRecentsList_frame. }
  assert (s'' = saveRecentsList
                  (with_recentsSaveTimer
                     (mkQTimer true 500 false [SlotSaveRecentsList]) s')) as Hfires.
  { unfold s'', recentsSaveTimerFires. rewrite Htimer.
    cbn [isActive start singleShot interval timeout].
    by rewrite Hsingle, Hinterval, Hslots. }
  split_and!.
  - unfold s'. rewrite addFileToRecentsList_frame.
    by rewrite auditRecentsList_frame.
  - done.
  - unfold saveTimerSetUp. by rewrite Htimer.
  - done.
  - rewrite Hfires, saveRecentsList_settings. apply lookup_insert_eq.
  - by rewrite Hfires, saveRecentsList_timer.
Qed.

Lemma addFileToRecentsList_defers_save_witness :
  let s := @ActionManager linuxBuild pairCodec blank in
  let s' := @addFileToRecentsList linuxBuild (picture "a.png") s in
  saveTimerSetUp s
  /\ settings s' = settings s
  /\ settings (@recentsSaveTimerFires linuxBuild pairCodec s') !! recentFilesKey
     = Some (VList []).
Proof.
  intros s s'.
  assert (saveTimerSetUp s) as Hset by by vm_compute.
  destruct (@addFileToRecentsList_defers_save linuxBuild pairCodec
              blank s (picture "a.png")) as [_ Hadd].
  split; [exact Hset|].
  destruct (Hadd Hset) as (Hsettings & _ & _ & _ & Hwritten & _).
  split; [exact Hsettings|].
  etrans; [exact Hwritten|]. by vm_compute.
Defined.




(** C10: [clearRecentsList] empties the recents list and, in the same
    call, writes the empty list under the recentFiles key; the save timer
    is neither started nor awaited. [addFileToRecentsList], in contrast,
    leaves the settings as they are. *)
Theorem clearRecentsList_saves_at_once `{Build} `{RecentsCodec}
    (s : State) (file : SRecent) :
  0 <= recentsListMaxLength s ->
  let s' := clearRecentsList s in
  recentsList s' = []
  /\ settings s'
     = <[recentFilesKey := VList (recentsListToVariantList [])]> (settings s)
  /\ recentsSaveTimer s' = recentsSaveTimer s
  /\ settings (addFileToRecentsList file s) = settings s.
Proof.
  intros _ s'. unfold s', clearRecentsList.
  assert (recentsList (saveRecentsList (with_recentsList [] s)) = []) as Hnil.
  { rewrite saveRecentsList_list, auditRecentsList_list. apply auditList_nil. }
  split_and!.
  - exact Hnil.
  - by rewrite saveRecentsList_settings, Hnil.
  - by rewrite saveRecentsList_timer.
  - rewrite addFileToRecentsList_frame. by rewrite auditRecentsList_frame.
Qed.

Lemma clearRecentsList_saves_at_once_witness :
  let s' := @clearRecentsList linuxBuild pairCodec twelvePictures in
  recentsList s' = [] /\ settings s' !! recentFilesKey = Some (VList []).
Proof.
  intros s'.
  destruct (@clearRecentsList_saves_at_once linuxBuild pairCodec
              twelvePictures (picture "a.png")) as (Hl & Hs & _);
    [by vm_compute|].
  split; [exact Hl|]. unfold s'. rewrite Hs. apply lookup_insert_eq.
Defined.

(** ** Clones *)

(** C6: for a key of the action library whose action is [a],
    [cloneAction] returns a location the heap did not hold, at which
    there is now an action with the icon, data, text, menu role, enabled
    state, shortcuts and visibility of [a], and that location is the
    newest clone registered under the key, while [a] stays as it is; for
    a key the library does not hold, [cloneAction] returns the null
    pointer and changes nothing. *)
Theorem cloneAction_copies (s : State) (key : QString) :
  (forall action a,
      actionLibrary s !! key = Some action ->
      actions s !! action = Some a ->
      exists newAction s' a',
        cloneAction key s = Some (Some newAction, s')
        /\ actions s !! newAction = None
        /\ actions s' !! newAction = Some a'
        /\ icon a' = icon a /\ data a' = data a /\ text a' = text a
        /\ menuRole a' = menuRole a /\ enabled a' = enabled a
        /\ shortcuts a' = shortcuts a /\ visible a' = visible a
        /\ getAllClonesOfAction key s' = newAction :: getAllClonesOfAction key s
        /\ actions s' !! action = Some a
        /\ actionLibrary s' = actionLibrary s)
  /\ (actionLibrary s !! key = None -> cloneAction key s = Some (None, s)).
Proof.
  split.
  - intros action a Hkey Ha.
    assert (actions s !! newLoc s = None) as Hfresh.
    { apply not_elem_of_dom. unfold newLoc. apply is_fresh. }
    unfold cloneAction, getAction. rewrite Hkey. rewrite Ha.
    cbn [mbind option_bind allocAction].
    eexists _, _, _. split; [reflexivity|].
    cbn [actions with_actions with_actionCloneLibrary actionLibrary
         getAllClonesOfAction actionCloneLibrary].
    split; [exact Hfresh|]. split; [apply lookup_insert_eq|].
    split_and!; try done.
    + unfold getAllClonesOfAction, QMultiHash.insert, QMultiHash.values.
      cbn [actionCloneLibrary with_actionCloneLibrary with_actions].
      by rewrite lookup_insert_eq.
    + rewrite lookup_insert_ne; [done|]. intros Heq. congruence.
  - intros Hkey. unfold cloneAction, getAction. by rewrite Hkey.
Qed.

Lemma cloneAction_copies_witness :
  let s := @ActionManager linuxBuild pairCodec blank in
  exists action a newAction s',
    actionLibrary s !! "open" = Some action
    /\ actions s !! action = Some a
    /\ cloneAction "open" s = Some (Some newAction, s')
    /\ (text <$> actions s' !! newAction) = Some "&Open..."
    /\ cloneAction "recent0" s = Some (None, s).
Proof.
  intros s.
  destruct (cloneAction_copies s "open") as [Hin _].
  destruct (cloneAction_copies s "recent0") as [_ Hout].
  assert (actionLibrary s !! "open" = Some 3%positive) as Hkey by by vm_compute.
  assert (actions s !! 3%positive
          = Some (setData (VStringList ["open"])
                    (newQAction (fromTheme "document-open") "&Open..."))) as Ha
    by by vm_compute.
  destruct (Hin _ _ Hkey Ha)
    as (newAction & s' & a' & Hclone & _ & Hnew & _ & _ & Htext & _).
  eexists 3%positive, _, newAction, s'.
  split_and!; [exact Hkey|exact Ha|exact Hclone| |apply Hout; by vm_compute].
  rewrite Hnew. cbn [fmap option_fmap option_map]. by rewrite Htext.
Defined.

(** ** Dispatch *)

Lemma existsb_eqb_elem_of (key : QString) (l : list QString) :
  existsb (fun actionName => String.eqb key actionName) l = bool_decide (key ∈ l).
Proof.
  induction l as [|x l IH]; cbn [existsb].
  - symmetry. apply bool_decide_eq_false_2, not_elem_of_nil.
  - rewrite IH. destruct (String.eqb_spec key x) as [->|Hne]; cbn [orb].
    + symmetry. apply bool_decide_eq_true_2, elem_of_cons. by left.
    + apply bool_decide_ext. rewrite elem_of_cons. tauto.
Qed.

(** ** The recents menu *)

Lemma alterAll_lookup_notin f l h p :
  p ∉ l -> alterAll f l h !! p = h !! p.
Proof.
  unfold alterAll. revert h. induction l as [|q l IH]; intros h Hp; [done|].
  apply not_elem_of_cons in Hp as [Hne Hp]. cbn [foldl].
  rewrite IH by done. by apply lookup_alter_ne.
Qed.

Lemma alterAll_lookup_in f l h p :
  (forall a, f (f a) = f a) -> p ∈ l -> alterAll f l h !! p = f <$> h !! p.
Proof.
  intros Hidem. unfold alterAll. revert h.
  induction l as [|q l IH]; intros h Hp; [by apply elem_of_nil in Hp|].
  cbn [foldl]. destruct (decide (p ∈ l)) as [Hin|Hnotin].
  - rewrite IH by done. destruct (decide (q = p)) as [->|Hne].
    + rewrite lookup_alter_eq. destruct (h !! p); cbn; [|done]. by rewrite Hidem.
    + by rewrite lookup_alter_ne.
  - apply elem_of_cons in Hp as [->|Hp]; [|done].
    fold (alterAll f l (alter f q h)). rewrite alterAll_lookup_notin by done.
    apply lookup_alter_eq.
Qed.

Section menu_facts.
Context `{Build}.

Lemma updateRecentAction_idem l i a :
  updateRecentAction l i (updateRecentAction l i a) = updateRecentAction l i a.
Proof. unfold updateRecentAction. by case_bool_decide. Qed.

Lemma updateRecentSlot_actions s i :
  actions (updateRecentSlot s i) =
    alterAll (updateRecentAction (recentsList s) i)
             (getAllClonesOfAction (recentKey i) s) (actions s).
Proof.
  unfold updateRecentSlot, getAllClonesOfAction, alterAll.
  generalize (QMultiHash.values (actionCloneLibrary s) (recentKey i)).
  intros l. generalize (eq_refl (recentsList s)).
  generalize (recentsList s) at 1 3 as rl. revert s.
  induction l as [|p l IH]; intros s rl Hrl; [done|].
  cbn [foldl]. rewrite (IH _ rl) by done. by rewrite <- Hrl.
Qed.

Lemma updateRecentSlots_actions_from s rl cl (slots : list nat) :
  rl = recentsList s -> cl = actionCloneLibrary s ->
  actions (foldl updateRecentSlot s slots) =
    foldl (fun h i => alterAll (updateRecentAction rl i)
                               (QMultiHash.values cl (recentKey i)) h)
          (actions s) slots.
Proof.
  revert s. induction slots as [|i slots IH]; intros s Hrl Hcl; [done|].
  cbn [foldl]. pose proof (updateRecentSlot_onlyActions s i) as Hs.
  unfold onlyActions in Hs.
  rewrite IH; [|by rewrite Hs|by rewrite Hs].
  rewrite updateRecentSlot_actions. unfold getAllClonesOfAction.
  by rewrite Hcl, Hrl.
Qed.

(** The heap after the slots of a list have been gone through. *)
Lemma updateRecentSlots_actions s (slots : list nat) :
  actions (foldl updateRecentSlot s slots) =
    foldl (fun h i => alterAll (updateRecentAction (recentsList s) i)
                               (getAllClonesOfAction (recentKey i) s) h)
          (actions s) slots.
Proof. by apply updateRecentSlots_actions_from. Qed.

Lemma slots_lookup_other (F : nat -> QAction -> QAction)
    (L : nat -> list loc) (slots : list nat) h p :
  (forall j, j ∈ slots -> p ∉ L j) ->
  foldl (fun h i => alterAll (F i) (L i) h) h slots !! p = h !! p.
Proof.
  revert h. induction slots as [|j slots IH]; intros h Hp; [done|].
  cbn [foldl]. rewrite IH.
  - apply alterAll_lookup_notin, Hp, elem_of_cons. by left.
  - intros k Hk. apply Hp, elem_of_cons. by right.
Qed.

Lemma slots_lookup_own (F : nat -> QAction -> QAction)
    (L : nat -> list loc) (slots : list nat) h p i :
  (forall j a, F j (F j a) = F j a) ->
  NoDup slots -> i ∈ slots -> p ∈ L i ->
  (forall j, j ∈ slots -> p ∈ L j -> j = i) ->
  foldl (fun h i => alterAll (F i) (L i) h) h slots !! p = F i <$> h !! p.
Proof.
  intros Hidem. revert h.
  induction slots as [|j slots IH]; intros h Hnd Hi Hp Hsep;
    [by apply elem_of_nil in Hi|].
  apply NoDup_cons in Hnd as [Hj Hnd]. cbn [foldl].
  apply elem_of_cons in Hi as [<-|Hi].
  - rewrite slots_lookup_other.
    + by apply alterAll_lookup_in.
    + intros k Hk Hpk. apply Hj. rewrite <- (Hsep k); [done| |done].
      apply elem_of_cons. by right.
  - rewrite IH; [|done..|].
    + f_equal. apply alterAll_lookup_notin. intros Hpj. apply Hj.
      rewrite (Hsep j); [done| |done]. apply elem_of_cons. by left.
    + intros k Hk. apply Hsep, elem_of_cons. by right.
Qed.
End menu_facts.

(** C8: when no action is registered under two slots,
    [updateRecentsMenu] leaves every clone of the slot [i] below
    [recentsListMaxLength] visible exactly when [i] is below the smaller
    of the length of the recents list and [recentsListMaxLength], with
    the file name of entry [i] as its text when it is and the text Empty
    when it is not; it then emits [recentsMenuUpdated] once and changes
    neither the recents list nor the clone library. *)
Theorem updateRecentsMenu_slots `{Build} (s : State) :
  slotsSeparate s ->
  let s' := updateRecentsMenu s in
  (forall (i : nat) (p : loc) (a : QAction),
      Z.of_nat i < recentsListMaxLength s ->
      p ∈ getAllClonesOfAction (recentKey i) s ->
      actions s !! p = Some a ->
      exists a',
        actions s' !! p = Some a'
        /\ visible a'
           = bool_decide (Z.of_nat i < Z.min (Z.of_nat (length (recentsList s)))
                                             (recentsListMaxLength s))
        /\ text a'
           = match recentsList s !! i with
             | Some recent => fileName recent
             | None => "Empty"
             end)
  /\ emitted s' = emitted s ++ [recentsMenuUpdated]
  /\ recentsList s' = recentsList s
  /\ actionCloneLibrary s' = actionCloneLibrary s.
Proof.
  intros Hsep s'. split_and!.
  - intros i p a Hi Hp Ha.
    assert (actions s' !! p
            = updateRecentAction (recentsList s) i <$> actions s !! p) as Hs'.
    { unfold s', updateRecentsMenu. cbn [actions emit with_emitted].
      rewrite updateRecentSlots_actions.
      apply (slots_lookup_own
               (fun i => updateRecentAction (recentsList s) i)
               (fun i => getAllClonesOfAction (recentKey i) s)).
      - intros. apply updateRecentAction_idem.
      - apply NoDup_seq.
      - apply elem_of_seq. lia.
      - done.
      - intros j _ Hj. by apply (Hsep j i p). }
    rewrite Hs', Ha. eexists. split; [reflexivity|].
    unfold updateRecentAction, QList.value.
    case_bool_decide as Hlen.
    + destruct (lookup_lt_is_Some_2 (recentsList s) i Hlen) as [recent Hrecent].
      rewrite Hrecent. split; [|done].
      cbn. symmetry. apply bool_decide_eq_true_2. lia.
    + rewrite lookup_ge_None_2 by lia. split; [|done].
      cbn. symmetry. apply bool_decide_eq_false_2. lia.
  - unfold s'. by rewrite updateRecentsMenu_frame.
  - unfold s'. by rewrite updateRecentsMenu_frame.
  - unfold s'. by rewrite updateRecentsMenu_frame.
Qed.

(** ** The clone library stays in order *)

Lemma keepsLibraries_refl s : keepsLibraries s s.
Proof. by split. Qed.

Lemma keepsLibraries_trans s1 s2 s3 :
  keepsLibraries s1 s2 -> keepsLibraries s2 s3 -> keepsLibraries s1 s3.
Proof.
  intros (H1 & L1 & D1) (H2 & L2 & D2). split_and!; [congruence..|by etrans].
Qed.

Lemma keepsLibraries_with_recentsList l s : keepsLibraries s (with_recentsList l s).
Proof. by split. Qed.

Lemma keepsLibraries_onAction p f s : keepsLibraries s (onAction p f s).
Proof.
  split_and!; [done..|]. cbn [onAction actions with_actions].
  by rewrite dom_alter_L.
Qed.

Lemma keepsLibraries_onMenu m f s : keepsLibraries s (onMenu m f s).
Proof. by split. Qed.

Lemma keepsLibraries_addAction m a s : keepsLibraries s (addAction m a s).
Proof. destruct a; [apply keepsLibraries_onMenu|apply keepsLibraries_refl]. Qed.

Lemma keepsLibraries_allocAction a s : keepsLibraries s (allocAction a s).2.
Proof.
  split_and!; [done..|]. cbn [allocAction snd actions with_actions].
  rewrite dom_insert_L. apply union_subseteq_r.
Qed.

Lemma keepsLibraries_newQMenu title s : keepsLibraries s (newQMenu title s).2.
Proof.
  unfold newQMenu. cbn [allocAction snd].
  split_and!; [done..|]. cbn [actions with_actions with_menus].
  rewrite dom_insert_L. apply union_subseteq_r.
Qed.

Lemma keepsLibraries_foldl {X} (step : State -> X -> State) l s :
  (forall s x, keepsLibraries s (step s x)) -> keepsLibraries s (foldl step s l).
Proof.
  intros Hstep. revert s. induction l as [|x l IH]; intros s; cbn [foldl].
  - apply keepsLibraries_refl.
  - eapply keepsLibraries_trans; [apply Hstep|apply IH].
Qed.

Lemma recentKey_inj i j : recentKey i = recentKey j -> i = j.
Proof.
  unfold recentKey, number. intros Heq. injection Heq as Heq.
  by apply Nat2Z.inj, (inj pretty).
Qed.

Lemma clonesInOrder_keeps s s' :
  clonesInOrder s -> keepsLibraries s s' -> clonesInOrder s'.
Proof.
  intros [Hlive Hsep] (Hlib & _ & Hdom). split.
  - intros key p Hp. apply elem_of_dom, Hdom, elem_of_dom, (Hlive key).
    unfold getAllClonesOfAction in *. by rewrite <- Hlib.
  - intros i j p Hi Hj. apply (Hsep i j p);
      unfold getAllClonesOfAction in *; by rewrite <- Hlib.
Qed.

(** Registering a new action under a key keeps the library in order. *)
Lemma clonesInOrder_register s s' key p :
  clonesInOrder s ->
  actions s !! p = None ->
  actionCloneLibrary s' = QMultiHash.insert key p (actionCloneLibrary s) ->
  dom (actions s') = {[p]} ∪ dom (actions s) ->
  clonesInOrder s'.
Proof.
  intros [Hlive Hsep] Hfresh Hlib Hdom.
  assert (forall k q, q ∈ getAllClonesOfAction k s' ->
            (q = p /\ k = key) \/ (q <> p /\ q ∈ getAllClonesOfAction k s)) as Hcases.
  { intros k q. unfold getAllClonesOfAction, QMultiHash.values.
    rewrite Hlib. unfold QMultiHash.insert, QMultiHash.values.
    destruct (decide (key = k)) as [->|Hne].
    - rewrite lookup_insert_eq. cbn [default]. intros [->|Hq]%elem_of_cons.
      + by left.
      + right. split; [|done]. intros ->.
        destruct (Hlive k p Hq) as [a Ha]. congruence.
    - rewrite lookup_insert_ne by done. intros Hq. right. split; [|done].
      intros ->. destruct (Hlive k p Hq) as [a Ha]. congruence. }
  split.
  - intros k q Hq. apply elem_of_dom. rewrite Hdom.
    destruct (Hcases k q Hq) as [[-> _]|[_ Hold]];
      [by apply elem_of_union_l, elem_of_singleton|].
    apply elem_of_union_r, elem_of_dom, (Hlive k q Hold).
  - intros i j q Hi Hj.
    destruct (Hcases _ _ Hi) as [[Hq Hki]|[Hq Hi']],
             (Hcases _ _ Hj) as [[Hq' Hkj]|[Hq' Hj']]; try done.
    + apply recentKey_inj. congruence.
    + by apply (Hsep i j q).
Qed.

Lemma clonesInOrder_cloneAction key s clone s' :
  clonesInOrder s -> cloneAction key s = Some (clone, s') -> clonesInOrder s'.
Proof.
  intros Hs. unfold cloneAction.
  destruct (getAction key s) as [action|]; [|by intros [= _ <-]].
  destruct (actions s !! action) as [a|]; [|done].
  cbn [mbind option_bind allocAction]. intros [= _ <-].
  eapply (clonesInOrder_register s _ key (newLoc s)); [done| |done|].
  - apply not_elem_of_dom. unfold newLoc. apply is_fresh.
  - cbn [actions with_actions with_actionCloneLibrary]. apply dom_insert_L.
Qed.

Lemma clonesInOrder_buildRecentSlot recentsMenu s i s' :
  clonesInOrder s -> buildRecentSlot recentsMenu s i = Some s' ->
  clonesInOrder s'.
Proof.
  intros Hs. unfold buildRecentSlot. cbn [allocAction addAction].
  change (head (Variant.toStringList (data (newRecentAction i))))
    with (Some (recentKey i)).
  cbn [mbind option_bind]. intros [= <-].
  eapply (clonesInOrder_register s _ (recentKey i) (newLoc s)); [done| |done|].
  - apply not_elem_of_dom. unfold newLoc. apply is_fresh.
  - cbn [actions with_actions with_actionCloneLibrary onMenu with_menus].
    apply dom_insert_L.
Qed.

Lemma clonesInOrder_forEach {X} (body : State -> X -> option State) l s s' :
  (forall s x s', clonesInOrder s -> body s x = Some s' -> clonesInOrder s') ->
  clonesInOrder s -> forEach body s l = Some s' -> clonesInOrder s'.
Proof.
  intros Hbody. revert s. induction l as [|x l IH]; intros s Hs; cbn [forEach].
  - by intros [= <-].
  - destruct (body s x) as [s1|] eqn:Hx; [|done]. cbn [mbind option_bind].
    apply IH. by eapply Hbody.
Qed.

Lemma clonesInOrder_empty s : actionCloneLibrary s = ∅ -> clonesInOrder s.
Proof.
  intros Hlib.
  assert (forall key p, p ∉ getAllClonesOfAction key s) as Hnone.
  { intros key p. unfold getAllClonesOfAction, QMultiHash.values.
    rewrite Hlib, lookup_empty. apply not_elem_of_nil. }
  split.
  - intros key p Hp. by destruct (Hnone key p).
  - intros i j p Hp. by destruct (Hnone (recentKey i) p).
Qed.

Section order_facts.
Context `{Build} `{RecentsCodec}.

Lemma keepsLibraries_updateRecentsMenu s : keepsLibraries s (updateRecentsMenu s).
Proof.
  unfold updateRecentsMenu.
  eapply keepsLibraries_trans; [|by split].
  apply keepsLibraries_foldl. intros s1 i. unfold updateRecentSlot.
  apply keepsLibraries_foldl. intros s2 p. apply keepsLibraries_onAction.
Qed.

Lemma keepsLibraries_auditRecentsList s : keepsLibraries s (auditRecentsList s).
Proof.
  unfold auditRecentsList.
  eapply keepsLibraries_trans; [|apply keepsLibraries_updateRecentsMenu]. by split.
Qed.

Lemma keepsLibraries_saveRecentsList s : keepsLibraries s (saveRecentsList s).
Proof.
  unfold saveRecentsList. cbv zeta.
  eapply keepsLibraries_trans; [apply keepsLibraries_auditRecentsList|]. by split.
Qed.

Lemma keepsLibraries_loadRecentsList s : keepsLibraries s (loadRecentsList s).
Proof.
  unfold loadRecentsList. destruct (isActive _); [apply keepsLibraries_refl|].
  eapply keepsLibraries_trans; [|apply keepsLibraries_auditRecentsList]. by split.
Qed.

Lemma keepsLibraries_addFileToRecentsList file s :
  keepsLibraries s (addFileToRecentsList file s).
Proof.
  rewrite addFileToRecentsList_frame.
  eapply keepsLibraries_trans; [|by split].
  eapply keepsLibraries_trans; [|apply keepsLibraries_auditRecentsList]. by split.
Qed.

Lemma keepsLibraries_settingsUpdated s : keepsLibraries s (settingsUpdated s).
Proof.
  unfold settingsUpdated. cbv zeta.
  match goal with
  | |- context [foldl ?f ?a ?l] =>
      assert (keepsLibraries s (foldl f a l)) as Hm
  end.
  { eapply keepsLibraries_trans; [|apply keepsLibraries_foldl]; [by split|].
    intros s' m. destruct (menus s' !! m);
      [apply keepsLibraries_onAction|apply keepsLibraries_refl]. }
  destruct (negb _); [|done].
  eapply keepsLibraries_trans; [exact Hm|]. unfold clearRecentsList.
  eapply keepsLibraries_trans; [|apply keepsLibraries_saveRecentsList]. by split.
Qed.

(** [buildRecentsMenu] keeps the clone library in order. *)
Lemma clonesInOrder_buildRecentsMenu includeClearAction s recentsMenu s' :
  clonesInOrder s ->
  buildRecentsMenu includeClearAction s = Some (recentsMenu, s') ->
  clonesInOrder s'.
Proof.
  intros Hs. unfold buildRecentsMenu.
  pose proof (keepsLibraries_newQMenu (tr "Open &Recent") s) as Hnew.
  destruct (newQMenu (tr "Open &Recent") s) as [menu s1]. cbn [snd] in Hnew.
  destruct (menus s1 !! menu) as [m|]; [|done]. cbn [mbind option_bind].
  match goal with
  | |- context [forEach ?b ?a ?l] =>
      assert (clonesInOrder a) as Ha;
      [|destruct (forEach b a l) as [s5|] eqn:Hslots; [|done]]
  end.
  { eapply clonesInOrder_keeps; [exact Hs|].
    eapply keepsLibraries_trans; [exact Hnew|].
    eapply keepsLibraries_trans; [apply keepsLibraries_onAction|].
    eapply keepsLibraries_trans; [apply keepsLibraries_onAction|].
    apply keepsLibraries_onMenu. }
  assert (clonesInOrder s5) as H5.
  { eapply clonesInOrder_forEach; [|exact Ha|exact Hslots].
    intros. by eapply clonesInOrder_buildRecentSlot. }
  cbn [mbind option_bind].
  match goal with
  | |- context [mbind _ ?c] =>
      assert (forall s6, c = Some s6 -> clonesInOrder s6) as H6
  end.
  { destruct includeClearAction; [|by intros s6 [= <-]].
    intros s6. destruct (cloneAction _ _) as [[clone s5'']|] eqn:Hclone; [|done].
    cbn [mbind option_bind]. intros [= <-].
    eapply clonesInOrder_keeps; [|apply keepsLibraries_addAction].
    eapply clonesInOrder_cloneAction; [|exact Hclone].
    eapply clonesInOrder_keeps; [exact H5|apply keepsLibraries_onMenu]. }
  match goal with
  | |- context [mbind _ ?c] => destruct c as [s6|]; [|done]
  end.
  specialize (H6 s6 eq_refl). cbn [mbind option_bind].
  destruct (actions s6 !! menuAction m) as [ma|]; [|done].
  cbn [mbind option_bind]. intros [= _ <-].
  eapply clonesInOrder_keeps; [exact H6|].
  eapply keepsLibraries_trans; [|apply keepsLibraries_settingsUpdated].
  eapply keepsLibraries_trans; [|apply keepsLibraries_updateRecentsMenu]. by split.
Qed.

Lemma ActionManager_clones s0 : actionCloneLibrary (ActionManager s0) = ∅.
Proof.
  unfold ActionManager. cbv zeta.
  match goal with
  | |- context [initializeActionLibrary ?X] =>
      assert (actionCloneLibrary (initializeActionLibrary X) = ∅) as Hinit;
      [|generalize dependent (initializeActionLibrary X)]
  end.
  { unfold initializeActionLibrary.
    apply (foldl_inv (fun s' => actionCloneLibrary s' = ∅)).
    - apply (foldl_inv (fun s' => actionCloneLibrary s' = ∅)); [done|].
      by intros s' [key a] Hs'.
    - intros s' key Hs'. by destruct (actionLibrary s' !! key). }
  intros s Hinit.
  destruct (keepsLibraries_loadRecentsList
              (with_recentsSaveTimer
                 (connectTimeout SlotSaveRecentsList
                    (setInterval 500 (setSingleShot true newQTimer))) s))
    as (Hlib & _).
  etrans; [exact Hlib|exact Hinit].
Qed.

(** A manager as constructed has its clone library in order. *)
Lemma ActionManager_clonesInOrder s0 : clonesInOrder (ActionManager s0).
Proof. apply clonesInOrder_empty, ActionManager_clones. Qed.
End order_facts.

Lemma libraryLive_keeps s s' : libraryLive s -> keepsLibraries s s' -> libraryLive s'.
Proof.
  intros Hlive (_ & Hlib & Hdom) key p Hp. rewrite Hlib in Hp.
  apply elem_of_dom, Hdom, elem_of_dom. by apply (Hlive key).
Qed.

Section library_facts.
Context `{Build} `{RecentsCodec}.

Lemma initializeActionLibrary_libraryLive s :
libraryLive s -> libraryLive (initializeActionLibrary s).
Proof.
intros Hs. unfold initializeActionLibrary. apply foldl_inv.
- apply foldl_inv; [done|]. intros s1 [key a] Hs1 k q.
  cbn [allocAction actionLibrary actions with_actionLibrary with_actions].
  destruct (decide (key = k)) as [->|Hne].
  + rewrite lookup_insert_eq. intros [= <-]. by rewrite lookup_insert_eq.
  + rewrite lookup_insert_ne by done. intros Hq.
    apply lookup_insert_is_Some'. right. by apply (Hs1 k).
- intros s1 key Hs1. destruct (actionLibrary s1 !! key) as [value|]; [|done].
  eapply libraryLive_keeps; [exact Hs1|apply keepsLibraries_onAction].
Qed.

(** The actions of the library of a manager as constructed are live. *)
Lemma ActionManager_libraryLive s0 : libraryLive (ActionManager s0).
Proof.
unfold ActionManager. cbv zeta.
match goal with
| |- context [initializeActionLibrary ?X] =>
    assert (libraryLive (initializeActionLibrary X)) as Hinit;
    [|generalize dependent (initializeActionLibrary X)]
end.
{ apply initializeActionLibrary_libraryLive. intros key p Hp.
  cbn in Hp. by rewrite lookup_empty in Hp. }
intros s Hinit.
eapply libraryLive_keeps; [|apply keepsLibraries_loadRecentsList].
intros key p Hp. by apply (Hinit key).
Qed.
End library_facts.

Lemma withRecentsMenu_clonesInOrder : clonesInOrder withRecentsMenu.
Proof.
  unfold withRecentsMenu.
  destruct (buildRecentsMenu _ _) as [[recentsMenu s]|] eqn:Hbuild.
  - eapply clonesInOrder_buildRecentsMenu; [|exact Hbuild].
    apply ActionManager_clonesInOrder.
  - by apply clonesInOrder_empty.
Qed.

Lemma updateRecentsMenu_slots_witness :
  let s := with_recentsList [picture "a.png"] withRecentsMenu in
  slotsSeparate s
  /\ exists a',
       actions (@updateRecentsMenu linuxBuild s) !! 40%positive = Some a'
       /\ visible a' = true /\ text a' = "a.png".
Proof.
  intros s.
  assert (slotsSeparate s) as Hsep.
  { apply (clonesInOrder_keeps withRecentsMenu);
      [apply withRecentsMenu_clonesInOrder|apply keepsLibraries_with_recentsList]. }
  split; [exact Hsep|].
  destruct (@updateRecentsMenu_slots linuxBuild s Hsep) as [Hslots _].
  destruct (Hslots 0%nat 40%positive (newRecentAction 0))
    as (a' & Ha' & Hvisible & Htext).
  - by vm_compute.
  - vm_compute. apply list_elem_of_here.
  - by vm_compute.
  - exists a'. split; [exact Ha'|]. split; [exact Hvisible|exact Htext].
Defined.

(** ** The audit of a list without duplicates *)

Lemma filter_ne_notin (r : SRecent) (l : list SRecent) :
  r ∉ l -> filter (fun x => x <> r) l = l.
Proof.
  induction l as [|x l IH]; intros Hr; [done|].
  apply not_elem_of_cons in Hr as [Hne Hr].
  rewrite filter_cons_True by done. by rewrite IH.
Qed.

(** The duplicate check changes nothing when, from [i2] on, no entry
    but the one at [i] equals [recent]. *)
Lemma dedupLoop_noop fuel recent i i2 l :
  (forall j, (i2 <= j)%nat -> j <> i -> l !! j <> Some recent) ->
  dedupLoop fuel recent i i2 l = l.
Proof.
  revert i2. induction fuel as [|fuel IH]; intros i2 Hl; cbn [dedupLoop]; [done|].
  case_bool_decide as Hlt; [|done].
  case_bool_decide as Heq; [apply IH; intros j Hj; apply Hl; lia|].
  destruct (lookup_lt_is_Some_2 l i2 Hlt) as [x Hx].
  unfold SRecent_eqb, QList.value. rewrite Hx. cbn [default from_option id].
  rewrite bool_decide_eq_false_2.
  - apply IH. intros j Hj. apply Hl. lia.
  - intros ->. by apply (Hl i2); [lia|congruence|].
Qed.

(** Past [i], on entries without duplicates, the duplicate check removes
    the one entry equal to [recent], if there is one. *)
Lemma dedupLoop_one fuel recent i (front rest : list SRecent) :
  (length rest <= fuel)%nat -> (i < length front)%nat -> NoDup rest ->
  dedupLoop fuel recent i (length front) (front ++ rest)
    = front ++ filter (fun x => x <> recent) rest.
Proof.
  revert front fuel. induction rest as [|x rest IH]; intros front fuel Hfuel Hi Hnd.
  - change (filter _ []) with (@nil SRecent). rewrite !app_nil_r.
    apply dedupLoop_noop. intros j Hj _.
    rewrite lookup_ge_None_2 by done. congruence.
  - destruct fuel as [|fuel]; [cbn in Hfuel; lia|]. cbn [dedupLoop].
    apply NoDup_cons in Hnd as [Hx Hnd].
    rewrite bool_decide_eq_true_2 by (rewrite length_app; cbn; lia).
    rewrite bool_decide_eq_false_2 by lia.
    unfold SRecent_eqb, QList.value, QList.removeAt.
    rewrite list_lookup_middle by done. cbn [default from_option id].
    case_bool_decide as Heq.
    + subst x. rewrite delete_middle.
      rewrite filter_cons_False by (intros Hne; by apply Hne).
      rewrite filter_ne_notin by done.
      apply dedupLoop_noop. intros j Hj _ Hlook.
      rewrite lookup_app_r in Hlook by lia.
      by apply list_elem_of_lookup_2 in Hlook.
    + rewrite filter_cons_True by congruence.
      replace (front ++ x :: rest) with ((front ++ [x]) ++ rest)
        by (by rewrite <- app_assoc).
      replace (S (length front)) with (length (front ++ [x]))
        by (rewrite length_app; cbn; lia).
      rewrite IH; [by rewrite <- app_assoc|cbn in Hfuel; lia| |done].
      rewrite length_app. lia.
Qed.

(** Past [i], the duplicate check removes at least one entry when an
    entry equal to [recent] lies ahead. *)
Lemma dedupLoop_removes_first fuel recent i i2 l k :
  (length l - i2 <= fuel)%nat -> (i < i2)%nat -> (i2 <= k)%nat ->
  l !! k = Some recent ->
  (S (length (dedupLoop fuel recent i i2 l)) <= length l)%nat.
Proof.
  revert i2. induction fuel as [|fuel IH]; intros i2 Hfuel Hi Hk Hlook;
    pose proof (lookup_lt_Some _ _ _ Hlook) as Hlen; [lia|].
  cbn [dedupLoop].
  rewrite bool_decide_eq_true_2 by lia.
  rewrite bool_decide_eq_false_2 by lia.
  unfold SRecent_eqb, QList.value, QList.removeAt.
  case_bool_decide as Heq.
  - pose proof (dedupLoop_length fuel recent i (S i2) (delete i2 l)) as Hle.
    rewrite length_delete in Hle by (apply lookup_lt_is_Some; lia). lia.
  - apply IH; [lia|lia| |done].
    destruct (decide (i2 = k)) as [->|]; [|lia].
    rewrite Hlook in Heq. by destruct Heq.
Qed.

Section audit_nodup_facts.
Variable fileExists : QString -> bool.

(** On a list without duplicates one round of the audit removes the
  entry at [i] when its file is missing and nothing else. *)
Lemma auditStep_NoDup i l recent :
NoDup l -> l !! i = Some recent ->
auditStep fileExists i l
  = if fileExists (filePath recent) then l else delete i l.
Proof.
intros Hnd Hi. unfold auditStep, QList.value, QList.removeAt.
rewrite Hi. cbn [default from_option id]. destruct (fileExists _).
- apply dedupLoop_noop. intros j _ Hj Hlook. apply Hj.
  by apply (NoDup_lookup l j i recent).
- apply dedupLoop_noop. intros j _ _ Hlook.
  apply list_elem_of_lookup_2 in Hlook.
  rewrite <- (take_drop_middle l i recent Hi) in Hnd.
  apply NoDup_app in Hnd as (_ & Hleft & [Hright _]%NoDup_cons).
  rewrite delete_take_drop in Hlook.
  apply elem_of_app in Hlook as [Hlook|Hlook]; [|done].
  apply (Hleft recent Hlook). apply elem_of_cons. by left.
Qed.

(** From index 1 on, the audit of a list without duplicates keeps the
  entry at the front. *)
Lemma auditLoop_NoDup_head fuel i l :
NoDup l -> (1 <= i)%nat ->
head (auditLoop fileExists fuel i l) = head l
/\ NoDup (auditLoop fileExists fuel i l).
Proof.
revert i l. induction fuel as [|fuel IH]; intros i l Hnd Hi;
  cbn [auditLoop]; [done|].
case_bool_decide as Hlt; [|done].
destruct (lookup_lt_is_Some_2 l i Hlt) as [recent Hrecent].
rewrite (auditStep_NoDup i l recent) by done.
destruct (fileExists _); [apply IH; [done|lia]|].
destruct (IH (S i) (delete i l)) as [Hhead Hnd'].
- eapply sublist_NoDup; [done|apply sublist_delete].
- lia.
- split; [|done]. rewrite Hhead.
  destruct l as [|x l]; [done|]. by destruct i as [|i]; [lia|].
Qed.

(** The audit of a list without duplicates in front of which an
  existing file was put: the file stays at the front and the list is
  left without duplicates. *)
Lemma auditList_prepend_NoDup maxLength file l :
NoDup l -> fileExists (filePath file) = true -> 1 <= maxLength ->
head (auditList fileExists true maxLength (file :: l)) = Some file
/\ NoDup (auditList fileExists true maxLength (file :: l)).
Proof.
intros Hnd Hfile Hmax. unfold auditList.
rewrite evictLoop_take by (done || lia).
cbn [length auditLoop]. rewrite bool_decide_eq_true_2 by lia.
assert (auditStep fileExists 0 (file :: l)
        = file :: filter (fun x => x <> file) l) as ->.
{ unfold auditStep, QList.value. cbn [lookup list_lookup default from_option id].
  rewrite Hfile. cbn [length dedupLoop].
  rewrite bool_decide_eq_true_2 by lia.
  rewrite bool_decide_eq_true_2 by done.
  apply (dedupLoop_one (length l) file 0%nat [file] l); [done|cbn; lia|done]. }
destruct (auditLoop_NoDup_head (length l) 1
            (file :: filter (fun x => x <> file) l)) as [Hhead Hnd'].
- apply NoDup_cons. split; [|by apply NoDup_filter].
  rewrite list_elem_of_filter. by intros [Hne _].
- done.
- split.
  + rewrite head_lookup, lookup_take_lt by lia.
    by rewrite <- head_lookup, Hhead.
  + eapply sublist_NoDup; [done|apply sublist_take].
Qed.
End audit_nodup_facts.

(** X4: from a recents list without duplicates, with saving enabled,
    [addFileToRecentsList] of an existing file leaves the file at
    index 0 and the list without duplicates. *)
Lemma addFileToRecentsList_front `{Build} (s : State) (file : SRecent) :
  NoDup (recentsList s) ->
  fileExists s (filePath file) = true ->
  isSaveRecentsEnabled s = true ->
  1 <= recentsListMaxLength s ->
  recentsList (addFileToRecentsList file s) !! 0%nat = Some file
  /\ NoDup (recentsList (addFileToRecentsList file s)).
Proof.
  intros Hnd Hfile Hon Hmax.
  rewrite addFileToRecentsList_frame. cbn [recentsList with_recentsSaveTimer].
  rewrite auditRecentsList_list.
  cbn [recentsList isSaveRecentsEnabled recentsListMaxLength with_recentsList].
  rewrite Hon. rewrite <- head_lookup.
  replace (mkSRecent (fileName file) (filePath file)) with file by by destruct file.
  by apply auditList_prepend_NoDup.
Qed.

(** X5: if an equal entry was in the list, [addFileToRecentsList] does
    not make the list longer, whatever the list held. *)
Lemma addFileToRecentsList_length `{Build} (s : State) (file : SRecent) :
  0 <= recentsListMaxLength s ->
  isSaveRecentsEnabled s = true ->
  fileExists s (filePath file) = true ->
  file ∈ recentsList s ->
  (length (recentsList (addFileToRecentsList file s)) <= length (recentsList s))%nat.
Proof.
  intros Hmax Hon Hfile Hin.
  rewrite addFileToRecentsList_frame. cbn [recentsList with_recentsSaveTimer].
  rewrite auditRecentsList_list.
  cbn [recentsList isSaveRecentsEnabled recentsListMaxLength with_recentsList].
  rewrite Hon.
  replace (mkSRecent (fileName file) (filePath file)) with file by by destruct file.
  change (fileExists (with_recentsList _ s)) with (fileExists s).
  unfold auditList. rewrite evictLoop_take by done.
  etrans; [apply sublist_length, sublist_take|].
  cbn [length auditLoop]. rewrite bool_decide_eq_true_2 by lia.
  etrans; [apply sublist_length, auditLoop_sublist|].
  unfold auditStep, QList.value. cbn [lookup list_lookup default from_option id].
  rewrite Hfile. cbn [length dedupLoop].
  rewrite bool_decide_eq_true_2 by lia.
  rewrite bool_decide_eq_true_2 by done.
  apply list_elem_of_lookup_1 in Hin as [k Hk].
  pose proof (dedupLoop_removes_first (length (recentsList s)) file 0%nat 1%nat
                (file :: recentsList s) (S k)) as Hremoved.
  cbn [length] in Hremoved. apply Nat.succ_le_mono, Hremoved; [lia|lia|lia|done].
Qed.

(** ** More on the audit *)

Section audit_more_facts.
Variable fileExists : QString -> bool.

(** On a list without duplicates the audit loop drops no entry whose
  file exists. *)
Lemma auditLoop_NoDup_keeps fuel i l recent :
NoDup l -> recent ∈ l -> fileExists (filePath recent) = true ->
recent ∈ auditLoop fileExists fuel i l.
Proof.
revert i l. induction fuel as [|fuel IH]; intros i l Hnd Hin Hfile;
  cbn [auditLoop]; [done|].
case_bool_decide as Hlt; [|done].
destruct (lookup_lt_is_Some_2 l i Hlt) as [r Hr].
rewrite (auditStep_NoDup fileExists i l r) by done.
destruct (fileExists (filePath r)) eqn:Hr_file; [by apply IH|].
apply IH; [eapply sublist_NoDup; [done|apply sublist_delete]| |done].
rewrite delete_take_drop.
rewrite <- (take_drop_middle l i r Hr) in Hin.
rewrite elem_of_app, elem_of_cons in Hin. rewrite elem_of_app.
destruct Hin as [?|[->|?]]; [by left|congruence|by right].
Qed.

(** On a list without duplicates whose files all exist the audit loop
  changes nothing. *)
Lemma auditLoop_clean fuel i l :
NoDup l -> Forall (fun recent => fileExists (filePath recent) = true) l ->
auditLoop fileExists fuel i l = l.
Proof.
revert i. induction fuel as [|fuel IH]; intros i Hnd Hall;
  cbn [auditLoop]; [done|].
case_bool_decide as Hlt; [|done].
destruct (lookup_lt_is_Some_2 l i Hlt) as [r Hr].
rewrite (auditStep_NoDup fileExists i l r) by done.
rewrite (proj1 (Forall_forall _ l) Hall r) by by eapply list_elem_of_lookup_2.
by apply IH.
Qed.

Lemma auditList_clean maxLength l :
0 <= maxLength ->
NoDup l -> Forall (fun recent => fileExists (filePath recent) = true) l ->
auditList fileExists true maxLength l = take (Z.to_nat maxLength) l.
Proof.
intros Hmax Hnd Hall. unfold auditList. rewrite evictLoop_take by done.
by rewrite auditLoop_clean.
Qed.
End audit_more_facts.

(** X1: the audit only removes entries. What it leaves is what was in the
    list, in the order it was in. *)
Theorem auditRecentsList_sublist `{Build} (s : State) :
  0 <= recentsListMaxLength s ->
  recentsList (auditRecentsList s) `sublist_of` recentsList s.
Proof. intros Hmax. rewrite auditRecentsList_list. by apply auditList_sublist. Qed.

Lemma auditRecentsList_sublist_witness :
  let s := with_recentsList
             [picture "b.png"; picture "a.png"; picture "x.png";
              picture "a.png"; picture "a.png"] storedWithRepeats in
  recentsList (@auditRecentsList linuxBuild s)
    `sublist_of` [picture "b.png"; picture "a.png"; picture "x.png";
                  picture "a.png"; picture "a.png"]
  /\ recentsList (@auditRecentsList linuxBuild s)
     = [picture "b.png"; picture "a.png"; picture "a.png"].
Proof.
  intros s. split.
  - apply (@auditRecentsList_sublist linuxBuild s). by vm_compute.
  - by vm_compute.
Defined.

(** X2: with saving enabled, a list without duplicates whose files all
    exist is cut to its first [recentsListMaxLength] entries and left as
    it is otherwise; a second audit changes nothing more. *)
Theorem auditRecentsList_clean `{Build} (s : State) :
  0 <= recentsListMaxLength s ->
  isSaveRecentsEnabled s = true ->
  NoDup (recentsList s) -> allExist s (recentsList s) ->
  recentsList (auditRecentsList s)
    = take (Z.to_nat (recentsListMaxLength s)) (recentsList s)
  /\ recentsList (auditRecentsList (auditRecentsList s))
     = recentsList (auditRecentsList s).
Proof.
  intros Hmax Hon Hnd Hall.
  assert (forall l, NoDup l -> allExist s l ->
            auditList (fileExists s) true (recentsListMaxLength s) l
            = take (Z.to_nat (recentsListMaxLength s)) l) as Hclean.
  { intros l Hl Hex. unfold auditList. rewrite evictLoop_take by done.
    by rewrite auditLoop_clean. }
  assert (recentsList (auditRecentsList s)
          = take (Z.to_nat (recentsListMaxLength s)) (recentsList s)) as Hfirst.
  { rewrite auditRecentsList_list, Hon. by apply Hclean. }
  split; [exact Hfirst|].
  rewrite (auditRecentsList_list (auditRecentsList s)).
  rewrite (auditRecentsList_frame s) at 1 2 3.
  cbn [isSaveRecentsEnabled recentsListMaxLength with_emitted with_actions
       with_recentsList].
  change (fileExists (with_emitted _ _)) with (fileExists s).
  rewrite Hon, Hfirst. rewrite Hclean.
  - by rewrite take_take, Nat.min_id.
  - eapply sublist_NoDup; [done|apply sublist_take].
  - by apply Forall_take.
Qed.

Lemma auditRecentsList_clean_witness :
  recentsList (@auditRecentsList linuxBuild twelvePictures)
  = take 10 (recentsList twelvePictures).
Proof.
  assert (allExist twelvePictures (recentsList twelvePictures)) as Hall.
  { unfold allExist. by repeat (apply Forall_cons_2; [by vm_compute|]). }
  destruct (@auditRecentsList_clean linuxBuild twelvePictures) as [Hfirst _];
    [by vm_compute|done| |done|exact Hfirst].
  apply (bool_decide_unpack _). by vm_compute.
Defined.

(** X3: with saving enabled, from a list without duplicates that is not
    longer than [recentsListMaxLength] the audit drops no entry whose
    file exists, and it leaves the list without duplicates. *)
Theorem auditRecentsList_keeps_existing `{Build} (s : State) (recent : SRecent) :
  isSaveRecentsEnabled s = true ->
  (Z.of_nat (length (recentsList s)) <= recentsListMaxLength s) ->
  NoDup (recentsList s) ->
  recent ∈ recentsList s -> fileExists s (filePath recent) = true ->
  recent ∈ recentsList (auditRecentsList s)
  /\ NoDup (recentsList (auditRecentsList s)).
Proof.
  intros Hon Hlen Hnd Hin Hfile.
  rewrite auditRecentsList_list, Hon. unfold auditList.
  rewrite evictLoop_take by (lia || done).
  pose proof (auditLoop_sublist (fileExists s) (length (recentsList s)) 0
                (recentsList s)) as Hsub.
  rewrite take_ge by (apply sublist_length in Hsub; lia).
  split; [by apply auditLoop_NoDup_keeps|by eapply sublist_NoDup].
Qed.

Lemma auditRecentsList_keeps_existing_witness :
  picture "b.png"
    ∈ recentsList
        (@auditRecentsList linuxBuild
           (with_recentsList [picture "x.png"; picture "b.png"] storedWithRepeats)).
Proof.
  apply (@auditRecentsList_keeps_existing linuxBuild
           (with_recentsList [picture "x.png"; picture "b.png"] storedWithRepeats)
           (picture "b.png")).
  - done.
  - by vm_compute.
  - apply (bool_decide_unpack _). by vm_compute.
  - apply (bool_decide_unpack _). by vm_compute.
  - by vm_compute.
Defined.

Lemma addFileToRecentsList_front_witness :
  recentsList (@addFileToRecentsList linuxBuild (picture "11.png") twelvePictures)
    !! 0%nat = Some (picture "11.png").
Proof.
  apply (@addFileToRecentsList_front linuxBuild twelvePictures (picture "11.png")).
  - apply (bool_decide_unpack _). by vm_compute.
  - by vm_compute.
  - done.
  - by vm_compute.
Defined.

Lemma addFileToRecentsList_length_witness :
  (length (recentsList
             (@addFileToRecentsList linuxBuild (picture "a.png")
                (@loadRecentsList linuxBuild pairCodec storedWithRepeats)))
   <= 3)%nat.
Proof.
  apply (@addFileToRecentsList_length linuxBuild
           (@loadRecentsList linuxBuild pairCodec storedWithRepeats)
           (picture "a.png")).
  - by vm_compute.
  - by vm_compute.
  - by vm_compute.
  - apply (bool_decide_unpack _). by vm_compute.
Defined.

(** ** More on the persistence of the recents list *)


Section persistence_more_facts.
Context `{Build} `{RecentsCodec}.

(** All that [saveRecentsList] changes: the list, the action heap, the
  signals emitted and the settings. *)
Lemma saveRecentsList_shape s :
saveRecentsList s =
  with_settings (settings (saveRecentsList s))
    (with_emitted (emitted s ++ [recentsMenuUpdated])
      (with_actions (actions (saveRecentsList s))
        (with_recentsList
           (auditList (fileExists s) (isSaveRecentsEnabled s)
                      (recentsListMaxLength s) (recentsList s)) s))).
Proof.
rewrite saveRecentsList_frame at 1. rewrite auditRecentsList_frame at 2.
rewrite saveRecentsList_frame at 1 2. by rewrite auditRecentsList_frame at 2.
Qed.

(** The save timer of a manager as set up runs out: it stops and
  [saveRecentsList] runs. *)
Lemma recentsSaveTimerFires_active s :
saveTimerSetUp s -> isActive (recentsSaveTimer s) = true ->
recentsSaveTimerFires s
= saveRecentsList
    (with_recentsSaveTimer (mkQTimer true 500 false [SlotSaveRecentsList]) s).
Proof.
intros (Hsingle & Hinterval & Hslots) Hactive.
unfold recentsSaveTimerFires. by rewrite Hactive, Hsingle, Hinterval, Hslots.
Qed.

Lemma addFileToRecentsList_timer file s :
recentsSaveTimer (addFileToRecentsList file s) = start (recentsSaveTimer s).
Proof. by rewrite addFileToRecentsList_frame. Qed.

Lemma addFileToRecentsList_settings file s :
settings (addFileToRecentsList file s) = settings s.
Proof. rewrite addFileToRecentsList_frame. by rewrite auditRecentsList_frame. Qed.
End persistence_more_facts.

(** X6: until the save timer has run out, [loadRecentsList] leaves a
    manager to which a file was added as it is: the list in memory is
    not replaced by the older list of the settings. *)
Theorem loadRecentsList_after_add `{Build} `{RecentsCodec}
    (s : State) (file : SRecent) :
  loadRecentsList (addFileToRecentsList file s) = addFileToRecentsList file s.
Proof. unfold loadRecentsList. by rewrite addFileToRecentsList_timer. Qed.

(** X7: what [saveRecentsList] wrote is what [loadRecentsList] reads
    back, for a codec that reads back what it wrote, an idle save timer
    and a list without duplicates whose files all exist. *)
Theorem save_then_load `{Build} `{RecentsCodec} (s : State) :
  codecRoundTrip ->
  isActive (recentsSaveTimer s) = false ->
  0 <= recentsListMaxLength s ->
  NoDup (recentsList s) -> allExist s (recentsList s) ->
  recentsList (loadRecentsList (saveRecentsList s))
  = recentsList (saveRecentsList s).
Proof.
  intros Hcodec Hidle Hmax Hnd Hall.
  assert (recentsList (saveRecentsList s)
          = auditList (fileExists s) (isSaveRecentsEnabled s)
                      (recentsListMaxLength s) (recentsList s)) as Hsaved.
  { by rewrite saveRecentsList_list, auditRecentsList_list. }
  unfold loadRecentsList. rewrite saveRecentsList_timer, Hidle.
  rewrite saveRecentsList_settings, lookup_insert_eq.
  cbn [default from_option id Variant.toList]. rewrite Hcodec.
  rewrite auditRecentsList_list.
  cbn [isSaveRecentsEnabled recentsListMaxLength recentsList with_recentsList].
  change (fileExists (with_recentsList _ ?x)) with (fileExists x).
  rewrite (saveRecentsList_shape s) at 1 2 3.
  cbn [isSaveRecentsEnabled recentsListMaxLength with_settings with_emitted
       with_actions with_recentsList].
  change (fileExists (with_settings _ _)) with (fileExists s).
  rewrite Hsaved. destruct (isSaveRecentsEnabled s); [|done].
  rewrite (auditList_clean _ _ (recentsList s)) by done.
  rewrite auditList_clean; [by rewrite take_take, Nat.min_id|done| |].
  - eapply sublist_NoDup; [done|apply sublist_take].
  - by apply Forall_take.
Qed.

Lemma save_then_load_witness :
  recentsList
    (@loadRecentsList linuxBuild pairCodec
       (@saveRecentsList linuxBuild pairCodec twelvePictures))
  = take 10 (recentsList twelvePictures).
Proof.
  rewrite (@save_then_load linuxBuild pairCodec twelvePictures).
  - by vm_compute.
  - intros l. induction l as [|[name path] l IH]; [done|].
    cbn. cbn in IH. by rewrite IH.
  - done.
  - by vm_compute.
  - apply (bool_decide_unpack _). by vm_compute.
  - unfold allExist. by repeat (apply Forall_cons_2; [by vm_compute|]).
Defined.

(** When the save timer of a manager as set up is running and runs out,
    the list as audited then is written, the timer has stopped, and
    running out again without a new start changes nothing. *)
Lemma recentsSaveTimerFires_once `{Build} `{RecentsCodec} (s : State) :
  saveTimerSetUp s -> isActive (recentsSaveTimer s) = true ->
  settings (recentsSaveTimerFires s) !! recentFilesKey
  = Some (VList (recentsListToVariantList
                   (recentsList (recentsSaveTimerFires s))))
  /\ recentsList (recentsSaveTimerFires s)
     = auditList (fileExists s) (isSaveRecentsEnabled s)
                 (recentsListMaxLength s) (recentsList s)
  /\ recentsSaveTimerFires (recentsSaveTimerFires s) = recentsSaveTimerFires s.
Proof.
  intros Hset Hactive. rewrite (recentsSaveTimerFires_active s) by done.
  split_and!.
  - rewrite saveRecentsList_settings. apply lookup_insert_eq.
  - by rewrite saveRecentsList_list, auditRecentsList_list.
  - unfold recentsSaveTimerFires. by rewrite saveRecentsList_timer.
Qed.

(** X8: two files added one after the other write nothing to the
    settings; the one time the save timer then runs out, the list as it
    is then is written; the timer has stopped, and running out again
    without a new start changes nothing. *)
Theorem save_timer_fires_once `{Build} `{RecentsCodec}
    (s : State) (first second : SRecent) :
  saveTimerSetUp s ->
  let added := addFileToRecentsList second (addFileToRecentsList first s) in
  let saved := recentsSaveTimerFires added in
  settings added = settings s
  /\ (settings saved !! recentFilesKey
      = Some (VList (recentsListToVariantList (recentsList saved)))
      /\ recentsList saved
         = auditList (fileExists added) (isSaveRecentsEnabled added)
                     (recentsListMaxLength added) (recentsList added)
      /\ recentsSaveTimerFires saved = saved).
Proof.
  intros Hset added saved.
  split; [unfold added; by rewrite !addFileToRecentsList_settings|].
  apply recentsSaveTimerFires_once.
  - unfold saveTimerSetUp, added. rewrite !addFileToRecentsList_timer.
    destruct Hset as (Hsingle & Hinterval & Hslots). by split_and!.
  - unfold added. by rewrite !addFileToRecentsList_timer.
Qed.

Lemma save_timer_fires_once_witness :
  let added :=
    @addFileToRecentsList linuxBuild (picture "1.png")
      (@addFileToRecentsList linuxBuild (picture "0.png")
         (with_recentsList []
            (with_recentsSaveTimer
               (mkQTimer true 500 false [SlotSaveRecentsList])
               twelvePictures))) in
  settings (@recentsSaveTimerFires linuxBuild pairCodec added) !! recentFilesKey
  = Some (VList [VStringList ["1.png"; "/home/1.png"];
                 VStringList ["0.png"; "/home/0.png"]]).
Proof.
  intros added.
  destruct (@save_timer_fires_once linuxBuild pairCodec
              (with_recentsList []
                 (with_recentsSaveTimer
                    (mkQTimer true 500 false [SlotSaveRecentsList])
                    twelvePictures))
              (picture "0.png") (picture "1.png")) as (_ & Hwritten & Hlist & _).
  - by vm_compute.
  - etrans; [exact Hwritten|]. rewrite Hlist. by vm_compute.
Defined.

(** ** More on the settings and on clones *)

Lemma foldl_onAction_actions (f : QAction -> QAction) l s :
  actions (foldl (fun s q => onAction q f s) s l) = alterAll f l (actions s).
Proof.
  unfold alterAll. revert s. induction l as [|q l IH]; intros s; [done|].
  cbn [foldl]. by rewrite IH.
Qed.

Section settings_more_facts.
Context `{Build} `{RecentsCodec}.

End settings_more_facts.



Lemma hideAllInstancesOfAction_actions (s : State) (key : QString) (p : loc) :
  actions (hideAllInstancesOfAction key s) !! p
  = (fun a => if bool_decide (p ∈ getAllInstancesOfAction key s)
              then setVisible false a else a) <$> actions s !! p.
Proof.
  unfold hideAllInstancesOfAction. rewrite foldl_onAction_actions.
  case_bool_decide as Hin.
  - by apply alterAll_lookup_in.
  - rewrite alterAll_lookup_notin by done. by destruct (actions s !! p).
Qed.

(** X10: [hideAllInstancesOfAction] makes the clones registered under
    the key and the action of the library invisible and leaves their
    icon, data, text, menu role, shortcuts and icon-in-menu setting as
    they were; every other action is as it was, no action is added or
    removed, and nothing but the actions changes. *)
Theorem hideAllInstancesOfAction_hides (s : State) (key : QString) (p : loc) :
  let s' := hideAllInstancesOfAction key s in
  (p ∈ getAllInstancesOfAction key s ->
   forall a, actions s !! p = Some a ->
     exists a',
       actions s' !! p = Some a'
       /\ visible a' = false
       /\ icon a' = icon a /\ data a' = data a /\ text a' = text a
       /\ menuRole a' = menuRole a /\ shortcuts a' = shortcuts a
       /\ iconVisibleInMenu a' = iconVisibleInMenu a)
  /\ (p ∉ getAllInstancesOfAction key s -> actions s' !! p = actions s !! p)
  /\ dom (actions s') = dom (actions s)
  /\ onlyActions s s'.
Proof.
  intros s'. split_and!.
  - intros Hin a Ha. unfold s'.
    rewrite hideAllInstancesOfAction_actions, Ha.
    rewrite bool_decide_eq_true_2 by done.
    by exists (setVisible false a).
  - intros Hnotin. unfold s'. rewrite hideAllInstancesOfAction_actions.
    rewrite bool_decide_eq_false_2 by done. by destruct (actions s !! p).
  - apply set_eq. intros q. rewrite !elem_of_dom. unfold s'.
    rewrite hideAllInstancesOfAction_actions. by rewrite fmap_is_Some.
  - unfold s', hideAllInstancesOfAction. apply onlyActions_foldl.
    intros. apply onlyActions_onAction.
Qed.

Lemma hideAllInstancesOfAction_hides_witness :
  let s := @ActionManager linuxBuild pairCodec blank in
  14%positive ∈ getAllInstancesOfAction "zoomin" s
  /\ (visible <$> actions s !! 14%positive) = Some true
  /\ exists a',
       actions (hideAllInstancesOfAction "zoomin" s) !! 14%positive = Some a'
       /\ visible a' = false
       /\ data a' = VStringList ["zoomin"; "disable"].
Proof.
  intros s.
  assert (14%positive ∈ getAllInstancesOfAction "zoomin" s) as Hin
    by (apply (bool_decide_unpack _); by vm_compute).
  destruct (actions s !! 14%positive) as [a|] eqn:Ha; [|by vm_compute in Ha].
  assert (visible a = true /\ data a = VStringList ["zoomin"; "disable"]) as [Hvisible Hdata].
  { assert (Some a = Some a) as Hsome by reflexivity.
    rewrite <- Ha in Hsome at 1. vm_compute in Hsome.
    injection Hsome as <-. split; reflexivity. }
  destruct (hideAllInstancesOfAction_hides s "zoomin" 14%positive)
    as (Hhides & _).
  destruct (Hhides Hin a Ha) as (a' & Ha' & Hhidden & _ & Hdata' & _).
  split; [exact Hin|].
  split; [cbn [fmap option_fmap option_map]; rewrite Hvisible; reflexivity|].
  exists a'. split; [exact Ha'|]. split; [exact Hhidden|].
  rewrite Hdata', Hdata. reflexivity.
Defined.

(** What [cloneAction] returns for a key whose action is live. *)
Lemma cloneAction_live key s action a :
  actionLibrary s !! key = Some action -> actions s !! action = Some a ->
  cloneAction key s
  = Some (Some (newLoc s),
          with_actionCloneLibrary
            (QMultiHash.insert key (newLoc s) (actionCloneLibrary s))
            (with_actions (<[newLoc s := cloneOf a]> (actions s)) s)).
Proof.
  intros Hkey Ha. unfold cloneAction, getAction. by rewrite Hkey, Ha.
Qed.

Lemma newLoc_fresh s : actions s !! newLoc s = None.
Proof. apply not_elem_of_dom. unfold newLoc. apply is_fresh. Qed.

(** X11: cloning a key twice gives two different actions, both copies of
    the action of the library, registered newest first in front of the
    clones there were; the action of the library comes last among the
    instances and is as it was. *)
Theorem cloneAction_twice (s : State) (key : QString) (action : loc) (a : QAction) :
  actionLibrary s !! key = Some action ->
  actions s !! action = Some a ->
  exists first s1 second s2,
    cloneAction key s = Some (Some first, s1)
    /\ cloneAction key s1 = Some (Some second, s2)
    /\ first <> second
    /\ actions s2 !! first = Some (cloneOf a)
    /\ actions s2 !! second = Some (cloneOf a)
    /\ getAllInstancesOfAction key s2
       = second :: first :: getAllClonesOfAction key s ++ [action]
    /\ actions s2 !! action = Some a.
Proof.
  intros Hkey Ha.
  pose proof (newLoc_fresh s) as Hfresh.
  assert (newLoc s <> action) as Hne by (intros Heq; congruence).
  eexists _, _. eexists _, _.
  split; [by apply (cloneAction_live key s action a)|].
  match goal with
  | |- cloneAction key ?s1 = _ /\ _ => set (s1' := s1)
  end.
  assert (actions s1' !! action = Some a) as Ha1.
  { unfold s1'. cbn [actions with_actions with_actionCloneLibrary].
    by rewrite lookup_insert_ne. }
  pose proof (newLoc_fresh s1') as Hfresh1.
  assert (actions s1' !! newLoc s = Some (cloneOf a)) as Hfirst.
  { unfold s1'. cbn [actions with_actions with_actionCloneLibrary].
    apply lookup_insert_eq. }
  split; [by apply (cloneAction_live key s1' action a)|].
  assert (newLoc s1' <> newLoc s) as Hne1 by (intros Heq; congruence).
  assert (newLoc s1' <> action) as Hne2 by (intros Heq; congruence).
  cbn [actions with_actions with_actionCloneLibrary].
  split_and!.
  - done.
  - by rewrite lookup_insert_ne.
  - apply lookup_insert_eq.
  - unfold getAllInstancesOfAction, getAction, getAllClonesOfAction.
    cbn [actionLibrary actionCloneLibrary with_actions with_actionCloneLibrary].
    rewrite Hkey. unfold s1', QMultiHash.insert, QMultiHash.values.
    cbn [actionCloneLibrary with_actions with_actionCloneLibrary].
    by rewrite !lookup_insert_eq.
  - by rewrite lookup_insert_ne.
Qed.

Lemma cloneAction_twice_witness :
  let s := @ActionManager linuxBuild pairCodec blank in
  exists first s1 second s2,
    cloneAction "zoomin" s = Some (Some first, s1)
    /\ cloneAction "zoomin" s1 = Some (Some second, s2)
    /\ first <> second.
Proof.
  intros s.
  destruct (actions s !! 14%positive) as [a|] eqn:Ha; [|by vm_compute in Ha].
  destruct (cloneAction_twice s "zoomin" 14%positive a)
    as (first & s1 & second & s2 & H1 & H2 & Hne & _);
    [by vm_compute|exact Ha|].
  exists first, s1, second, s2. exact (conj H1 (conj H2 Hne)).
Defined.

(** ** More on the dispatch *)

Section dispatch_more_facts.
Context `{Build} `{Application}.

Lemma closeAll_null :
Forall (fun c => isWindowCall c = false)
  (topLevelWindows ≫= (fun window =>
     if cocoaLoaded then [cocoaCloseWindow window; closeWindow window]
     else [closeWindow window])).
Proof.
induction topLevelWindows as [|w l IH]; [constructor|].
cbn [mbind list_bind]. apply Forall_app. split; [|exact IH].
destruct cocoaLoaded; by repeat constructor.
Qed.

Lemma windowlessPart_null key :
Forall (fun c => isWindowCall c = false) (windowlessPart key None).
Proof.
unfold windowlessPart.
repeat match goal with
  | |- context [String.eqb key ?k] => destruct (String.eqb key k)
  end;
  try apply closeAll_null; try destruct cocoaLoaded; by repeat constructor.
Qed.

Ltac eqb_absent Hnot :=
repeat match goal with
  | |- context [String.eqb ?key ?k] =>
      destruct (String.eqb_spec key k) as [->|_];
      [exfalso; apply Hnot; apply (bool_decide_unpack _); by vm_compute|]
  end.

Lemma windowlessPart_unknown key w :
key ∉ dispatchedKeys -> windowlessPart key w = [].
Proof. intros Hnot. unfold windowlessPart. by eqb_absent Hnot. Qed.

Lemma windowPart_unknown a key w :
key ∉ dispatchedKeys ->
startsWith key "recent" = false -> startsWith key "openwith" = false ->
windowPart a key w = Some [].
Proof.
intros Hnot Hrecent Hopenwith. unfold windowPart. rewrite Hrecent.
destruct (String.eqb_spec key "openwithother") as [->|_]; [done|].
rewrite Hopenwith. by eqb_absent Hnot.
Qed.

Ltac eqb_prefix Hprefix :=
repeat match goal with
  | |- context [String.eqb ?key ?k] =>
      destruct (String.eqb_spec key k) as [->|_];
      [by vm_compute in Hprefix|]
  end.

Lemma windowlessPart_openWith key w :
startsWith key "openwith" = true -> windowlessPart key w = [].
Proof. intros Hprefix. unfold windowlessPart. by eqb_prefix Hprefix. Qed.

Lemma startsWith_openwith_recent key :
startsWith key "openwith" = true -> startsWith key "recent" = false.
Proof.
unfold startsWith. destruct key as [|c key]; [done|].
cbn [String.prefix]. destruct (Ascii.ascii_dec "o" c) as [<-|]; [|done].
intros _. by destruct (Ascii.ascii_dec "r" "o").
Qed.
End dispatch_more_facts.

(** X16: without a window no method of a window is called, neither when
    the dispatch is given a null window nor when the application has no
    main window to give. *)
Theorem no_window_no_window_call `{Build} `{Application}
    (triggeredAction : QAction) (calls : list Call) :
  (actionTriggeredIn triggeredAction None = Some calls ->
   Forall (fun c => isWindowCall c = false) calls)
  /\ ((forall shouldBeEmpty, getMainWindow shouldBeEmpty = None) ->
      actionTriggered triggeredAction = Some calls ->
      Forall (fun c => isWindowCall c = false) calls).
Proof.
  assert (actionTriggeredIn triggeredAction None = Some calls ->
          Forall (fun c => isWindowCall c = false) calls) as Hnull.
  { unfold actionTriggeredIn.
    destruct (head _) as [key|]; [|done]. cbn [mbind option_bind].
    intros [= <-]. apply windowlessPart_null. }
  split; [exact Hnull|]. intros Hnone. unfold actionTriggered.
  destruct (head _) as [key|] eqn:Hkey; [|done]. cbn [mbind option_bind].
  destruct (existsb _ _); [exact Hnull|].
  rewrite Hnone. intros [= <-]. by repeat constructor.
Qed.

Lemma no_window_no_window_call_witness :
  Forall (fun c => isWindowCall c = false)
         [cocoaCloseWindow 7%nat; closeWindow 7%nat].
Proof.
  destruct (@no_window_no_window_call
              {| os := MacOS; cocoaLoaded := true |}
              {| getMainWindow _ := None; topLevelWindows := [7%nat] |}
              (setData (VStringList ["closeallwindows"]) (newQAction NullIcon ""))
              [cocoaCloseWindow 7%nat; closeWindow 7%nat]) as [Hnull _].
  apply Hnull. reflexivity.
Defined.

(** X17: an action whose key is none of the keys the dispatch knows, and
    starts with neither recent nor openwith, makes the dispatch call
    nothing, with or without a window. *)
Theorem unknown_key_calls_nothing `{Build} `{Application}
    (triggeredAction : QAction) (key : QString)
    (relevantWindow : option MainWindow) :
  head (Variant.toStringList (data triggeredAction)) = Some key ->
  key ∉ dispatchedKeys ->
  startsWith key "recent" = false -> startsWith key "openwith" = false ->
  actionTriggeredIn triggeredAction relevantWindow = Some [].
Proof.
  intros Hkey Hnot Hrecent Hopenwith. unfold actionTriggeredIn.
  rewrite Hkey. cbn [mbind option_bind].
  rewrite windowlessPart_unknown by done.
  destruct relevantWindow as [w|]; [|done].
  by rewrite windowPart_unknown.
Qed.

Lemma unknown_key_calls_nothing_witness :
  @actionTriggeredIn linuxBuild twoWindows
    (setData (VString "view") (newQAction NullIcon "&View"))
    (Some 1%nat)
  = Some [].
Proof.
  apply (@unknown_key_calls_nothing linuxBuild twoWindows _ "view").
  - reflexivity.
  - apply (bool_decide_unpack _). by vm_compute.
  - reflexivity.
  - reflexivity.
Defined.

(** ** The dispatch, key by key *)

Section dispatch_table_facts.
Context `{Build} `{Application}.

Lemma closeAll_closeEach :
topLevelWindows ≫= (fun window =>
  if cocoaLoaded then [cocoaCloseWindow window; closeWindow window]
  else [closeWindow window])
= closeEach cocoaLoaded topLevelWindows.
Proof.
induction topLevelWindows as [|w l IH]; [done|].
cbn [mbind list_bind closeEach foldr]. fold (closeEach cocoaLoaded l).
rewrite <- IH. by destruct cocoaLoaded.
Qed.

(** The two-argument dispatch of a key the source compares with, window
  or not: the calls of [windowlessPart], then those of [windowPart]. *)
Lemma actionTriggeredIn_key (triggeredAction : QAction) (key : QString)
  (relevantWindow : option MainWindow) :
head (Variant.toStringList (data triggeredAction)) = Some key ->
actionTriggeredIn triggeredAction relevantWindow
= match relevantWindow with
  | None => Some (windowlessPart key None)
  | Some w =>
      (windowlessPart key (Some w) ++.) <$> windowPart triggeredAction key w
  end.
Proof.
intros Hkey. unfold actionTriggeredIn. rewrite Hkey.
by destruct relevantWindow.
Qed.
End dispatch_table_facts.

(** C7: [actionTriggered] takes the first string of the data of the
    action as its key. For the keys newwindow, quit, clearrecents and
    open, and on macOS about, welcome and options, it asks for no window
    and runs the two-argument dispatch with a null window, which calls
    [newWindow], [quit], [clearRecentsList], [pickFile] and the dialogs,
    each with a null window. For every other key it asks the application
    for a main window, an empty one exactly when the key starts with
    recent or is openurl, calls nothing more when there is none, and
    runs the two-argument dispatch with the window it gets. With a
    window the key selects the calls: the keys of [windowMethods] the
    method listed with them, a slot key [openRecent] with the index of
    the slot, openwithother the open-with dialog, any other key that
    starts with openwith [openWith] with the second element of the data
    list, quit [close] of the window and then [quit], newwindow, open,
    clearrecents, options, about and welcome their application call
    with the window, closewindow the close of the active window, and
    closeallwindows the close of every top-level window in turn. *)
Theorem actionTriggered_dispatch `{Build} `{Application}
    (triggeredAction : QAction) (key : QString) :
  head (Variant.toStringList (data triggeredAction)) = Some key ->
  let windowless :=
    key ∈ ["newwindow"; "quit"; "clearrecents"; "open"]
    \/ (os = MacOS /\ key ∈ ["about"; "welcome"; "options"]) in
  let withNull := actionTriggeredIn triggeredAction None in
  let withWindow w := actionTriggeredIn triggeredAction (Some w) in
  (windowless -> actionTriggered triggeredAction = withNull)
  /\ (key = "newwindow" -> withNull = Some [newWindow])
  /\ (key = "quit" -> withNull = Some [quit])
  /\ (key = "clearrecents" -> withNull = Some [clearRecentsListCall])
  /\ (key = "open" -> withNull = Some [pickFile None])
  /\ (key = "about" -> withNull = Some [openAboutDialog None])
  /\ (key = "welcome" -> withNull = Some [openWelcomeDialog None])
  /\ (key = "options" -> withNull = Some [openOptionsDialog None])
  /\ (~ windowless ->
      let shouldBeEmpty :=
        bool_decide (startsWith key "recent" = true \/ key = "openurl") in
      actionTriggered triggeredAction =
        match getMainWindow shouldBeEmpty with
        | Some window =>
            (getMainWindowCall shouldBeEmpty ::.) <$> withWindow window
        | None => Some [getMainWindowCall shouldBeEmpty]
        end)
  /\ (forall w : MainWindow,
        (forall m : WindowMethod,
           (key, m) ∈ windowMethods -> withWindow w = Some [onWindow w m])
        /\ (forall i : nat,
              (i < 10)%nat -> key = recentKey i ->
              withWindow w = Some [onWindow w (openRecent (Z.of_nat i))])
        /\ (key = "openwithother" -> withWindow w = Some [showOpenWithDialog w])
        /\ (startsWith key "openwith" = true -> key <> "openwithother" ->
            withWindow w
            = (fun openWithItem => [onWindow w (openWith openWithItem)])
                <$> Variant.toList (data triggeredAction) !! 1%nat)
        /\ (key = "quit" -> withWindow w = Some [onWindow w close; quit])
        /\ (key = "newwindow" -> withWindow w = Some [newWindow])
        /\ (key = "open" -> withWindow w = Some [pickFile (Some w)])
        /\ (key = "clearrecents" -> withWindow w = Some [clearRecentsListCall])
        /\ (key = "options" -> withWindow w = Some [openOptionsDialog (Some w)])
        /\ (key = "about" -> withWindow w = Some [openAboutDialog (Some w)])
        /\ (key = "welcome" -> withWindow w = Some [openWelcomeDialog (Some w)])
        /\ (key = "closewindow" ->
            withWindow w
            = Some ((if cocoaLoaded then [cocoaCloseActiveWindow] else [])
                    ++ [closeActiveWindow]))
        /\ (key = "closeallwindows" ->
            withWindow w = Some (closeEach cocoaLoaded topLevelWindows))).
Proof.
  intros Hkey windowless withNull withWindow.
  assert (windowless <-> key ∈ windowlessActions) as Hiff.
  { unfold windowless, windowlessActions. rewrite elem_of_app.
    destruct os; rewrite ?elem_of_nil; intuition congruence. }
  assert (forall w, withWindow w
          = (windowlessPart key (Some w) ++.) <$> windowPart triggeredAction key w)
    as Hwith by (intros w; exact (actionTriggeredIn_key _ _ (Some w) Hkey)).
  assert (withNull = Some (windowlessPart key None)) as Hnull
    by exact (actionTriggeredIn_key _ _ None Hkey).
  clearbody withNull withWindow.
  split_and!; try (intros ->; rewrite Hnull; reflexivity).
  - intros Hw. unfold actionTriggered. rewrite Hkey. cbn [mbind option_bind].
    rewrite existsb_eqb_elem_of, bool_decide_eq_true_2; [|by apply Hiff].
    rewrite Hnull. exact (actionTriggeredIn_key _ _ None Hkey).
  - intros Hw shouldBeEmpty.
    unfold actionTriggered. rewrite Hkey. cbn [mbind option_bind].
    rewrite existsb_eqb_elem_of, bool_decide_eq_false_2; [|by rewrite <- Hiff].
    assert ((if startsWith key "recent" || String.eqb key "openurl"
             then true else false) = shouldBeEmpty) as ->.
    { unfold shouldBeEmpty.
      destruct (startsWith key "recent") eqn:Hprefix; cbn [orb].
      + rewrite bool_decide_eq_true_2; [done|by left].
      + destruct (String.eqb_spec key "openurl") as [->|Hne].
        * rewrite bool_decide_eq_true_2; [done|by right].
        * rewrite bool_decide_eq_false_2; [done|]. intros [?|?]; congruence. }
    destruct (getMainWindow shouldBeEmpty) as [window|]; [|done].
    rewrite Hwith. by rewrite <- (actionTriggeredIn_key _ _ (Some window) Hkey).
  - intros w. rewrite Hwith.
    split_and!; try (intros ->; reflexivity).
    + intros m Hm. unfold windowMethods in Hm.
      repeat (apply elem_of_cons in Hm as [Hm|Hm];
              [injection Hm as -> ->; reflexivity|]).
      by apply elem_of_nil in Hm.
    + intros i Hi ->.
      do 10 (destruct i as [|i]; [reflexivity|]). lia.
    + intros Hprefix Hother.
      rewrite windowlessPart_openWith by done. unfold windowPart.
      rewrite startsWith_openwith_recent by done.
      destruct (String.eqb_spec key "openwithother") as [->|_]; [done|].
      rewrite Hprefix. by destruct (Variant.toList _ !! 1%nat).
    + intros ->. cbn. by destruct cocoaLoaded.
    + intros ->. cbn. by rewrite closeAll_closeEach, app_nil_r.
Qed.

Lemma actionTriggered_dispatch_witness :
  @actionTriggered linuxBuild twoWindows
     (setData (VString "recent3") (newQAction NullIcon "Empty"))
  = Some [getMainWindowCall true; onWindow 2%nat (openRecent 3)]
  /\ @actionTriggered linuxBuild twoWindows
       (setData (VStringList ["quit"]) (newQAction NullIcon "&Quit"))
     = Some [quit]
  /\ @actionTriggeredIn linuxBuild twoWindows
       (setData (VStringList ["closeallwindows"]) (newQAction NullIcon ""))
       (Some 1%nat)
     = Some [closeWindow 1%nat; closeWindow 2%nat].
Proof.
  split_and!.
  - destruct (@actionTriggered_dispatch linuxBuild twoWindows
                (setData (VString "recent3") (newQAction NullIcon "Empty"))
                "recent3" eq_refl)
      as (_ & _ & _ & _ & _ & _ & _ & _ & Hwin & Hwith).
    rewrite Hwin.
    + transitivity
        ((getMainWindowCall true ::.)
           <$> @actionTriggeredIn linuxBuild twoWindows
                 (setData (VString "recent3") (newQAction NullIcon "Empty"))
                 (@Some MainWindow 2%nat)); [reflexivity|].
      destruct (Hwith 2%nat) as (_ & Hrecent & _).
      rewrite (Hrecent 3%nat); [reflexivity|lia|reflexivity].
    + intros [Hin|[Hos _]]; [|discriminate Hos].
      by repeat (apply elem_of_cons in Hin as [Hin|Hin]; [discriminate Hin|]);
         apply elem_of_nil in Hin.
  - destruct (@actionTriggered_dispatch linuxBuild twoWindows
                (setData (VStringList ["quit"]) (newQAction NullIcon "&Quit"))
                "quit" eq_refl)
      as (Hless & _ & Hquit & _).
    rewrite Hless.
    + apply Hquit. reflexivity.
    + left. apply elem_of_cons. right. apply list_elem_of_here.
  - destruct (@actionTriggered_dispatch linuxBuild twoWindows
                (setData (VStringList ["closeallwindows"]) (newQAction NullIcon ""))
                "closeallwindows" eq_refl)
      as (_ & _ & _ & _ & _ & _ & _ & _ & _ & Hwith).
    destruct (Hwith 1%nat) as (_ & _ & _ & _ & _ & _ & _ & _ & _ & _ & _ & _ & Hall).
    exact (Hall eq_refl).
Defined.

(** X18: a key that starts with openwith and is not openwithother hands
    the second element of the data list of the action to [openWith] of
    the window; the dispatch is outside the model when the data list has
    no second element. *)
Theorem openWith_dispatch `{Build} `{Application}
    (triggeredAction : QAction) (key : QString) (w : MainWindow) :
  head (Variant.toStringList (data triggeredAction)) = Some key ->
  startsWith key "openwith" = true -> key <> "openwithother" ->
  actionTriggeredIn triggeredAction (Some w)
  = (fun openWithItem => [onWindow w (openWith openWithItem)])
      <$> Variant.toList (data triggeredAction) !! 1%nat.
Proof.
  intros Hkey Hprefix Hother. unfold actionTriggeredIn.
  rewrite Hkey. cbn [mbind option_bind].
  rewrite windowlessPart_openWith by done. unfold windowPart.
  rewrite startsWith_openwith_recent by done.
  destruct (String.eqb_spec key "openwithother") as [->|_]; [done|].
  rewrite Hprefix. by destruct (Variant.toList _ !! 1%nat).
Qed.

Lemma openWith_dispatch_witness :
  @actionTriggeredIn linuxBuild twoWindows
    (setData (VList [VString "openwith0"; VUser "OpenWithItem" "gimp"])
             (newQAction NullIcon "GIMP"))
    (Some 1%nat)
  = Some [onWindow 1%nat (openWith (VUser "OpenWithItem" "gimp"))]
  /\ @actionTriggeredIn linuxBuild twoWindows
       (setData (VString "openwith0") (newQAction NullIcon "Empty"))
       (Some 1%nat)
     = None.
Proof.
  split.
  - by rewrite (@openWith_dispatch linuxBuild twoWindows _ "openwith0").
  - by rewrite (@openWith_dispatch linuxBuild twoWindows _ "openwith0").
Defined.

(** ** The action library as [initializeActionLibrary] leaves it *)

Section fold_alter_facts.
Context {K : Type}.
Variable F : K -> QAction -> QAction.
Variable L : K -> option loc.

Lemma fold_alter_other (ks : list K) (h : gmap loc QAction) (p : loc) :
(forall k, k ∈ ks -> L k <> Some p) ->
foldl (fun h k => match L k with Some v => alter (F k) v h | None => h end)
      h ks !! p
= h !! p.
Proof.
revert h. induction ks as [|k ks IH]; intros h Hp; [done|].
cbn [foldl]. rewrite IH.
- destruct (L k) as [v|] eqn:Hk; [|done]. apply lookup_alter_ne.
  intros ->. apply (Hp k); [apply elem_of_cons; by left|done].
- intros k' Hk'. apply Hp, elem_of_cons. by right.
Qed.

Lemma fold_alter_own (ks : list K) (h : gmap loc QAction) (k : K) (p : loc) :
NoDup ks -> k ∈ ks -> L k = Some p ->
(forall k', k' ∈ ks -> L k' = Some p -> k' = k) ->
foldl (fun h k => match L k with Some v => alter (F k) v h | None => h end)
      h ks !! p
= F k <$> h !! p.
Proof.
revert h. induction ks as [|k0 ks IH]; intros h Hnd Hk Hp Hinj;
  [by apply elem_of_nil in Hk|].
apply NoDup_cons in Hnd as [Hk0 Hnd]. cbn [foldl].
apply elem_of_cons in Hk as [<-|Hk].
- rewrite fold_alter_other.
  + rewrite Hp. apply lookup_alter_eq.
  + intros k' Hk' Hp'. apply Hk0. rewrite <- (Hinj k'); [done| |done].
    apply elem_of_cons. by right.
- rewrite IH; [|done..|].
  + f_equal. destruct (L k0) as [v|] eqn:Hv; [|done].
    apply lookup_alter_ne. intros ->. apply Hk0.
    rewrite (Hinj k0); [done| |done]. apply elem_of_cons. by left.
  + intros k' Hk'. apply Hinj, elem_of_cons. by right.
Qed.
End fold_alter_facts.

(** The first loop of [initializeActionLibrary] on a table whose keys
    differ: every action of the table is put at a new location under its
    key, no two keys share a location, and the actions there were stay. *)
Lemma insertActions_table (table done : list (QString * QAction)) (s0 s : State) :
  NoDup ((done ++ table).*1) ->
  dom (actions s0) ⊆ dom (actions s) ->
  (forall q, q ∈ dom (actions s0) -> actions s !! q = actions s0 !! q) ->
  (forall k p, actionLibrary s !! k = Some p ->
     k ∈ done.*1 /\ p ∈ dom (actions s) /\ p ∉ dom (actions s0)) ->
  (forall k1 k2 p, actionLibrary s !! k1 = Some p ->
     actionLibrary s !! k2 = Some p -> k1 = k2) ->
  (forall k a, (k, a) ∈ done ->
     exists p, actionLibrary s !! k = Some p /\ actions s !! p = Some a) ->
  let s' := foldl (fun s '(key, a) =>
                     let '(p, s') := allocAction a s in
                     with_actionLibrary (<[key := p]> (actionLibrary s')) s')
                  s table in
  (forall q, q ∈ dom (actions s0) -> actions s' !! q = actions s0 !! q)
  /\ (forall k p, actionLibrary s' !! k = Some p ->
        k ∈ (done ++ table).*1 /\ p ∈ dom (actions s') /\ p ∉ dom (actions s0))
  /\ (forall k1 k2 p, actionLibrary s' !! k1 = Some p ->
        actionLibrary s' !! k2 = Some p -> k1 = k2)
  /\ (forall k a, (k, a) ∈ done ++ table ->
        exists p, actionLibrary s' !! k = Some p /\ actions s' !! p = Some a).
Proof.
  revert done s. induction table as [|[key a] table IH];
    intros done s Hnd Hdom Hold Hlib Hinj Hdone; cbn [foldl].
  - rewrite app_nil_r in *. by split_and!.
  - replace (done ++ (key, a) :: table) with ((done ++ [(key, a)]) ++ table) in *
      by (by rewrite <- app_assoc).
    pose proof (newLoc_fresh s) as Hfresh.
    assert (key ∉ done.*1) as Hkey.
    { rewrite !fmap_app in Hnd. apply NoDup_app in Hnd as [Hnd _].
      apply NoDup_app in Hnd as (_ & Hdisj & _). intros Hin.
      apply (Hdisj key Hin). apply elem_of_cons. by left. }
    apply IH; cbn [allocAction actions actionLibrary with_actions
                   with_actionLibrary].
    + done.
    + rewrite dom_insert_L. etrans; [exact Hdom|apply union_subseteq_r].
    + intros q Hq. rewrite lookup_insert_ne; [by apply Hold|].
      intros <-. apply Hdom, elem_of_dom in Hq as [? ?]. congruence.
    + intros k p. rewrite fmap_app, elem_of_app, dom_insert_L.
      destruct (decide (key = k)) as [<-|Hne].
      * rewrite lookup_insert_eq. intros [= <-]. split_and!.
        -- right. apply elem_of_cons. by left.
        -- by apply elem_of_union_l, elem_of_singleton.
        -- intros Hq. apply Hdom, elem_of_dom in Hq as [? ?]. congruence.
      * rewrite lookup_insert_ne by done. intros Hk.
        destruct (Hlib k p Hk) as (? & ? & ?). split_and!; [by left| |done].
        by apply elem_of_union_r.
    + intros k1 k2 p.
      destruct (decide (key = k1)) as [<-|Hne1],
               (decide (key = k2)) as [<-|Hne2];
        rewrite ?lookup_insert_eq, ?lookup_insert_ne by done; [done| | |].
      * intros [= <-] Hk2. destruct (Hlib k2 _ Hk2) as (_ & Hlive & _).
        apply elem_of_dom in Hlive as [? ?]. congruence.
      * intros Hk1 [= <-]. destruct (Hlib k1 _ Hk1) as (_ & Hlive & _).
        apply elem_of_dom in Hlive as [? ?]. congruence.
      * apply Hinj.
    + intros k a' [Hin|Hin]%elem_of_app.
      * destruct (Hdone k a' Hin) as (p & Hk & Hp). exists p.
        assert (key <> k) as Hne.
        { intros <-. apply Hkey, list_elem_of_fmap. by exists (key, a'). }
        rewrite lookup_insert_ne by done. split; [done|].
        rewrite lookup_insert_ne; [done|]. intros <-. congruence.
      * apply elem_of_cons in Hin as [[= -> ->]|Hin];
          [|by apply elem_of_nil in Hin].
        exists (newLoc s). by rewrite !lookup_insert_eq.
Qed.

Section library_more_facts.
Context `{Build}.

Lemma libraryActions_keys_NoDup : NoDup (libraryActions.*1).
Proof. apply (bool_decide_unpack _). by vm_compute. Qed.

(** The closing loop of [initializeActionLibrary] changes the action
  heap only, by the action of each key it goes through. *)
Lemma keyActions_actions_from (lib : gmap QString loc) (keys : list QString)
  (s : State) :
actionLibrary s = lib ->
actionLibrary
  (foldl (fun s key =>
            match actionLibrary s !! key with
            | Some value => onAction value (keyAction key) s
            | None => s
            end) s keys) = lib
/\ actions
     (foldl (fun s key =>
               match actionLibrary s !! key with
               | Some value => onAction value (keyAction key) s
               | None => s
               end) s keys)
   = foldl (fun h key =>
              match lib !! key with
              | Some value => alter (keyAction key) value h
              | None => h
              end) (actions s) keys.
Proof.
revert s. induction keys as [|key keys IH]; intros s Hlib; [done|].
cbn [foldl]. rewrite Hlib.
destruct (lib !! key) as [value|] eqn:Hkey; by apply IH.
Qed.
End library_more_facts.

(** On a manager whose action library is empty,
    [initializeActionLibrary] puts every action of its table at a new
    location under its key, with the key put in front of its data and
    disabled when the last data string contains disable; it registers no
    other key and leaves the actions there were as they are. *)
Lemma initializeActionLibrary_table `{Build} (s : State) :
  actionLibrary s = ∅ ->
  let s' := initializeActionLibrary s in
  (forall key a, (key, a) ∈ libraryActions ->
     exists p, actionLibrary s' !! key = Some p
               /\ actions s !! p = None
               /\ actions s' !! p = Some (keyAction key a))
  /\ (forall key, key ∉ libraryActions.*1 -> actionLibrary s' !! key = None)
  /\ (forall q a, actions s !! q = Some a -> actions s' !! q = Some a).
Proof.
  intros Hempty s'. unfold s', initializeActionLibrary.
  destruct (insertActions_table libraryActions [] s s)
    as (Hold & Hlib & Hinj & Htable).
  { apply libraryActions_keys_NoDup. }
  { done. }
  { done. }
  { intros k p. by rewrite Hempty, lookup_empty. }
  { intros k1 k2 p. by rewrite Hempty, lookup_empty. }
  { intros k a Hin. by apply elem_of_nil in Hin. }
  cbn [app] in Hlib, Htable.
  match type of Hold with
  | context [foldl ?f s libraryActions] =>
      generalize dependent (foldl f s libraryActions)
  end.
  intros s1 Hold Hlib Hinj Htable.
  destruct (keyActions_actions_from (actionLibrary s1)
              (elements (dom (actionLibrary s1))) s1 eq_refl)
    as [Hlib2 Hactions2].
  rewrite Hlib2, Hactions2. split_and!.
  - intros key a Hin. destruct (Htable key a Hin) as (p & Hkey & Hp).
    exists p. destruct (Hlib key p Hkey) as (_ & _ & Hnew).
    split_and!; [done|by apply not_elem_of_dom|].
    rewrite (fold_alter_own keyAction (fun k => actionLibrary s1 !! k)
               _ _ key p).
    + by rewrite Hp.
    + apply NoDup_elements.
    + apply elem_of_elements, elem_of_dom. by exists p.
    + done.
    + intros k' _ Hk'. by apply (Hinj k' key p).
  - intros key Hkey. destruct (actionLibrary s1 !! key) as [p|] eqn:Hp; [|done].
    by destruct (Hlib key p Hp) as (? & _).
  - intros q a Hq.
    rewrite (fold_alter_other keyAction (fun k => actionLibrary s1 !! k)).
    + rewrite Hold; [done|]. apply elem_of_dom. by exists a.
    + intros k _ Hk. destruct (Hlib k q Hk) as (_ & _ & Hnew).
      apply Hnew, elem_of_dom. by exists a.
Qed.

Section constructed_facts.
Context `{Build} `{RecentsCodec}.

Lemma updateRecentsMenu_no_clones s :
actionCloneLibrary s = ∅ -> actions (updateRecentsMenu s) = actions s.
Proof.
intros Hempty. unfold updateRecentsMenu. cbn [actions emit with_emitted].
rewrite updateRecentSlots_actions.
induction (seq 0 (Z.to_nat (recentsListMaxLength s))) as [|i slots IH];
  [done|].
cbn [foldl]. unfold getAllClonesOfAction at 2, QMultiHash.values.
by rewrite Hempty, lookup_empty.
Qed.

Lemma loadRecentsList_no_clones s :
actionCloneLibrary s = ∅ -> actions (loadRecentsList s) = actions s.
Proof.
intros Hempty. unfold loadRecentsList. destruct (isActive _); [done|].
unfold auditRecentsList. by rewrite updateRecentsMenu_no_clones.
Qed.

(** The action library of a manager as constructed. *)
Lemma ActionManager_library_table s0 :
(forall key a, (key, a) ∈ libraryActions ->
   exists p, actionLibrary (ActionManager s0) !! key = Some p
             /\ actions s0 !! p = None
             /\ actions (ActionManager s0) !! p = Some (keyAction key a))
/\ (forall key, key ∉ libraryActions.*1 ->
      actionLibrary (ActionManager s0) !! key = None)
/\ (forall q a, actions s0 !! q = Some a ->
      actions (ActionManager s0) !! q = Some a).
Proof.
unfold ActionManager. cbv zeta.
match goal with
| |- context [initializeActionLibrary ?X] =>
    pose proof (initializeActionLibrary_table X eq_refl) as Htable;
    assert (actionCloneLibrary (initializeActionLibrary X) = ∅) as Hclones;
    [|cbv zeta in Htable;
      change (actions X) with (actions s0) in Htable;
      generalize dependent (initializeActionLibrary X)]
end.
{ unfold initializeActionLibrary.
  apply (foldl_inv (fun s' => actionCloneLibrary s' = ∅)).
  - apply (foldl_inv (fun s' => actionCloneLibrary s' = ∅)); [done|].
    by intros s' [key a] Hs'.
  - intros s' key Hs'. by destruct (actionLibrary s' !! key). }
intros s Htable Hclones.
match goal with
| |- context [loadRecentsList ?Y] =>
    destruct (keepsLibraries_loadRecentsList Y) as (_ & Hlib & _);
    rewrite Hlib; rewrite (loadRecentsList_no_clones Y) by exact Hclones
end.
exact Htable.
Qed.
End constructed_facts.

(** X14: in a manager as constructed every action of the table of
    [initializeActionLibrary] is a live action, new on the heap and
    registered under its key, whose data starts with that key; no other
    key is registered and the actions there were stay as they are. *)
Theorem ActionManager_library `{Build} `{RecentsCodec} (s0 : State)
    (key : QString) (a : QAction) :
  (key, a) ∈ libraryActions ->
  (exists p, actionLibrary (ActionManager s0) !! key = Some p
             /\ actions s0 !! p = None
             /\ actions (ActionManager s0) !! p = Some (keyAction key a)
             /\ head (Variant.toStringList (data (keyAction key a))) = Some key
             /\ icon (keyAction key a) = icon a /\ text (keyAction key a) = text a)
  /\ (forall other, other ∉ libraryActions.*1 ->
        actionLibrary (ActionManager s0) !! other = None)
  /\ (forall q old, actions s0 !! q = Some old ->
        actions (ActionManager s0) !! q = Some old).
Proof.
  intros Hin. destruct (ActionManager_library_table s0) as (Htable & Hnone & Hold).
  split_and!; [|exact Hnone|exact Hold].
  destruct (Htable key a Hin) as (p & Hkey & Hnew & Hp). exists p.
  split_and!; [done..| | |]; unfold keyAction; by destruct (contains _ _).
Qed.

Lemma ActionManager_library_witness :
  exists p,
    actionLibrary (@ActionManager linuxBuild pairCodec blank) !! "undo" = Some p
    /\ actions (@ActionManager linuxBuild pairCodec blank) !! p
       = Some (setEnabled false
                 (setData (VStringList ["undo"; "undodisable"])
                    (newQAction (fromTheme "edit-undo") "&Restore from Trash"))).
Proof.
  destruct (@ActionManager_library linuxBuild pairCodec blank "undo"
              (setData (VString "undodisable")
                 (newQAction (fromTheme "edit-undo") "&Restore from Trash")))
    as [(p & Hkey & _ & Hp & _) _].
  - by apply (list_elem_of_lookup_2 _ 9%nat).
  - exists p. split; [exact Hkey|]. etrans; [exact Hp|]. by vm_compute.
Defined.





(** ** What the recents operations leave of an action *)

Lemma sameCommand_refl a : sameCommand a a.
Proof. done. Qed.

Lemma keepsCommands_refl s : keepsCommands s s.
Proof. intros p a Ha. by exists a. Qed.

Lemma keepsCommands_trans s1 s2 s3 :
  keepsCommands s1 s2 -> keepsCommands s2 s3 -> keepsCommands s1 s3.
Proof.
  intros H12 H23 p a Ha. destruct (H12 p a Ha) as (a2 & Ha2 & (? & ? & ? & ?)).
  destruct (H23 p a2 Ha2) as (a3 & Ha3 & (? & ? & ? & ?)).
  exists a3. split; [done|]. unfold sameCommand. split_and!; congruence.
Qed.

Lemma keepsCommands_onAction q f s :
  (forall a, sameCommand a (f a)) -> keepsCommands s (onAction q f s).
Proof.
  intros Hf p a Ha. cbn [actions onAction with_actions].
  destruct (decide (q = p)) as [->|Hne].
  - rewrite lookup_alter_eq, Ha. by eexists.
  - rewrite lookup_alter_ne by done. by exists a.
Qed.

Lemma keepsCommands_same_actions s s' :
  actions s' = actions s -> keepsCommands s s'.
Proof. intros Heq p a Ha. exists a. by rewrite Heq. Qed.

Lemma keepsCommands_foldl {X} (step : State -> X -> State) l s :
  (forall s x, keepsCommands s (step s x)) -> keepsCommands s (foldl step s l).
Proof.
  intros Hstep. revert s. induction l as [|x l IH]; intros s; cbn [foldl].
  - apply keepsCommands_refl.
  - eapply keepsCommands_trans; [apply Hstep|apply IH].
Qed.

Section commands_facts.
Context `{Build} `{RecentsCodec}.

Lemma updateRecentAction_sameCommand l i a :
sameCommand a (updateRecentAction l i a).
Proof. unfold updateRecentAction. by case_bool_decide. Qed.

Lemma keepsCommands_updateRecentsMenu s : keepsCommands s (updateRecentsMenu s).
Proof.
unfold updateRecentsMenu.
eapply keepsCommands_trans; [|by apply keepsCommands_same_actions].
apply keepsCommands_foldl. intros s1 i. unfold updateRecentSlot.
apply keepsCommands_foldl. intros s2 p. apply keepsCommands_onAction.
intros a. apply updateRecentAction_sameCommand.
Qed.

Lemma keepsCommands_auditRecentsList s : keepsCommands s (auditRecentsList s).
Proof.
unfold auditRecentsList.
eapply keepsCommands_trans; [|apply keepsCommands_updateRecentsMenu].
by apply keepsCommands_same_actions.
Qed.

Lemma keepsCommands_saveRecentsList s : keepsCommands s (saveRecentsList s).
Proof.
unfold saveRecentsList. cbv zeta.
eapply keepsCommands_trans; [apply keepsCommands_auditRecentsList|].
by apply keepsCommands_same_actions.
Qed.

Lemma keepsCommands_loadRecentsList s : keepsCommands s (loadRecentsList s).
Proof.
unfold loadRecentsList. destruct (isActive _); [apply keepsCommands_refl|].
eapply keepsCommands_trans; [|apply keepsCommands_auditRecentsList].
by apply keepsCommands_same_actions.
Qed.

Lemma keepsCommands_addFileToRecentsList file s :
keepsCommands s (addFileToRecentsList file s).
Proof.
rewrite addFileToRecentsList_frame.
eapply keepsCommands_trans; [|by apply keepsCommands_same_actions].
eapply keepsCommands_trans; [|apply keepsCommands_auditRecentsList].
by apply keepsCommands_same_actions.
Qed.

Lemma keepsCommands_clearRecentsList s : keepsCommands s (clearRecentsList s).
Proof.
unfold clearRecentsList.
eapply keepsCommands_trans; [|apply keepsCommands_saveRecentsList].
by apply keepsCommands_same_actions.
Qed.

Lemma keepsCommands_settingsUpdated s : keepsCommands s (settingsUpdated s).
Proof.
unfold settingsUpdated. cbv zeta.
match goal with
| |- context [foldl ?f ?a ?l] =>
    assert (keepsCommands s (foldl f a l)) as Hm
end.
{ eapply keepsCommands_trans; [|apply keepsCommands_foldl].
  - by apply keepsCommands_same_actions.
  - intros s' m. destruct (menus s' !! m); [|apply keepsCommands_refl].
    by apply keepsCommands_onAction. }
destruct (negb _); [|done].
eapply keepsCommands_trans; [exact Hm|apply keepsCommands_clearRecentsList].
Qed.
End commands_facts.

(** X19: the operations on the recents list delete no action and leave
    the data, and so the key, the shortcuts, the menu role and the
    icon-in-menu setting of every action as they were: what they set is
    the icon, the text and the visibility. *)
Theorem recents_keep_commands `{Build} `{RecentsCodec}
    (s : State) (file : SRecent) :
  Forall (fun operation : State -> State => keepsCommands s (operation s))
         [updateRecentsMenu; auditRecentsList; saveRecentsList;
          loadRecentsList; addFileToRecentsList file; clearRecentsList;
          settingsUpdated].
Proof.
  repeat apply Forall_cons_2; [..|apply Forall_nil_2].
  - apply keepsCommands_updateRecentsMenu.
  - apply keepsCommands_auditRecentsList.
  - apply keepsCommands_saveRecentsList.
  - apply keepsCommands_loadRecentsList.
  - apply keepsCommands_addFileToRecentsList.
  - apply keepsCommands_clearRecentsList.
  - apply keepsCommands_settingsUpdated.
Qed.

(** ** What [buildRecentsMenu] builds *)

Lemma heapGrows_refl s : heapGrows s s.
Proof. by split. Qed.

Lemma heapGrows_trans s1 s2 s3 :
  heapGrows s1 s2 -> heapGrows s2 s3 -> heapGrows s1 s3.
Proof. intros [L1 G1] [L2 G2]. split; [congruence|]. intros q a Ha. auto. Qed.

Lemma heapGrows_alloc a s : heapGrows s (allocAction a s).2.
Proof.
  split; [done|]. intros q old Hq. cbn [allocAction snd actions with_actions].
  rewrite lookup_insert_ne; [done|]. intros <-.
  pose proof (newLoc_fresh s). congruence.
Qed.

Lemma libraryLive_grows s s' : libraryLive s -> heapGrows s s' -> libraryLive s'.
Proof.
  intros Hlive [Hlib Hgrow] key p Hp. rewrite Hlib in Hp.
  destruct (Hlive key p Hp) as [a Ha]. exists a. by apply Hgrow.
Qed.

Lemma None_grows s s' p :
  heapGrows s s' -> actions s' !! p = None -> actions s !! p = None.
Proof.
  intros [_ Hgrow] Hnone. destruct (actions s !! p) as [a|] eqn:Ha; [|done].
  rewrite (Hgrow p a Ha) in Hnone. done.
Qed.

(** One round of the loop of [buildRecentsMenu]: a new hidden action for
    the slot, registered under the key of the slot. *)
Lemma buildRecentSlot_result recentsMenu s i :
  exists s',
    buildRecentSlot recentsMenu s i = Some s'
    /\ heapGrows s s'
    /\ menuCloneLibrary s' = menuCloneLibrary s
    /\ actionCloneLibrary s'
       = QMultiHash.insert (recentKey i) (newLoc s) (actionCloneLibrary s)
    /\ actions s' !! newLoc s = Some (newRecentAction i).
Proof.
  eexists. split; [reflexivity|]. split_and!; [|done|done|].
  - split; [done|]. intros q a Hq.
    cbn [allocAction addAction onMenu actions with_actions with_menus
         with_actionCloneLibrary].
    rewrite lookup_insert_ne; [done|]. intros <-.
    pose proof (newLoc_fresh s). congruence.
  - cbn [allocAction addAction onMenu actions with_actions with_menus
         with_actionCloneLibrary]. apply lookup_insert_eq.
Qed.

Lemma getAllClonesOfAction_insert key k p s s' :
  actionCloneLibrary s' = QMultiHash.insert k p (actionCloneLibrary s) ->
  getAllClonesOfAction key s'
  = if decide (k = key) then p :: getAllClonesOfAction key s
    else getAllClonesOfAction key s.
Proof.
  intros Hlib. unfold getAllClonesOfAction, QMultiHash.values.
  rewrite Hlib. unfold QMultiHash.insert, QMultiHash.values.
  destruct (decide (k = key)) as [->|Hne].
  - by rewrite lookup_insert_eq.
  - by rewrite lookup_insert_ne.
Qed.

(** The loop of [buildRecentsMenu] over slots that differ: it does not
    fail, and every slot has one clone more, new and hidden. *)
Lemma forEach_slots recentsMenu (slots : list nat) s :
  NoDup slots ->
  exists s',
    forEach (buildRecentSlot recentsMenu) s slots = Some s'
    /\ heapGrows s s'
    /\ menuCloneLibrary s' = menuCloneLibrary s
    /\ (forall key, key ∉ recentKey <$> slots ->
          getAllClonesOfAction key s' = getAllClonesOfAction key s)
    /\ (forall i, i ∈ slots ->
          exists p,
            getAllClonesOfAction (recentKey i) s'
            = p :: getAllClonesOfAction (recentKey i) s
            /\ actions s !! p = None
            /\ actions s' !! p = Some (newRecentAction i)).
Proof.
  revert s. induction slots as [|i0 slots IH]; intros s Hnd.
  - exists s. split_and!; [done|apply heapGrows_refl|done|done|].
    intros i Hi. by apply elem_of_nil in Hi.
  - apply NoDup_cons in Hnd as [Hi0 Hnd]. cbn [forEach].
    destruct (buildRecentSlot_result recentsMenu s i0)
      as (s1 & -> & Hgrow1 & Hmenus1 & Hlib1 & Hnew1).
    cbn [mbind option_bind].
    destruct (IH s1 Hnd) as (s' & -> & Hgrow & Hmenus & Hother & Hslots).
    exists s'. split_and!; [done|by eapply heapGrows_trans|congruence| |].
    + intros key Hkey. rewrite fmap_cons, not_elem_of_cons in Hkey.
      destruct Hkey as [Hne Hkey]. rewrite Hother by done.
      rewrite (getAllClonesOfAction_insert key _ _ s s1 Hlib1).
      by destruct (decide (recentKey i0 = key)).
    + intros i [->|Hi]%elem_of_cons.
      * exists (newLoc s). split_and!.
        -- rewrite Hother.
           ++ rewrite (getAllClonesOfAction_insert _ _ _ s s1 Hlib1).
              by destruct (decide (recentKey i0 = recentKey i0)).
           ++ intros (j & Heq & Hj)%list_elem_of_fmap.
              apply recentKey_inj in Heq as ->. done.
        -- apply newLoc_fresh.
        -- by apply (proj2 Hgrow).
      * destruct (Hslots i Hi) as (p & Hclones & Hnone & Hp). exists p.
        split_and!; [|by eapply None_grows|done].
        rewrite Hclones.
        rewrite (getAllClonesOfAction_insert _ _ _ s s1 Hlib1).
        destruct (decide (recentKey i0 = recentKey i)) as [Heq|]; [|done].
        apply recentKey_inj in Heq as ->. done.
Qed.

(** [cloneAction] does not fail while the actions of the library are
    live; it touches the clones of its key only. *)
Lemma cloneAction_grows key s :
  libraryLive s ->
  exists clone s',
    cloneAction key s = Some (clone, s')
    /\ heapGrows s s'
    /\ menuCloneLibrary s' = menuCloneLibrary s
    /\ menus s' = menus s
    /\ (forall k, k <> key ->
          getAllClonesOfAction k s' = getAllClonesOfAction k s).
Proof.
  intros Hlive. unfold cloneAction, getAction.
  destruct (actionLibrary s !! key) as [action|] eqn:Hkey.
  - destruct (Hlive key action Hkey) as [a Ha]. rewrite Ha.
    cbn [mbind option_bind allocAction]. eexists _, _.
    split; [reflexivity|]. split_and!; [|done|done|].
    + split; [done|]. intros q old Hq.
      cbn [actions with_actions with_actionCloneLibrary].
      rewrite lookup_insert_ne; [done|]. intros <-.
      pose proof (newLoc_fresh s). congruence.
    + intros k Hk.
      erewrite (getAllClonesOfAction_insert k key); [|reflexivity].
      destruct (decide (key = k)); [congruence|done].
  - exists None, s. split_and!; [done|apply heapGrows_refl|done..].
Qed.

Section build_facts.
Context `{Build} `{RecentsCodec}.

Lemma settingsUpdated_menuCloneLibrary s :
menuCloneLibrary (settingsUpdated s) = menuCloneLibrary s.
Proof.
unfold settingsUpdated. cbv zeta.
match goal with
| |- context [foldl ?f ?a ?l] =>
    pose proof (settingsUpdated_menus_onlyActions a l) as Hm;
    generalize dependent (foldl f a l)
end.
intros s2 Hm. unfold onlyActions in Hm.
destruct (negb _); [|by rewrite Hm].
unfold clearRecentsList. rewrite saveRecentsList_shape. by rewrite Hm.
Qed.

(** What [buildRecentsMenu] returns on a manager whose library actions
  are live. *)
Lemma buildRecentsMenu_result includeClearAction s :
libraryLive s ->
exists recentsMenu s',
  buildRecentsMenu includeClearAction s = Some (recentsMenu, s')
  /\ menus s !! recentsMenu = None
  /\ actionLibrary s' = actionLibrary s
  /\ dom (actions s) ⊆ dom (actions s')
  /\ QMultiHash.values (menuCloneLibrary s') "recents"
     = recentsMenu :: QMultiHash.values (menuCloneLibrary s) "recents"
  /\ (forall i, Z.of_nat i < recentsListMaxLength s ->
        exists p a,
          getAllClonesOfAction (recentKey i) s'
          = p :: getAllClonesOfAction (recentKey i) s
          /\ actions s !! p = None
          /\ actions s' !! p = Some a
          /\ data a = VString (recentKey i)).
Proof.
intros Hlive. unfold buildRecentsMenu, newQMenu, allocAction.
cbv beta iota zeta. cbn [menus with_menus with_actions].
rewrite lookup_insert_eq. cbn [mbind option_bind menuAction].
match goal with
| |- context [forEach ?b ?s4 ?l] =>
    destruct (forEach_slots (fresh (dom (menus s))) l s4 (NoDup_seq _ _))
      as (s5 & Hloop & Hgrow5 & Hmenus5 & Hother5 & Hslots5);
    assert (heapGrows s s4) as Hgrow4;
    [|assert (actions s4 !! newLoc s
              = Some (setIcon (fromTheme "document-open-recent")
                        (setData (VString "recents")
                           (newQAction NullIcon (tr "Open &Recent")))))
        as Hma4;
      [|assert (menuCloneLibrary s4 = menuCloneLibrary s
                /\ actionCloneLibrary s4 = actionCloneLibrary s
                /\ recentsListMaxLength s4 = recentsListMaxLength s)
          as (Hmcl4 & Hcl4 & Hmax4) by done;
        generalize dependent s4]]
end.
{ split; [done|]. intros q a Hq.
  cbn [actions onMenu onAction with_actions with_menus].
  rewrite !lookup_alter_ne, lookup_insert_ne; [done|..];
    intros <-; pose proof (newLoc_fresh s); congruence. }
{ cbn [actions onMenu onAction with_actions with_menus].
  by rewrite !lookup_alter_eq, lookup_insert_eq. }
intros s4 Hloop Hgrow5 Hmenus5 Hother5 Hslots5 Hgrow4 Hma4 Hmcl4 Hcl4 Hmax4.
rewrite Hmax4 in *. rewrite Hloop. cbn [mbind option_bind].
match goal with
| |- context [if includeClearAction then ?a else ?b] =>
    assert (exists s6,
               (if includeClearAction then a else b) = Some s6
               /\ heapGrows s5 s6
               /\ menuCloneLibrary s6 = menuCloneLibrary s5
               /\ (forall i, getAllClonesOfAction (recentKey i) s6
                             = getAllClonesOfAction (recentKey i) s5))
      as (s6 & -> & Hgrow6 & Hmenus6 & Hclones6)
end.
{ destruct includeClearAction.
  - destruct (cloneAction_grows "clearrecents"
                (onMenu (fresh (dom (menus s))) (addItem ItemSeparator) s5))
      as (clone & s5'' & -> & Hg & Hm & _ & Hc).
    { eapply libraryLive_grows; [exact Hlive|].
      eapply heapGrows_trans; [exact Hgrow4|].
      eapply heapGrows_trans; [exact Hgrow5|]. by split. }
    cbn [mbind option_bind]. eexists. split; [reflexivity|].
    split_and!.
    + eapply heapGrows_trans;
        [|eapply heapGrows_trans; [exact Hg|by destruct clone]].
      by split.
    + by destruct clone.
    + intros i.
      transitivity (getAllClonesOfAction (recentKey i) s5''); [by destruct clone|].
      by rewrite Hc.
  - exists s5. split_and!; [done|apply heapGrows_refl|done..]. }
cbn [mbind option_bind].
assert (heapGrows s s6) as Hgrow.
{ eapply heapGrows_trans; [exact Hgrow4|].
  eapply heapGrows_trans; [exact Hgrow5|exact Hgrow6]. }
rewrite (proj2 Hgrow6 _ _ (proj2 Hgrow5 _ _ Hma4)).
cbn [mbind option_bind data setIcon setData Variant.toString].
eexists _, _. split; [reflexivity|].
match goal with
| |- context [settingsUpdated (updateRecentsMenu ?s7')] => set (s7 := s7')
end.
pose proof (keepsLibraries_trans _ _ _
              (keepsLibraries_updateRecentsMenu s7)
              (keepsLibraries_settingsUpdated (updateRecentsMenu s7)))
  as (Hcl & Hlib & Hdom).
pose proof (keepsCommands_trans _ _ _
              (keepsCommands_updateRecentsMenu s7)
              (keepsCommands_settingsUpdated (updateRecentsMenu s7)))
  as Hcommands.
split_and!.
- apply not_elem_of_dom, is_fresh.
- rewrite Hlib. exact (proj1 Hgrow).
- etrans; [|exact Hdom]. intros q [a Hq]%elem_of_dom.
  apply elem_of_dom. exists a. by apply (proj2 Hgrow).
- rewrite settingsUpdated_menuCloneLibrary.
  rewrite (updateRecentsMenu_frame s7).
  cbn [menuCloneLibrary with_emitted with_actions]. unfold s7.
  cbn [menuCloneLibrary with_menuCloneLibrary].
  unfold QMultiHash.insert, QMultiHash.values. rewrite lookup_insert_eq.
  cbn [default from_option id]. by rewrite Hmenus6, Hmenus5, Hmcl4.
- intros i Hi.
  destruct (Hslots5 i) as (p & Hclones & Hnone & Hp);
    [apply elem_of_seq; lia|].
  destruct (Hcommands p (newRecentAction i)) as (a & Ha & Hdata & _).
  { unfold s7. cbn [actions with_menuCloneLibrary]. by apply (proj2 Hgrow6). }
  exists p, a.
  split_and!; [|exact (None_grows _ _ _ Hgrow4 Hnone)|done|by rewrite Hdata].
  unfold getAllClonesOfAction in *. rewrite Hcl. unfold s7.
  cbn [actionCloneLibrary with_menuCloneLibrary].
  by rewrite Hclones6, Hclones, Hcl4.
Qed.
End build_facts.

(** X12: on a manager whose library actions are live [buildRecentsMenu]
    does not fail; the menu it returns is a new one, it is the first
    menu registered under recents, and the action library and the
    actions there were are kept. *)
Theorem buildRecentsMenu_registers `{Build} `{RecentsCodec}
    (includeClearAction : bool) (s : State) :
  libraryLive s ->
  exists recentsMenu s',
    buildRecentsMenu includeClearAction s = Some (recentsMenu, s')
    /\ menus s !! recentsMenu = None
    /\ QMultiHash.values (menuCloneLibrary s') "recents"
       = recentsMenu :: QMultiHash.values (menuCloneLibrary s) "recents"
    /\ actionLibrary s' = actionLibrary s
    /\ dom (actions s) ⊆ dom (actions s').
Proof.
  intros Hlive.
  destruct (buildRecentsMenu_result includeClearAction s Hlive)
    as (recentsMenu & s' & Hbuild & Hnew & Hlib & Hdom & Hmenus & _).
  by exists recentsMenu, s'.
Qed.

Lemma buildRecentsMenu_registers_witness :
  let s := @ActionManager linuxBuild pairCodec blank in
  exists recentsMenu s',
    @buildRecentsMenu linuxBuild pairCodec true s = Some (recentsMenu, s')
    /\ QMultiHash.values (menuCloneLibrary s') "recents" = [recentsMenu].
Proof.
  intros s.
  destruct (@buildRecentsMenu_registers linuxBuild pairCodec true s)
    as (recentsMenu & s' & Hbuild & _ & Hmenus & _).
  - apply ActionManager_libraryLive.
  - exists recentsMenu, s'. split; [exact Hbuild|].
    etrans; [exact Hmenus|]. by vm_compute.
Defined.

(** X13: the menu [buildRecentsMenu] returns comes with one new action
    for each slot below [recentsListMaxLength]: the action is put in
    front of the clones of the key of the slot, it was not on the heap
    before, and its data is that key. *)
Theorem buildRecentsMenu_slots `{Build} `{RecentsCodec}
    (includeClearAction : bool) (s : State) (i : nat) :
  libraryLive s ->
  Z.of_nat i < recentsListMaxLength s ->
  exists recentsMenu s' p a,
    buildRecentsMenu includeClearAction s = Some (recentsMenu, s')
    /\ getAllClonesOfAction (recentKey i) s'
       = p :: getAllClonesOfAction (recentKey i) s
    /\ actions s !! p = None
    /\ actions s' !! p = Some a
    /\ data a = VString (recentKey i).
Proof.
  intros Hlive Hi.
  destruct (buildRecentsMenu_result includeClearAction s Hlive)
    as (recentsMenu & s' & Hbuild & _ & _ & _ & _ & Hslots).
  destruct (Hslots i Hi) as (p & a & Hp). by exists recentsMenu, s', p, a.
Qed.

Lemma buildRecentsMenu_slots_witness :
  let s := @ActionManager linuxBuild pairCodec blank in
  exists recentsMenu s' p a,
    @buildRecentsMenu linuxBuild pairCodec false s = Some (recentsMenu, s')
    /\ getAllClonesOfAction "recent9" s' = [p]
    /\ actions s' !! p = Some a
    /\ data a = VString "recent9".
Proof.
  intros s.
  destruct (@buildRecentsMenu_slots linuxBuild pairCodec false s 9)
    as (recentsMenu & s' & p & a & Hbuild & Hclones & _ & Hp & Hdata).
  - apply ActionManager_libraryLive.
  - by vm_compute.
  - exists recentsMenu, s', p, a. split; [exact Hbuild|].
    split; [|exact (conj Hp Hdata)].
    etrans; [exact Hclones|]. by vm_compute.
Defined.

(** ** The view, tools and help menus *)

Lemma entryBuilt_new s s' entries its clone :
  Forall2 (entryBuilt s s') entries its ->
  clone ∈ itemActions its -> actions s !! clone = None.
Proof.
  induction 1 as [|entry item entries its Hbuilt _ IH]; intros Hin.
  - by apply elem_of_nil in Hin.
  - unfold itemActions in Hin. cbn [omap list_omap] in Hin.
    destruct item as [c|].
    + apply elem_of_cons in Hin as [->|Hin]; [|by apply IH].
      destruct entry; [by destruct Hbuilt|done].
    + by apply IH.
Qed.

Lemma entryBuilt_from s0 s s' entry item :
  libraryLive s0 -> heapGrows s0 s ->
  entryBuilt s s' entry item -> entryBuilt s0 s' entry item.
Proof.
  intros Hlive Hgrow. destruct entry as [key|], item as [clone|]; try done.
  intros (Hnew & Hclone & p & a & Hkey & Hp & Hcopy).
  split_and!; [by eapply None_grows|done|].
  rewrite (proj1 Hgrow) in Hkey. destruct (Hlive key p Hkey) as [a0 Ha0].
  exists p, a0. split_and!; [done..|].
  rewrite (proj2 Hgrow p a0 Ha0) in Hp. congruence.
Qed.

Lemma entryBuilt_to s s' s'' entry item :
  heapGrows s' s'' ->
  (forall k c, c ∈ getAllClonesOfAction k s' -> c ∈ getAllClonesOfAction k s'') ->
  entryBuilt s s' entry item -> entryBuilt s s'' entry item.
Proof.
  intros Hgrow Hclones. destruct entry as [key|], item as [clone|]; try done.
  intros (Hnew & Hclone & p & a & Hkey & Hp & Hcopy).
  split_and!; [done|by apply Hclones|].
  exists p, a. split_and!; [done..|]. by apply (proj2 Hgrow).
Qed.

(** The entries of a builder, one after the other, on a menu [m]. *)
Lemma addEntries_result menu entries s m :
  libraryLive s ->
  (forall key, Some key ∈ entries -> is_Some (actionLibrary s !! key)) ->
  menus s !! menu = Some m ->
  exists s' its,
    forEach (addEntry menu) s entries = Some s'
    /\ heapGrows s s'
    /\ menuCloneLibrary s' = menuCloneLibrary s
    /\ (forall k c, c ∈ getAllClonesOfAction k s ->
          c ∈ getAllClonesOfAction k s')
    /\ menus s' !! menu
       = Some (mkQMenu (menuAction m) (items m ++ its) (aboutToShow m))
    /\ (forall other, other <> menu -> menus s' !! other = menus s !! other)
    /\ Forall2 (entryBuilt s s') entries its
    /\ NoDup (itemActions its).
Proof.
  revert s m. induction entries as [|entry entries IH]; intros s m Hlive Hkeys Hm.
  - exists s, []. split_and!; [done|apply heapGrows_refl|done|done| |done| |].
    + rewrite app_nil_r. by destruct m.
    + constructor.
    + constructor.
  - destruct entry as [key|]; cbn [forEach addEntry].
    + destruct (Hkeys key) as [p Hkey]; [apply list_elem_of_here|].
      destruct (Hlive key p Hkey) as [a Ha].
      unfold addClone. rewrite (cloneAction_live key s p a Hkey Ha).
      cbn [mbind option_bind addAction].
      match goal with
      | |- context [forEach _ ?s2' _] => set (s2 := s2')
      end.
      assert (heapGrows s s2) as Hgrow2.
      { split; [done|]. intros q old Hq. unfold s2.
        cbn [actions onMenu with_menus with_actions with_actionCloneLibrary].
        rewrite lookup_insert_ne; [done|]. intros <-.
        pose proof (newLoc_fresh s). congruence. }
      assert (actions s2 !! newLoc s = Some (cloneOf a)) as Hclone2.
      { unfold s2.
        cbn [actions onMenu with_menus with_actions with_actionCloneLibrary].
        apply lookup_insert_eq. }
      assert (menus s2 !! menu = Some (addItem (ItemAction (newLoc s)) m)) as Hm2.
      { unfold s2, onMenu.
        cbn [menus with_menus with_actions with_actionCloneLibrary].
        by rewrite lookup_alter_eq, Hm. }
      assert (forall other, other <> menu -> menus s2 !! other = menus s !! other)
        as Hother2.
      { intros other Hne. unfold s2, onMenu.
        cbn [menus with_menus with_actions with_actionCloneLibrary].
        by rewrite lookup_alter_ne. }
      assert (forall k, getAllClonesOfAction k s2
                        = if decide (key = k)
                          then newLoc s :: getAllClonesOfAction k s
                          else getAllClonesOfAction k s) as Hclones2.
      { intros k. by apply getAllClonesOfAction_insert. }
      assert (menuCloneLibrary s2 = menuCloneLibrary s) as Hmcl2 by done.
      clearbody s2.
      destruct (IH s2 (addItem (ItemAction (newLoc s)) m))
        as (s' & its & -> & Hgrow & Hmcl & Hclones & Hm' & Hother & Hbuilt & Hnd).
      { by eapply libraryLive_grows. }
      { intros k Hk. rewrite (proj1 Hgrow2). apply Hkeys. by right. }
      { done. }
      exists s', (ItemAction (newLoc s) :: its). split_and!.
      * done.
      * by eapply heapGrows_trans.
      * congruence.
      * intros k c Hc. apply Hclones. rewrite Hclones2.
        destruct (decide (key = k)); [by right|done].
      * rewrite Hm'. cbn [addItem menuAction items aboutToShow].
        by rewrite <- app_assoc.
      * intros other Hne. by rewrite Hother, Hother2.
      * constructor.
        -- split_and!; [apply newLoc_fresh| |].
           ++ apply Hclones. rewrite Hclones2.
              destruct (decide (key = key)); [apply list_elem_of_here|done].
           ++ exists p, a. split_and!; [done..|]. by apply (proj2 Hgrow).
        -- eapply Forall2_impl; [exact Hbuilt|].
           intros e it. by apply entryBuilt_from.
      * unfold itemActions. cbn [omap list_omap]. apply NoDup_cons. split; [|done].
        intros Hin. pose proof (entryBuilt_new _ _ _ _ _ Hbuilt Hin). congruence.
    + cbn [mbind option_bind].
      destruct (IH (addSeparator menu s) (addItem ItemSeparator m))
        as (s' & its & -> & Hgrow & Hmcl & Hclones & Hm' & Hother & Hbuilt & Hnd).
      { eapply libraryLive_grows; [exact Hlive|by split]. }
      { intros k Hk. apply Hkeys. by right. }
      { unfold addSeparator, onMenu. cbn [menus with_menus].
        by rewrite lookup_alter_eq, Hm. }
      exists s', (ItemSeparator :: its). split_and!.
      * done.
      * eapply heapGrows_trans; [|exact Hgrow]. by split.
      * done.
      * done.
      * rewrite Hm'. cbn [addItem menuAction items aboutToShow].
        by rewrite <- app_assoc.
      * intros other Hne. rewrite Hother by done.
        unfold addSeparator, onMenu. cbn [menus with_menus].
        by rewrite lookup_alter_ne.
      * constructor; [done|].
        eapply Forall2_impl; [exact Hbuilt|].
        intros e it. apply entryBuilt_from; [done|by split].
      * done.
Qed.

(** What the common shape of the three builders returns while the
    library actions are live and hold every key of the entries. *)
Lemma buildMenuFrom_result title key menuIcon entries s :
  libraryLive s ->
  (forall k, Some k ∈ entries -> is_Some (actionLibrary s !! k)) ->
  exists menu s',
    buildMenuFrom title key menuIcon entries s = Some (menu, s')
    /\ menuBuilt title key (default NullIcon menuIcon) entries s menu s'.
Proof.
  intros Hlive Hkeys. unfold buildMenuFrom, newQMenu, allocAction.
  cbv beta iota zeta. cbn [menus with_menus with_actions].
  rewrite lookup_insert_eq. cbn [mbind option_bind menuAction].
  pose proof (newLoc_fresh s) as Hfresh.
  match goal with
  | |- context [forEach _ ?s3' _] => set (s3 := s3')
  end.
  assert (heapGrows s s3) as Hgrow3.
  { split; [by destruct menuIcon|]. intros q a Hq.
    assert (q <> newLoc s) as Hne by congruence.
    unfold s3, onAction.
    destruct menuIcon; cbn [actions with_actions with_menus];
      by rewrite ?lookup_alter_ne, lookup_insert_ne. }
  assert (actions s3 !! newLoc s
          = Some (setIcon (default NullIcon menuIcon)
                    (setData (VString key) (newQAction NullIcon title))))
    as Hma3.
  { unfold s3, onAction.
    destruct menuIcon; cbn [actions with_actions with_menus];
      by rewrite ?lookup_alter_eq, lookup_insert_eq. }
  assert (menus s3 !! fresh (dom (menus s))
          = Some (mkQMenu (newLoc s) [] [])) as Hm3.
  { unfold s3, onAction.
    destruct menuIcon; cbn [menus with_actions with_menus];
      apply lookup_insert_eq. }
  assert (forall other, other <> fresh (dom (menus s)) ->
            menus s3 !! other = menus s !! other) as Hother3.
  { intros other Hne. unfold s3, onAction.
    destruct menuIcon; cbn [menus with_actions with_menus];
      by rewrite lookup_insert_ne. }
  assert (menuCloneLibrary s3 = menuCloneLibrary s
          /\ actionCloneLibrary s3 = actionCloneLibrary s) as [Hmcl3 Hcl3]
    by by destruct menuIcon.
  clearbody s3.
  destruct (addEntries_result (fresh (dom (menus s))) entries s3
              (mkQMenu (newLoc s) [] []))
    as (s4 & its & -> & Hgrow4 & Hmcl4 & Hclones4 & Hm4 & Hother4 & Hbuilt & Hnd).
  { by eapply libraryLive_grows. }
  { intros k Hk. rewrite (proj1 Hgrow3). by apply Hkeys. }
  { done. }
  cbn [mbind option_bind].
  rewrite (proj2 Hgrow4 _ _ Hma3).
  cbn [mbind option_bind data setIcon setData Variant.toString].
  eexists _, _. split; [reflexivity|].
  assert (menus s !! fresh (dom (menus s)) = None) as Hnew
    by apply not_elem_of_dom, is_fresh.
  unfold menuBuilt. split_and!.
  - done.
  - cbn [menuCloneLibrary with_menuCloneLibrary].
    unfold QMultiHash.insert, QMultiHash.values. rewrite lookup_insert_eq.
    cbn [default from_option id]. by rewrite Hmcl4, Hmcl3.
  - intros k Hk. cbn [menuCloneLibrary with_menuCloneLibrary].
    unfold QMultiHash.insert, QMultiHash.values.
    rewrite lookup_insert_ne by done. by rewrite Hmcl4, Hmcl3.
  - cbn [actionLibrary with_menuCloneLibrary].
    by rewrite (proj1 Hgrow4), (proj1 Hgrow3).
  - intros q a Hq. cbn [actions with_menuCloneLibrary].
    by apply (proj2 Hgrow4), (proj2 Hgrow3).
  - intros other m Hm. cbn [menus with_menuCloneLibrary].
    assert (other <> fresh (dom (menus s))) as Hne by congruence.
    by rewrite Hother4, Hother3.
  - eexists. cbn [menus actions with_menuCloneLibrary].
    split; [exact Hm4|]. cbn [menuAction items app].
    split_and!; [done|by apply (proj2 Hgrow4)| |done].
    eapply Forall2_impl; [exact Hbuilt|]. intros e it Hit.
    apply (entryBuilt_from s s3); [done..|].
    destruct e as [k|], it as [c|]; done.
Qed.

Lemma buildViewMenu_from addIcon s :
  buildViewMenu addIcon s
  = buildMenuFrom (tr "&View") "view"
      (if addIcon then Some (fromTheme "zoom-fit-best") else None) viewEntries s.
Proof.
  unfold buildViewMenu, buildMenuFrom, viewEntries.
  destruct (newQMenu _ s) as [menu s1]. destruct (menus s1 !! menu); [|done].
  destruct addIcon; cbn [mbind option_bind forEach addEntry];
    repeat match goal with
           | |- context [addClone ?m ?k ?s0] =>
               destruct (addClone m k s0); cbn [mbind option_bind]; [|done]
           end; done.
Qed.

Lemma buildToolsMenu_from addIcon s :
  buildToolsMenu addIcon s
  = buildMenuFrom (tr "&Tools") "tools"
      (if addIcon
       then Some (ThemeIcon "configure" (fromTheme "preferences-other"))
       else None) toolsEntries s.
Proof.
  unfold buildToolsMenu, buildMenuFrom, toolsEntries.
  destruct (newQMenu _ s) as [menu s1]. destruct (menus s1 !! menu); [|done].
  destruct addIcon; cbn [mbind option_bind forEach addEntry];
    repeat match goal with
           | |- context [addClone ?m ?k ?s0] =>
               destruct (addClone m k s0); cbn [mbind option_bind]; [|done]
           end; done.
Qed.

Lemma buildHelpMenu_from addIcon s :
  buildHelpMenu addIcon s
  = buildMenuFrom (tr "&Help") "help"
      (if addIcon then Some (fromTheme "help-about") else None) helpEntries s.
Proof.
  unfold buildHelpMenu, buildMenuFrom, helpEntries.
  destruct (newQMenu _ s) as [menu s1]. destruct (menus s1 !! menu); [|done].
  destruct addIcon; cbn [mbind option_bind forEach addEntry];
    repeat match goal with
           | |- context [addClone ?m ?k ?s0] =>
               destruct (addClone m k s0); cbn [mbind option_bind]; [|done]
           end; done.
Qed.

Lemma menuBuilt_libraryLive title key menuIcon entries s menu s' :
  libraryLive s -> menuBuilt title key menuIcon entries s menu s' ->
  libraryLive s'.
Proof.
  intros Hlive (_ & _ & _ & Hlib & Hold & _). apply (libraryLive_grows s); [done|].
  by split.
Qed.

(** The library of a manager as constructed holds every key the view,
    tools and help menus clone. *)
Lemma ActionManager_menu_keys `{Build} `{RecentsCodec} (s0 : State)
    (key : QString) :
  Some key ∈ viewEntries ++ toolsEntries ++ helpEntries ->
  is_Some (actionLibrary (ActionManager s0) !! key).
Proof.
  intros Hin.
  assert (key ∈ libraryActions.*1) as Hkey.
  { assert (Forall (fun k => k ∈ libraryActions.*1)
              (omap id (viewEntries ++ toolsEntries ++ helpEntries))) as Hall
      by (apply (bool_decide_unpack _); by vm_compute).
    apply (proj1 (Forall_forall _ _) Hall), list_elem_of_omap.
    by exists (Some key). }
  apply list_elem_of_fmap in Hkey as ([k a] & -> & Hka).
  destruct (ActionManager_library_table s0) as (Htable & _).
  destruct (Htable k a Hka) as (p & Hp & _). by exists p.
Qed.

(** X20: while the library actions are live and hold the keys of the
    view menu, [buildViewMenu] returns a new menu, registered first
    under view, whose action has the title, the data view and, with
    [addIcon], the icon; its items are, in the order of the source, a
    new copy of the library action of each key, registered as a clone of
    that key, and the three separators. *)
Theorem buildViewMenu_builds (addIcon : bool) (s : State) :
  libraryLive s ->
  (forall key, Some key ∈ viewEntries -> is_Some (actionLibrary s !! key)) ->
  exists viewMenu s',
    buildViewMenu addIcon s = Some (viewMenu, s')
    /\ menuBuilt (tr "&View") "view"
         (if addIcon then fromTheme "zoom-fit-best" else NullIcon)
         viewEntries s viewMenu s'.
Proof.
  intros Hlive Hkeys. rewrite buildViewMenu_from.
  destruct (buildMenuFrom_result (tr "&View") "view"
              (if addIcon then Some (fromTheme "zoom-fit-best") else None)
              viewEntries s Hlive Hkeys) as (menu & s' & Hbuild & Hbuilt).
  exists menu, s'. split; [done|]. by destruct addIcon.
Qed.

Lemma buildViewMenu_builds_witness :
  let s := @ActionManager linuxBuild pairCodec blank in
  exists viewMenu s' m,
    buildViewMenu true s = Some (viewMenu, s')
    /\ menus s' !! viewMenu = Some m
    /\ length (items m) = 12%nat
    /\ (icon <$> actions s' !! menuAction m) = Some (fromTheme "zoom-fit-best").
Proof.
  intros s.
  destruct (buildViewMenu_builds true s)
    as (viewMenu & s' & Hbuild & _ & _ & _ & _ & _ & _ & m & Hm & _ & Hma & Hitems & _).
  - apply ActionManager_libraryLive.
  - intros key Hkey. apply ActionManager_menu_keys.
    apply elem_of_app. by left.
  - exists viewMenu, s', m. split; [exact Hbuild|]. split; [exact Hm|].
    split; [exact (eq_sym (Forall2_length _ _ _ Hitems))|].
    rewrite Hma. reflexivity.
Defined.

(** X21: while the library actions are live and hold the keys of the
    tools menu, [buildToolsMenu] returns a new menu, registered first
    under tools, whose action has the title, the data tools and, with
    [addIcon], the configure icon with its fallback; its items are, in
    the order of the source, a new copy of the library action of each
    key, registered as a clone of that key, and the two separators. *)
Theorem buildToolsMenu_builds (addIcon : bool) (s : State) :
  libraryLive s ->
  (forall key, Some key ∈ toolsEntries -> is_Some (actionLibrary s !! key)) ->
  exists toolsMenu s',
    buildToolsMenu addIcon s = Some (toolsMenu, s')
    /\ menuBuilt (tr "&Tools") "tools"
         (if addIcon
          then ThemeIcon "configure" (fromTheme "preferences-other")
          else NullIcon)
         toolsEntries s toolsMenu s'.
Proof.
  intros Hlive Hkeys. rewrite buildToolsMenu_from.
  destruct (buildMenuFrom_result (tr "&Tools") "tools"
              (if addIcon
               then Some (ThemeIcon "configure" (fromTheme "preferences-other"))
               else None)
              toolsEntries s Hlive Hkeys) as (menu & s' & Hbuild & Hbuilt).
  exists menu, s'. split; [done|]. by destruct addIcon.
Qed.

Lemma buildToolsMenu_builds_witness :
  let s := @ActionManager linuxBuild pairCodec blank in
  exists toolsMenu s' m,
    buildToolsMenu false s = Some (toolsMenu, s')
    /\ menus s' !! toolsMenu = Some m
    /\ length (items m) = 10%nat
    /\ (icon <$> actions s' !! menuAction m) = Some NullIcon.
Proof.
  intros s.
  destruct (buildToolsMenu_builds false s)
    as (toolsMenu & s' & Hbuild & _ & _ & _ & _ & _ & _ & m & Hm & _ & Hma & Hitems & _).
  - apply ActionManager_libraryLive.
  - intros key Hkey. apply ActionManager_menu_keys.
    apply elem_of_app. right. apply elem_of_app. by left.
  - exists toolsMenu, s', m. split; [exact Hbuild|]. split; [exact Hm|].
    split; [exact (eq_sym (Forall2_length _ _ _ Hitems))|].
    rewrite Hma. reflexivity.
Defined.

(** X22: while the library actions are live and hold about and welcome,
    [buildHelpMenu] returns a new menu, registered first under help,
    whose action has the title, the data help and, with [addIcon], the
    icon; its two items are new copies of the library actions of about
    and of welcome, each registered as a clone of its key. *)
Theorem buildHelpMenu_builds (addIcon : bool) (s : State) :
  libraryLive s ->
  (forall key, Some key ∈ helpEntries -> is_Some (actionLibrary s !! key)) ->
  exists helpMenu s',
    buildHelpMenu addIcon s = Some (helpMenu, s')
    /\ menuBuilt (tr "&Help") "help"
         (if addIcon then fromTheme "help-about" else NullIcon)
         helpEntries s helpMenu s'.
Proof.
  intros Hlive Hkeys. rewrite buildHelpMenu_from.
  destruct (buildMenuFrom_result (tr "&Help") "help"
              (if addIcon then Some (fromTheme "help-about") else None)
              helpEntries s Hlive Hkeys) as (menu & s' & Hbuild & Hbuilt).
  exists menu, s'. split; [done|]. by destruct addIcon.
Qed.

Lemma buildHelpMenu_builds_witness :
  let s := @ActionManager linuxBuild pairCodec blank in
  exists helpMenu s' m,
    buildHelpMenu true s = Some (helpMenu, s')
    /\ menus s' !! helpMenu = Some m
    /\ length (items m) = 2%nat
    /\ (data <$> actions s' !! menuAction m) = Some (VString "help").
Proof.
  intros s.
  destruct (buildHelpMenu_builds true s)
    as (helpMenu & s' & Hbuild & _ & _ & _ & _ & _ & _ & m & Hm & _ & Hma & Hitems & _).
  - apply ActionManager_libraryLive.
  - intros key Hkey. apply ActionManager_menu_keys.
    apply elem_of_app. right. apply elem_of_app. by right.
  - exists helpMenu, s', m. split; [exact Hbuild|]. split; [exact Hm|].
    split; [exact (eq_sym (Forall2_length _ _ _ Hitems))|].
    rewrite Hma. reflexivity.
Defined.

Lemma ActionManager_no_menus `{Build} `{RecentsCodec} (s0 : State) :
  menuCloneLibrary (ActionManager s0) = ∅.
Proof.
  unfold ActionManager. cbv zeta.
  match goal with
  | |- context [initializeActionLibrary ?X] =>
      assert (menuCloneLibrary (initializeActionLibrary X) = ∅) as Hinit;
      [|generalize dependent (initializeActionLibrary X)]
  end.
  { unfold initializeActionLibrary.
    apply (foldl_inv (fun s' => menuCloneLibrary s' = ∅)).
    - apply (foldl_inv (fun s' => menuCloneLibrary s' = ∅)); [done|].
      by intros s' [key a] Hs'.
    - intros s' key Hs'. by destruct (actionLibrary s' !! key). }
  intros s Hinit. unfold loadRecentsList.
  destruct (isActive _); [done|]. by rewrite auditRecentsList_frame.
Qed.

(** X23: on a manager as constructed the view, tools and help menus can
    be built one after the other, as [buildMenuBar] does: no key they
    clone is missing from the library, so each menu gets all its
    entries, the three menus are different menus that stay in the final
    state, and each is the one menu registered under its key. *)
Theorem constructed_menus `{Build} `{RecentsCodec} (s0 : State)
    (addIcon : bool) :
  exists viewMenu s1 toolsMenu s2 helpMenu s3,
    buildViewMenu addIcon (ActionManager s0) = Some (viewMenu, s1)
    /\ buildToolsMenu addIcon s1 = Some (toolsMenu, s2)
    /\ buildHelpMenu addIcon s2 = Some (helpMenu, s3)
    /\ (exists v t h,
          menus s3 !! viewMenu = Some v /\ menus s3 !! toolsMenu = Some t
          /\ menus s3 !! helpMenu = Some h
          /\ length (items v) = 12%nat /\ length (items t) = 10%nat
          /\ length (items h) = 2%nat)
    /\ viewMenu <> toolsMenu /\ viewMenu <> helpMenu /\ toolsMenu <> helpMenu
    /\ QMultiHash.values (menuCloneLibrary s3) "view" = [viewMenu]
    /\ QMultiHash.values (menuCloneLibrary s3) "tools" = [toolsMenu]
    /\ QMultiHash.values (menuCloneLibrary s3) "help" = [helpMenu].
Proof.
  pose proof (ActionManager_libraryLive s0) as Hlive.
  pose proof (ActionManager_menu_keys s0) as Hkeys.
  pose proof (ActionManager_no_menus s0) as Hempty.
  generalize dependent (ActionManager s0). intros s Hlive Hkeys Hempty.
  destruct (buildMenuFrom_result (tr "&View") "view"
              (if addIcon then Some (fromTheme "zoom-fit-best") else None)
              viewEntries s Hlive)
    as (viewMenu & s1 & Hview & Hbuilt1).
  { intros k Hk. apply Hkeys, elem_of_app. by left. }
  pose proof (menuBuilt_libraryLive _ _ _ _ _ _ _ Hlive Hbuilt1) as Hlive1.
  destruct Hbuilt1
    as (Hnew1 & Hreg1 & Hother1 & Hlib1 & Hold1 & Hmenus1 & v & Hv & _ & _ & Hitems1 & _).
  destruct (buildMenuFrom_result (tr "&Tools") "tools"
              (if addIcon
               then Some (ThemeIcon "configure" (fromTheme "preferences-other"))
               else None)
              toolsEntries s1 Hlive1)
    as (toolsMenu & s2 & Htools & Hbuilt2).
  { intros k Hk. rewrite Hlib1. apply Hkeys, elem_of_app. right.
    apply elem_of_app. by left. }
  pose proof (menuBuilt_libraryLive _ _ _ _ _ _ _ Hlive1 Hbuilt2) as Hlive2.
  destruct Hbuilt2
    as (Hnew2 & Hreg2 & Hother2 & Hlib2 & Hold2 & Hmenus2 & t & Ht & _ & _ & Hitems2 & _).
  destruct (buildMenuFrom_result (tr "&Help") "help"
              (if addIcon then Some (fromTheme "help-about") else None)
              helpEntries s2 Hlive2)
    as (helpMenu & s3 & Hhelp & Hbuilt3).
  { intros k Hk. rewrite Hlib2, Hlib1. apply Hkeys, elem_of_app. right.
    apply elem_of_app. by right. }
  destruct Hbuilt3
    as (Hnew3 & Hreg3 & Hother3 & Hlib3 & Hold3 & Hmenus3 & h & Hh & _ & _ & Hitems3 & _).
  exists viewMenu, s1, toolsMenu, s2, helpMenu, s3.
  rewrite buildViewMenu_from, buildToolsMenu_from, buildHelpMenu_from.
  split_and!; [done..| | | | | | |].
  - exists v, t, h. split_and!.
    + by apply Hmenus3, Hmenus2.
    + by apply Hmenus3.
    + done.
    + exact (eq_sym (Forall2_length _ _ _ Hitems1)).
    + exact (eq_sym (Forall2_length _ _ _ Hitems2)).
    + exact (eq_sym (Forall2_length _ _ _ Hitems3)).
  - intros ->. congruence.
  - intros ->. rewrite (Hmenus2 _ _ Hv) in Hnew3. done.
  - intros ->. congruence.
  - rewrite (Hother3 "view"), (Hother2 "view"), Hreg1 by done.
    unfold QMultiHash.values. by rewrite Hempty, lookup_empty.
  - rewrite (Hother3 "tools"), Hreg2, (Hother1 "tools") by done.
    unfold QMultiHash.values. by rewrite Hempty, lookup_empty.
  - rewrite Hreg3, (Hother2 "help"), (Hother1 "help") by done.
    unfold QMultiHash.values. by rewrite Hempty, lookup_empty.
Qed.
